(** * Inventory reservation and payment settlement: the data-access layer

    A shallow embedding of [services/inventory/src/db.ts] and
    [services/payment/src/db.ts] together with the PostgreSQL schema of
    [db/init/*.sql] they run against.

    Modelling choices.
    - A table is the list of its rows, in heap order (an INSERT appends).
    - SQL INTEGER columns and the JS numbers that flow into them are [Z]
      (values outside the 32-bit range, which PostgreSQL refuses, are not
      modelled); the numbers of a request are integers, of any size, and an
      error message shows them as JavaScript prints them; UUID and VARCHAR
      values are strings (every string stands for a well-formed value of
      its column type).
    - A timestamp, and the time value of a JS [Date], is a [Z]: the
      milliseconds since the epoch.  A [Date] made from a time value beyond
      8.64e15 ms is an Invalid Date, and a TIMESTAMP column holds no instant
      before 4714-11-24 BC; the INSERT that is handed such a [Date] fails.
    - The schema's CHECK, PRIMARY KEY and FOREIGN KEY constraints are
      evaluated by the statements that can violate them; a violation raises
      a database error, as PostgreSQL does.
    - [BEGIN ... COMMIT] with [ROLLBACK] in the [catch] block is
      [Tx.transaction]: the body runs on the current tables and either
      commits its result or leaves the tables as they were and rethrows.
    - The clock, the random UUIDs and the simulated gateway are inputs
      ([Env]), so every operation is a function. *)

From Stdlib Require Import ZArith List String Bool Lia.
Import ListNotations.

Local Open Scope string_scope.
Local Open Scope list_scope.
Local Open Scope Z_scope.

(** A UUID value (column type UUID; [string] in the TypeScript types). *)
Definition uuid : Type := string.

(** JavaScript's [a || b] on an optional number: [undefined] and [0] are
    falsy. *)
Definition js_or (a : option Z) (b : Z) : Z :=
  match a with
  | Some v => if v =? 0 then b else v
  | None => b
  end.

(** ** Errors and transactions *)

Module Tx.

(** What the modelled functions throw.  The first four are the
    [new Error(...)] values of the source, named after their messages; the
    last is an error raised by PostgreSQL, with the violated constraint or,
    for a value the server cannot read, the name of the error condition. *)
Inductive error : Type :=
| Item_not_found (sku : string)
    (* `Item with SKU ${item.sku} not found` *)
| Insufficient_stock (sku : string) (available requested : Z)
    (* `Insufficient stock for ${sku}. Available: ..., Requested: ...` *)
| Payment_not_found
    (* 'Payment not found' *)
| Can_only_refund_completed_payments
    (* 'Can only refund completed payments' *)
| Db_error (constraint : string).

Inductive result (A : Type) : Type :=
| Ok (a : A)
| Err (e : error).

Arguments Ok {A} a.
Arguments Err {A} e.

(** A statement sequence running inside a transaction over tables [S]. *)
Definition t (S A : Type) : Type := S -> result (A * S).

Definition ret {S A : Type} (a : A) : t S A :=
  fun s => Ok (a, s).

Definition bind {S A B : Type} (c : t S A) (k : A -> t S B) : t S B :=
  fun s =>
    match c s with
    | Ok (a, s') => k a s'
    | Err e => Err e
    end.

Definition throw {S A : Type} (e : error) : t S A :=
  fun _ => Err e.

(** [try { BEGIN; body; COMMIT; return r } catch (e) { ROLLBACK; throw e }]:
    the new tables and the returned value, or the old tables and the
    error. *)
Definition transaction {S A : Type} (body : t S A) (db : S) : S * result A :=
  match body db with
  | Ok (a, db') => (db', Ok a)
  | Err e => (db, Err e)
  end.

End Tx.

Notation "x <- c ;; k" := (Tx.bind c (fun x => k))
  (at level 61, c at next level, right associativity).
Notation "c ;;; k" := (Tx.bind c (fun _ => k))
  (at level 61, right associativity).

(** ** Inventory service *)

Module Inventory.

Inductive ReservationStatus : Type := RESERVED | CONFIRMED | RELEASED | EXPIRED.

Definition status_eqb (a b : ReservationStatus) : bool :=
  match a, b with
  | RESERVED, RESERVED | CONFIRMED, CONFIRMED
  | RELEASED, RELEASED | EXPIRED, EXPIRED => true
  | _, _ => false
  end.

(** A row of table [inventory]. *)
Module InventoryItem.
Record t : Type := mk {
  id : uuid;
  sku : string;
  name : string;
  description : option string;
  available_quantity : Z;
  reserved_quantity : Z;
  price_cents : Z;
  created_at : Z;
  updated_at : Z
}.

(** The table's CHECK constraints: the first one a row violates. *)
Definition check (it : t) : option string :=
  if available_quantity it <? 0 then Some "inventory_available_quantity_check"
  else if price_cents it <? 0 then Some "inventory_price_cents_check"
  else if reserved_quantity it <? 0 then Some "inventory_reserved_quantity_check"
  else None.
End InventoryItem.

(** A row of table [inventory_reservations]. *)
Module InventoryReservation.
Record t : Type := mk {
  id : uuid;
  order_id : uuid;
  sku : string;
  quantity : Z;
  status : ReservationStatus;
  expires_at : Z;
  created_at : Z;
  updated_at : Z
}.
End InventoryReservation.

Module AvailabilityCheck.
Record t : Type := mk {
  sku : string;
  requested_quantity : Z;
  available_quantity : Z;
  is_available : bool;
  price_cents : option Z
}.
End AvailabilityCheck.

Module RequestItem.
Record t : Type := mk { sku : string; quantity : Z }.
End RequestItem.

Module ReserveInventoryRequest.
Record t : Type := mk {
  order_id : uuid;
  items : list RequestItem.t;
  expiration_minutes : option Z
}.
End ReserveInventoryRequest.

Module ReleaseInventoryRequest.
Record t : Type := mk { order_id : uuid }.
End ReleaseInventoryRequest.

(** The tables the service reads and writes; of [orders] only the primary
    key matters here (it is the target of a foreign key). *)
Record DB : Type := mkDB {
  orders : list uuid;
  inventory : list InventoryItem.t;
  inventory_reservations : list InventoryReservation.t
}.

(** What one call takes from outside: [Date.now()], the transaction's
    [CURRENT_TIMESTAMP], and the values [gen_random_uuid()] yields for the
    first, second, ... row the call inserts. *)
Record Env : Type := mkEnv {
  Date_now : Z;
  CURRENT_TIMESTAMP : Z;
  gen_random_uuid : nat -> uuid
}.

(** *** Dates and timestamps *)

(** [new Date(v)] holds the time value [v] if it lies within 8.64e15 ms of
    the epoch, and is an Invalid Date otherwise (TimeClip). *)
Definition Date_valid (v : Z) : bool := Z.abs v <=? 8640000000000000.

(** The instants a TIMESTAMP column holds begin with Julian day 0,
    4714-11-24 BC, which is 210866803200000 ms before the epoch; they end
    in the year 294276, beyond every valid [Date]. *)
Definition timestamp_in_range (v : Z) : bool := -210866803200000 <=? v.

(** *** SQL statements *)

(** [SELECT ... FROM inventory WHERE sku = $1] *)
Definition select_inventory (sku : string) : Tx.t DB (list InventoryItem.t) :=
  fun db =>
    Tx.Ok (filter (fun it => String.eqb (InventoryItem.sku it) sku) (inventory db), db).

(** [SET available_quantity = available_quantity - $1,
         reserved_quantity = reserved_quantity + $1,
         updated_at = CURRENT_TIMESTAMP] *)
Definition debit (env : Env) (q : Z) (it : InventoryItem.t) : InventoryItem.t :=
  InventoryItem.mk (InventoryItem.id it) (InventoryItem.sku it)
    (InventoryItem.name it) (InventoryItem.description it)
    (InventoryItem.available_quantity it - q)
    (InventoryItem.reserved_quantity it + q)
    (InventoryItem.price_cents it) (InventoryItem.created_at it)
    (CURRENT_TIMESTAMP env).

(** [SET available_quantity = available_quantity + $1,
         reserved_quantity = reserved_quantity - $1,
         updated_at = CURRENT_TIMESTAMP] *)
Definition credit (env : Env) (q : Z) (it : InventoryItem.t) : InventoryItem.t :=
  InventoryItem.mk (InventoryItem.id it) (InventoryItem.sku it)
    (InventoryItem.name it) (InventoryItem.description it)
    (InventoryItem.available_quantity it + q)
    (InventoryItem.reserved_quantity it - q)
    (InventoryItem.price_cents it) (InventoryItem.created_at it)
    (CURRENT_TIMESTAMP env).

(** The first CHECK violation among the new row versions of a statement. *)
Fixpoint first_violation (rows : list InventoryItem.t) : option string :=
  match rows with
  | [] => None
  | it :: rest =>
      match InventoryItem.check it with
      | Some c => Some c
      | None => first_violation rest
      end
  end.

(** [UPDATE inventory SET ... WHERE sku = $2]: every row of that SKU gets
    its new version; the statement fails if a new version violates a CHECK
    constraint. *)
Definition update_inventory (set : InventoryItem.t -> InventoryItem.t)
    (sku : string) : Tx.t DB unit :=
  fun db =>
    let hit it := String.eqb (InventoryItem.sku it) sku in
    match first_violation (map set (filter hit (inventory db))) with
    | Some c => Tx.Err (Tx.Db_error c)
    | None =>
        Tx.Ok (tt, mkDB (orders db)
                     (map (fun it => if hit it then set it else it) (inventory db))
                     (inventory_reservations db))
    end.

(** [INSERT INTO inventory_reservations (order_id, sku, quantity, expires_at)
     VALUES ($1, $2, $3, $4) RETURNING *]: [id] is the next random UUID,
    [status] defaults to 'RESERVED', both timestamps to CURRENT_TIMESTAMP.
    The driver sends the [Date] of [$4] as text, which the server reads
    before it runs the statement: the text of an Invalid Date is refused
    (SQLSTATE 22007, invalid_datetime_format), and so is that of an instant
    the column cannot hold (22008, datetime_field_overflow).
    The row must pass CHECK (quantity > 0), have a fresh primary key, and
    reference an existing order and an existing SKU. *)
Definition insert_reservation (env : Env) (k : nat) (order_id : uuid)
    (sku : string) (quantity expires_at : Z)
  : Tx.t DB InventoryReservation.t :=
  fun db =>
    let row := InventoryReservation.mk (gen_random_uuid env k) order_id sku
                 quantity RESERVED expires_at
                 (CURRENT_TIMESTAMP env) (CURRENT_TIMESTAMP env) in
    if negb (Date_valid expires_at) then
      Tx.Err (Tx.Db_error "invalid_datetime_format")
    else if negb (timestamp_in_range expires_at) then
      Tx.Err (Tx.Db_error "datetime_field_overflow")
    else if negb (0 <? quantity) then
      Tx.Err (Tx.Db_error "inventory_reservations_quantity_check")
    else if existsb (fun r => String.eqb (InventoryReservation.id r) (InventoryReservation.id row))
              (inventory_reservations db) then
      Tx.Err (Tx.Db_error "inventory_reservations_pkey")
    else if negb (existsb (fun o => String.eqb o order_id) (orders db)) then
      Tx.Err (Tx.Db_error "inventory_reservations_order_id_fkey")
    else if negb (existsb (fun it => String.eqb (InventoryItem.sku it) sku) (inventory db)) then
      Tx.Err (Tx.Db_error "inventory_reservations_sku_fkey")
    else
      Tx.Ok (row, mkDB (orders db) (inventory db)
                    (inventory_reservations db ++ [row])).

(** The reservations an order still holds: [status IN ('RESERVED',
    'CONFIRMED')]. *)
Definition active (order_id : uuid) (r : InventoryReservation.t) : bool :=
  String.eqb (InventoryReservation.order_id r) order_id &&
  (status_eqb (InventoryReservation.status r) RESERVED ||
   status_eqb (InventoryReservation.status r) CONFIRMED).

Definition set_status (env : Env) (s : ReservationStatus)
    (r : InventoryReservation.t) : InventoryReservation.t :=
  InventoryReservation.mk (InventoryReservation.id r)
    (InventoryReservation.order_id r) (InventoryReservation.sku r)
    (InventoryReservation.quantity r) s (InventoryReservation.expires_at r)
    (InventoryReservation.created_at r) (CURRENT_TIMESTAMP env).

(** [UPDATE inventory_reservations SET status = $1, updated_at =
     CURRENT_TIMESTAMP WHERE <cond>] *)
Definition update_reservations (env : Env) (s : ReservationStatus)
    (cond : InventoryReservation.t -> bool) : Tx.t DB unit :=
  fun db =>
    Tx.Ok (tt, mkDB (orders db) (inventory db)
                 (map (fun r => if cond r then set_status env s r else r)
                      (inventory_reservations db))).

(** [SELECT sku, quantity FROM inventory_reservations WHERE order_id = $1
     AND status IN ($2, $3)] *)
Definition select_active_reservations (order_id : uuid)
  : Tx.t DB (list InventoryReservation.t) :=
  fun db => Tx.Ok (filter (active order_id) (inventory_reservations db), db).

(** *** The exported functions of [db.ts] *)

Definition checkAvailability (db : DB) (sku : string) (requestedQuantity : Z)
  : DB * AvailabilityCheck.t :=
  match filter (fun it => String.eqb (InventoryItem.sku it) sku) (inventory db) with
  | [] => (db, AvailabilityCheck.mk sku requestedQuantity 0 false None)
  | item :: _ =>
      let isAvailable := requestedQuantity <=? InventoryItem.available_quantity item in
      (db, AvailabilityCheck.mk sku requestedQuantity
             (InventoryItem.available_quantity item) isAvailable
             (Some (InventoryItem.price_cents item)))
  end.

(** The body of [for (const item of request.items) { ... }]; [k] counts the
    rows inserted so far and [reservations] is the array being filled. *)
Fixpoint reserve_loop (env : Env) (order_id : uuid) (expiresAt : Z)
    (items : list RequestItem.t) (k : nat)
    (reservations : list InventoryReservation.t)
  : Tx.t DB (list InventoryReservation.t) :=
  match items with
  | [] => Tx.ret reservations
  | item :: rest =>
      availabilityResult <- select_inventory (RequestItem.sku item) ;;
      match availabilityResult with
      | [] => Tx.throw (Tx.Item_not_found (RequestItem.sku item))
      | currentItem :: _ =>
          if InventoryItem.available_quantity currentItem <? RequestItem.quantity item
          then Tx.throw (Tx.Insufficient_stock (RequestItem.sku item)
                           (InventoryItem.available_quantity currentItem)
                           (RequestItem.quantity item))
          else
            update_inventory (debit env (RequestItem.quantity item))
              (RequestItem.sku item) ;;;
            row <- insert_reservation env k order_id (RequestItem.sku item)
                     (RequestItem.quantity item) expiresAt ;;
            reserve_loop env order_id expiresAt rest (S k) (reservations ++ [row])
      end
  end.

(** The time value [new Date(Date.now() + expirationMinutes * 60 * 1000)]
    is made from.  The Number arithmetic of the source is exact up to 2^53,
    beyond every valid [Date]; for a clock of the present era a sum that is
    not exact is out of range whether rounded or not. *)
Definition expires_at_of (env : Env) (request : ReserveInventoryRequest.t) : Z :=
  let expirationMinutes := js_or (ReserveInventoryRequest.expiration_minutes request) 30 in
  Date_now env + expirationMinutes * 60 * 1000.

Definition reserveInventory (env : Env) (db : DB)
    (request : ReserveInventoryRequest.t)
  : DB * Tx.result (list InventoryReservation.t) :=
  Tx.transaction
    (reserve_loop env (ReserveInventoryRequest.order_id request)
       (expires_at_of env request) (ReserveInventoryRequest.items request) 0 [])
    db.

Definition confirmReservation (env : Env) (db : DB) (orderId : uuid)
  : DB * Tx.result unit :=
  Tx.transaction
    (update_reservations env CONFIRMED
       (fun r => String.eqb (InventoryReservation.order_id r) orderId &&
                 status_eqb (InventoryReservation.status r) RESERVED))
    db.

(** [for (const reservation of reservationsResult.rows) { UPDATE inventory ... }] *)
Fixpoint release_loop (env : Env) (rows : list InventoryReservation.t)
  : Tx.t DB unit :=
  match rows with
  | [] => Tx.ret tt
  | reservation :: rest =>
      update_inventory (credit env (InventoryReservation.quantity reservation))
        (InventoryReservation.sku reservation) ;;;
      release_loop env rest
  end.

Definition releaseReservation (env : Env) (db : DB)
    (request : ReleaseInventoryRequest.t) : DB * Tx.result unit :=
  Tx.transaction
    (reservationsResult <-
       select_active_reservations (ReleaseInventoryRequest.order_id request) ;;
     release_loop env reservationsResult ;;;
     update_reservations env RELEASED
       (active (ReleaseInventoryRequest.order_id request)))
    db.

(** *** Vocabulary of the properties *)

(** The quantity a batch requests of one SKU, over all its items. *)
Fixpoint requested (items : list RequestItem.t) (sku : string) : Z :=
  match items with
  | [] => 0
  | item :: rest =>
      (if String.eqb (RequestItem.sku item) sku then RequestItem.quantity item else 0)
      + requested rest sku
  end.

(** The quantity of one SKU held by the reservation rows that satisfy [p]. *)
Fixpoint held (p : InventoryReservation.t -> bool)
    (rows : list InventoryReservation.t) (sku : string) : Z :=
  match rows with
  | [] => 0
  | r :: rest =>
      (if p r && String.eqb (InventoryReservation.sku r) sku
       then InventoryReservation.quantity r else 0)
      + held p rest sku
  end.

(** Every reservation row. *)
Definition any (r : InventoryReservation.t) : bool := true.

(** A reservation that still holds stock, whatever its order. *)
Definition live (r : InventoryReservation.t) : bool :=
  status_eqb (InventoryReservation.status r) RESERVED ||
  status_eqb (InventoryReservation.status r) CONFIRMED.

(** [it'] is [it] with the quantity [d] moved from available to reserved;
    [touched] tells whether an UPDATE rewrote the row. *)
Definition moved (env : Env) (d : Z) (touched : bool)
    (it it' : InventoryItem.t) : Prop :=
  InventoryItem.id it' = InventoryItem.id it /\
  InventoryItem.sku it' = InventoryItem.sku it /\
  InventoryItem.name it' = InventoryItem.name it /\
  InventoryItem.description it' = InventoryItem.description it /\
  InventoryItem.price_cents it' = InventoryItem.price_cents it /\
  InventoryItem.created_at it' = InventoryItem.created_at it /\
  InventoryItem.available_quantity it' = InventoryItem.available_quantity it - d /\
  InventoryItem.reserved_quantity it' = InventoryItem.reserved_quantity it + d /\
  InventoryItem.updated_at it' =
    (if touched then CURRENT_TIMESTAMP env else InventoryItem.updated_at it).

(** [it'] is [it] with the quantity [d] credited back from reserved to
    available. *)
Definition credited (env : Env) (d : Z) (touched : bool)
    (it it' : InventoryItem.t) : Prop :=
  InventoryItem.id it' = InventoryItem.id it /\
  InventoryItem.sku it' = InventoryItem.sku it /\
  InventoryItem.name it' = InventoryItem.name it /\
  InventoryItem.description it' = InventoryItem.description it /\
  InventoryItem.price_cents it' = InventoryItem.price_cents it /\
  InventoryItem.created_at it' = InventoryItem.created_at it /\
  InventoryItem.available_quantity it' = InventoryItem.available_quantity it + d /\
  InventoryItem.reserved_quantity it' = InventoryItem.reserved_quantity it - d /\
  InventoryItem.updated_at it' =
    (if touched then CURRENT_TIMESTAMP env else InventoryItem.updated_at it).

(** [r'] is [r] with status [s], rewritten by an UPDATE. *)
Definition restated (env : Env) (s : ReservationStatus)
    (r r' : InventoryReservation.t) : Prop :=
  InventoryReservation.id r' = InventoryReservation.id r /\
  InventoryReservation.order_id r' = InventoryReservation.order_id r /\
  InventoryReservation.sku r' = InventoryReservation.sku r /\
  InventoryReservation.quantity r' = InventoryReservation.quantity r /\
  InventoryReservation.expires_at r' = InventoryReservation.expires_at r /\
  InventoryReservation.created_at r' = InventoryReservation.created_at r /\
  InventoryReservation.status r' = s /\
  InventoryReservation.updated_at r' = CURRENT_TIMESTAMP env.

(** The row [SELECT ... WHERE sku = $1] puts in [rows[0]]. *)
Definition lookup (db : DB) (sku : string) : option InventoryItem.t :=
  hd_error (filter (fun it => String.eqb (InventoryItem.sku it) sku) (inventory db)).

(** An item [reserveInventory] cannot serve from the tables as they are:
    its SKU is unknown, or it asks for more than is available. *)
Definition rejected (db : DB) (item : RequestItem.t) : Prop :=
  match lookup db (RequestItem.sku item) with
  | None => True
  | Some it => InventoryItem.available_quantity it < RequestItem.quantity item
  end.

(** The row a successful [reserveInventory] creates for an item. *)
Definition reservation_for (env : Env) (request : ReserveInventoryRequest.t)
    (item : RequestItem.t) (r : InventoryReservation.t) : Prop :=
  InventoryReservation.order_id r = ReserveInventoryRequest.order_id request /\
  InventoryReservation.sku r = RequestItem.sku item /\
  InventoryReservation.quantity r = RequestItem.quantity item /\
  InventoryReservation.status r = RESERVED /\
  InventoryReservation.expires_at r = expires_at_of env request /\
  InventoryReservation.created_at r = CURRENT_TIMESTAMP env /\
  InventoryReservation.updated_at r = CURRENT_TIMESTAMP env.

(** What the schema guarantees of the stored rows: the CHECK constraints of
    both tables. *)
Definition schema_ok (db : DB) : Prop :=
  Forall (fun it => InventoryItem.check it = None) (inventory db) /\
  Forall (fun r => 0 < InventoryReservation.quantity r) (inventory_reservations db).

(** Every live reservation is backed by reserved stock of its SKU. *)
Definition backed (db : DB) : Prop :=
  Forall (fun it => held live (inventory_reservations db) (InventoryItem.sku it)
                    <= InventoryItem.reserved_quantity it)
         (inventory db).

Definition consistent (db : DB) : Prop := schema_ok db /\ backed db.

(** An instant a reservation can be made to expire at: one a [Date] and a
    TIMESTAMP column can both hold, from 4714-11-24 BC to the end of the
    [Date]s, 8.64e15 ms after the epoch. *)
Definition storable (v : Z) : Prop :=
  -210866803200000 <= v <= 8640000000000000.

(** The instant the reservations of a request are to expire at: the minutes
    the request gives, or 30 when it gives none or 0, after [Date.now()]. *)
Definition expiry (env : Env) (request : ReserveInventoryRequest.t) : Z :=
  Date_now env +
  match ReserveInventoryRequest.expiration_minutes request with
  | Some minutes => if minutes =? 0 then 30 else minutes
  | None => 30
  end * 60000.

(** A request every item of which can be served: the order exists, the
    quantities are positive, the SKUs are known, no SKU is asked for more
    than is available over the whole batch, the generated keys are new
    and distinct, and the expiry is an instant that can be stored. *)
Definition admissible (env : Env) (db : DB)
    (request : ReserveInventoryRequest.t) : Prop :=
  let items := ReserveInventoryRequest.items request in
  let keys := map (gen_random_uuid env) (seq 0 (List.length items)) in
  (items <> [] -> In (ReserveInventoryRequest.order_id request) (orders db)) /\
  Forall (fun item => 0 < RequestItem.quantity item) items /\
  Forall (fun item => lookup db (RequestItem.sku item) <> None) items /\
  Forall (fun it => requested items (InventoryItem.sku it)
                    <= InventoryItem.available_quantity it) (inventory db) /\
  NoDup keys /\
  Forall (fun key => ~ In key (map InventoryReservation.id (inventory_reservations db)))
         keys /\
  (items <> [] -> storable (expiry env request)).

(** The row version one debit, a batch of debits, one released reservation
    and a list of released reservations leave of a row. *)
Definition step_item (env : Env) (item : RequestItem.t) (it : InventoryItem.t)
  : InventoryItem.t :=
  if String.eqb (InventoryItem.sku it) (RequestItem.sku item)
  then debit env (RequestItem.quantity item) it else it.

Definition shift (env : Env) (items : list RequestItem.t)
    (it : InventoryItem.t) : InventoryItem.t :=
  fold_left (fun it item => step_item env item it) items it.

Definition step_row (env : Env) (r : InventoryReservation.t)
    (it : InventoryItem.t) : InventoryItem.t :=
  if String.eqb (InventoryItem.sku it) (InventoryReservation.sku r)
  then credit env (InventoryReservation.quantity r) it else it.

Definition unshift (env : Env) (rows : list InventoryReservation.t)
    (it : InventoryItem.t) : InventoryItem.t :=
  fold_left (fun it r => step_row env r it) rows it.

(** The total stock of a row, with the SKU it belongs to. *)
Definition total_stock (it : InventoryItem.t) : string * Z :=
  (InventoryItem.sku it,
   InventoryItem.available_quantity it + InventoryItem.reserved_quantity it).

(** A call of one of the three mutating operations, and a run of calls. *)
Inductive call : Type :=
| Reserve (env : Env) (request : ReserveInventoryRequest.t)
| Confirm (env : Env) (orderId : uuid)
| Release (env : Env) (request : ReleaseInventoryRequest.t).

Definition run_call (db : DB) (c : call) : DB :=
  match c with
  | Reserve env request => fst (reserveInventory env db request)
  | Confirm env orderId => fst (confirmReservation env db orderId)
  | Release env request => fst (releaseReservation env db request)
  end.

Definition run_calls (db : DB) (cs : list call) : DB :=
  fold_left run_call cs db.

End Inventory.

(** ** Payment service *)

Module Payment.

Inductive PaymentStatus : Type := PENDING | COMPLETED | FAILED | REFUNDED.

Definition status_eqb (a b : PaymentStatus) : bool :=
  match a, b with
  | PENDING, PENDING | COMPLETED, COMPLETED
  | FAILED, FAILED | REFUNDED, REFUNDED => true
  | _, _ => false
  end.

(** A row of table [payments]. *)
Module PaymentTransaction.
Record t : Type := mk {
  id : uuid;
  order_id : uuid;
  amount_cents : Z;
  currency : string;
  status : PaymentStatus;
  payment_method : option string;
  external_transaction_id : option string;
  created_at : Z;
  updated_at : Z
}.
End PaymentTransaction.

Module RefundPaymentRequest.
Record t : Type := mk {
  payment_id : uuid;
  amount_cents : option Z
}.
End RefundPaymentRequest.

(** The row [getPaymentSummaryByOrderId] returns. *)
Module PaymentSummary.
Record t : Type := mk {
  total_paid : Z;
  total_refunded : Z;
  net_amount : Z;
  payment_count : Z;
  latest_status : option PaymentStatus
}.
End PaymentSummary.

(** The tables the service reads and writes; of [orders] only the primary
    key matters here. *)
Record DB : Type := mkDB {
  orders : list uuid;
  payments : list PaymentTransaction.t
}.

(** What one call of [refundPayment] takes from outside: [uuidv4()], the
    string [`rfnd_${Date.now()}_${Math.random().toString(36).substr(2, 9)}`],
    the outcome [Math.random() < 0.98] of the simulated gateway, and the
    transaction's [NOW()]. *)
Record Env : Type := mkEnv {
  uuidv4 : uuid;
  rfnd_token : string;
  refund_succeeds : bool;
  NOW : Z
}.

(** *** SQL statements *)

(** [SELECT * FROM payments WHERE id = $1] *)
Definition select_payment (id : uuid) (db : DB) : list PaymentTransaction.t :=
  filter (fun p => String.eqb (PaymentTransaction.id p) id) (payments db).

(** [INSERT INTO payments (...) VALUES (...) RETURNING *]: the row must have
    a fresh primary key and reference an existing order. *)
Definition insert_payment (row : PaymentTransaction.t)
  : Tx.t DB PaymentTransaction.t :=
  fun db =>
    if existsb (fun p => String.eqb (PaymentTransaction.id p) (PaymentTransaction.id row))
         (payments db) then
      Tx.Err (Tx.Db_error "payments_pkey")
    else if negb (existsb (fun o => String.eqb o (PaymentTransaction.order_id row))
                    (orders db)) then
      Tx.Err (Tx.Db_error "payments_order_id_fkey")
    else
      Tx.Ok (row, mkDB (orders db) (payments db ++ [row])).

(** SQL's [SUM] (NULL over no rows), [ABS] and [COALESCE] on nullable
    integers. *)
Definition sql_sum (values : list Z) : option Z :=
  match values with
  | [] => None
  | _ => Some (fold_right Z.add 0 values)
  end.

Definition sql_abs (v : option Z) : option Z := option_map Z.abs v.

Definition coalesce (v : option Z) (d : Z) : Z :=
  match v with
  | Some z => z
  | None => d
  end.

(** [ORDER BY created_at DESC LIMIT 1]: a row whose [created_at] is the
    greatest.  Among rows of equal [created_at], which SQL leaves open, the
    first in heap order is taken. *)
Fixpoint latest (rows : list PaymentTransaction.t) : option PaymentTransaction.t :=
  match rows with
  | [] => None
  | r :: rest =>
      match latest rest with
      | Some r' =>
          if PaymentTransaction.created_at r <? PaymentTransaction.created_at r'
          then Some r' else Some r
      | None => Some r
      end
  end.

(** *** The exported functions of [db.ts] *)

Definition getPaymentById (db : DB) (paymentId : uuid)
  : option PaymentTransaction.t :=
  hd_error (select_payment paymentId db).

Definition simulateRefundProcessing (env : Env)
    (originalPayment : PaymentTransaction.t) (refundAmount : Z) : bool :=
  refund_succeeds env.

Definition refundPayment (env : Env) (db : DB) (request : RefundPaymentRequest.t)
  : DB * Tx.result PaymentTransaction.t :=
  Tx.transaction
    (match getPaymentById db (RefundPaymentRequest.payment_id request) with
     | None => Tx.throw Tx.Payment_not_found
     | Some originalPayment =>
         if negb (status_eqb (PaymentTransaction.status originalPayment) COMPLETED)
         then Tx.throw Tx.Can_only_refund_completed_payments
         else
           let refundId := uuidv4 env in
           let refundAmount :=
             js_or (RefundPaymentRequest.amount_cents request)
                   (PaymentTransaction.amount_cents originalPayment) in
           let externalTransactionId := rfnd_token env in
           let isRefundSuccessful :=
             simulateRefundProcessing env originalPayment refundAmount in
           let status := if isRefundSuccessful then REFUNDED else FAILED in
           insert_payment
             (PaymentTransaction.mk refundId
                (PaymentTransaction.order_id originalPayment)
                (- refundAmount)
                (PaymentTransaction.currency originalPayment)
                status
                (PaymentTransaction.payment_method originalPayment)
                (Some externalTransactionId)
                (NOW env) (NOW env))
     end)
    db.

(** [WHERE order_id = $1 AND status IN ('COMPLETED', 'REFUNDED')] *)
Definition qualifying (orderId : uuid) (p : PaymentTransaction.t) : bool :=
  String.eqb (PaymentTransaction.order_id p) orderId &&
  (status_eqb (PaymentTransaction.status p) COMPLETED ||
   status_eqb (PaymentTransaction.status p) REFUNDED).

(** The aggregates are kept as integers, whatever text the driver delivers
    them as. *)
Definition getPaymentSummaryByOrderId (db : DB) (orderId : uuid)
  : PaymentSummary.t :=
  let selected := filter (qualifying orderId) (payments db) in
  let amounts := map PaymentTransaction.amount_cents selected in
  let row :=
    PaymentSummary.mk
      (coalesce (sql_sum (map (fun a => if a >? 0 then a else 0) amounts)) 0)
      (coalesce (sql_abs (sql_sum (map (fun a => if a <? 0 then a else 0) amounts))) 0)
      (coalesce (sql_sum amounts) 0)
      (Z.of_nat (List.length selected))
      (option_map PaymentTransaction.status
         (latest (filter (fun p => String.eqb (PaymentTransaction.order_id p) orderId)
                         (payments db)))) in
  (* an aggregate query without GROUP BY yields exactly one row *)
  match [row] with
  | first :: _ => first
  | [] => PaymentSummary.mk 0 0 0 0 None
  end.

(** *** Vocabulary of the properties *)

Definition total (values : list Z) : Z := fold_right Z.add 0 values.

(** The rows of an order that count for its totals: those whose status is
    COMPLETED or REFUNDED. *)
Definition counted (db : DB) (orderId : uuid) : list PaymentTransaction.t :=
  filter (fun p => String.eqb (PaymentTransaction.order_id p) orderId &&
                   match PaymentTransaction.status p with
                   | COMPLETED | REFUNDED => true
                   | PENDING | FAILED => false
                   end)
         (payments db).

(** All rows of an order, whatever their status. *)
Definition of_order (db : DB) (orderId : uuid) : list PaymentTransaction.t :=
  filter (fun p => String.eqb (PaymentTransaction.order_id p) orderId) (payments db).

(** The row a refund of [amount] against [original] writes. *)
Definition refund_row (env : Env) (original : PaymentTransaction.t) (amount : Z)
  : PaymentTransaction.t :=
  PaymentTransaction.mk (uuidv4 env) (PaymentTransaction.order_id original)
    (- amount) (PaymentTransaction.currency original)
    (if refund_succeeds env then REFUNDED else FAILED)
    (PaymentTransaction.payment_method original)
    (Some (rfnd_token env)) (NOW env) (NOW env).

(** What the schema guarantees of [payments]: distinct primary keys, and
    every row references an existing order. *)
Definition schema_ok (db : DB) : Prop :=
  NoDup (map PaymentTransaction.id (payments db)) /\
  Forall (fun p => In (PaymentTransaction.order_id p) (orders db)) (payments db).

End Payment.

(** ** Concurrent calls of [reserveInventory]

    Several calls run at once, each on its own connection; the server
    executes one statement at a time.  The transactions are opened with a
    plain [BEGIN], hence at PostgreSQL's default isolation level READ
    COMMITTED:
    - a SELECT sees the committed rows and the transaction's own writes, and
      never waits;
    - an UPDATE locks the rows it writes until its transaction ends; an
      UPDATE of a row another open transaction has written waits for that
      transaction, and then applies to the row as committed;
    - COMMIT publishes the transaction's writes, ROLLBACK drops them.
    A transaction writes at most one version per SKU (column [sku] is
    UNIQUE), and the generated reservation ids are not contended. *)

Module Concurrent.
Import Inventory.

(** The statement of the loop body a call executes next for its current
    item. *)
Inductive stmt : Type := AtSelect | AtUpdate | AtInsert.

(** A call in flight: its inputs, the items still to process, the next
    statement, the row versions it has written and not yet committed, the
    [reservations] array (the rows it has inserted), and its result once it
    has returned or thrown. *)
Record txn : Type := mkTxn {
  env : Env;
  request : ReserveInventoryRequest.t;
  todo : list RequestItem.t;
  next : stmt;
  writes : list InventoryItem.t;
  reservations : list InventoryReservation.t;
  outcome : option (Tx.result (list InventoryReservation.t))
}.

Definition begin (c : Env * ReserveInventoryRequest.t) : txn :=
  mkTxn (fst c) (snd c) (ReserveInventoryRequest.items (snd c)) AtSelect [] [] None.

Definition finish (t : txn) (r : Tx.result (list InventoryReservation.t)) : txn :=
  mkTxn (env t) (request t) (todo t) (next t) (writes t) (reservations t) (Some r).

(** The version of a row an open transaction sees: its own write if it has
    one, the committed row otherwise. *)
Definition own (t : txn) (row : InventoryItem.t) : InventoryItem.t :=
  match find (fun w => String.eqb (InventoryItem.sku w) (InventoryItem.sku row))
             (writes t) with
  | Some w => w
  | None => row
  end.

(** The tables as a statement of the transaction sees them. *)
Definition view (db : DB) (t : txn) : DB :=
  mkDB (orders db) (map (own t) (inventory db))
       (inventory_reservations db ++ reservations t).

(** Whether the transaction holds the lock of the row of a SKU. *)
Definition holds (t : txn) (sku : string) : bool :=
  match outcome t with
  | Some _ => false
  | None => existsb (fun w => String.eqb (InventoryItem.sku w) sku) (writes t)
  end.

(** Whether a transaction other than the [i]-th holds it. *)
Fixpoint locked_elsewhere (i : nat) (ts : list txn) (sku : string) : bool :=
  match ts with
  | [] => false
  | t :: rest =>
      match i with
      | O => existsb (fun t' => holds t' sku) rest
      | S i' => holds t sku || locked_elsewhere i' rest sku
      end
  end.

(** The next statement of a call, executed on the committed tables [db];
    [blocked] tells which rows other transactions have locked.  A waiting
    UPDATE leaves everything as it is. *)
Definition step_txn (db : DB) (blocked : string -> bool) (t : txn) : DB * txn :=
  match outcome t with
  | Some _ => (db, t)
  | None =>
      match todo t with
      | [] =>
          (* COMMIT; return reservations *)
          (view db t, finish t (Tx.Ok (reservations t)))
      | item :: rest =>
          match next t with
          | AtSelect =>
              match select_inventory (RequestItem.sku item) (view db t) with
              | Tx.Err e => (db, finish t (Tx.Err e))
              | Tx.Ok ([], _) =>
                  (db, finish t (Tx.Err (Tx.Item_not_found (RequestItem.sku item))))
              | Tx.Ok (currentItem :: _, _) =>
                  if InventoryItem.available_quantity currentItem
                     <? RequestItem.quantity item
                  then (db, finish t (Tx.Err
                          (Tx.Insufficient_stock (RequestItem.sku item)
                             (InventoryItem.available_quantity currentItem)
                             (RequestItem.quantity item))))
                  else (db, mkTxn (env t) (request t) (todo t) AtUpdate
                              (writes t) (reservations t) None)
              end
          | AtUpdate =>
              if blocked (RequestItem.sku item) then (db, t)
              else
                match update_inventory (debit (env t) (RequestItem.quantity item))
                        (RequestItem.sku item) (view db t) with
                | Tx.Err e => (db, finish t (Tx.Err e))
                | Tx.Ok (_, v) =>
                    let hit w := String.eqb (InventoryItem.sku w) (RequestItem.sku item) in
                    (db, mkTxn (env t) (request t) (todo t) AtInsert
                           (filter hit (inventory v)
                            ++ filter (fun w => negb (hit w)) (writes t))
                           (reservations t) None)
                end
          | AtInsert =>
              match insert_reservation (env t) (List.length (reservations t))
                      (ReserveInventoryRequest.order_id (request t))
                      (RequestItem.sku item) (RequestItem.quantity item)
                      (expires_at_of (env t) (request t)) (view db t) with
              | Tx.Err e => (db, finish t (Tx.Err e))
              | Tx.Ok (row, _) =>
                  (db, mkTxn (env t) (request t) rest AtSelect
                         (writes t) (reservations t ++ [row]) None)
              end
          end
      end
  end.

(** The committed tables and the calls in flight. *)
Record world : Type := mkWorld {
  committed : DB;
  txns : list txn
}.

Fixpoint upd (i : nat) (t : txn) (ts : list txn) : list txn :=
  match ts, i with
  | [], _ => []
  | _ :: rest, O => t :: rest
  | t0 :: rest, S i' => t0 :: upd i' t rest
  end.

(** What the scheduler does next: let the [i]-th call execute its next
    statement, or have the server abort it (a lost connection, a deadlock
    victim). *)
Inductive action : Type :=
| Run (i : nat)
| Kill (i : nat).

Definition step (w : world) (a : action) : world :=
  match a with
  | Run i =>
      match nth_error (txns w) i with
      | None => w
      | Some t =>
          let (db', t') :=
            step_txn (committed w) (locked_elsewhere i (txns w)) t in
          mkWorld db' (upd i t' (txns w))
      end
  | Kill i =>
      match nth_error (txns w) i with
      | None => w
      | Some t =>
          match outcome t with
          | Some _ => w
          | None =>
              mkWorld (committed w)
                (upd i (finish t (Tx.Err (Tx.Db_error "aborted"))) (txns w))
          end
      end
  end.

Definition run (w : world) (schedule : list action) : world :=
  fold_left step schedule w.

Definition start (db : DB) (calls : list (Env * ReserveInventoryRequest.t)) : world :=
  mkWorld db (map begin calls).

(** *** Vocabulary of the properties *)

(** What a call has sold of a SKU: what it requested, once it has
    succeeded. *)
Definition sold_by (t : txn) (sku : string) : Z :=
  match outcome t with
  | Some (Tx.Ok _) => requested (ReserveInventoryRequest.items (request t)) sku
  | _ => 0
  end.

(** The sum of the quantities of a SKU over the calls that succeeded. *)
Fixpoint sold (ts : list txn) (sku : string) : Z :=
  match ts with
  | [] => 0
  | t :: rest => sold_by t sku + sold rest sku
  end.

(** What an open transaction has debited of a SKU so far. *)
Definition applied (t : txn) (sku : string) : Z :=
  held any (reservations t) sku +
  match next t, todo t with
  | AtInsert, item :: _ =>
      if String.eqb (RequestItem.sku item) sku then RequestItem.quantity item else 0
  | _, _ => 0
  end.

Definition b2n (b : bool) : nat := if b then 1%nat else 0%nat.

(** The version of the row of a SKU a transaction has written, if any. *)
Definition write_of (t : txn) (sku : string) : option InventoryItem.t :=
  find (fun w => String.eqb (InventoryItem.sku w) sku) (writes t).

(** The number of transactions that hold the lock of the row of a SKU. *)
Definition holders (ts : list txn) (sku : string) : nat :=
  List.length (filter (fun t => holds t sku) ts).

(** An open transaction accounts for the row of [sku], whose committed
    [available_quantity] is [a]: its items are those inserted and those still
    to do, and its own version of the row, if it has one, is the committed
    one less what it has debited, and is not negative. *)
Definition txn_ok (sku : string) (a : Z) (t : txn) : Prop :=
  outcome t = None ->
  requested (ReserveInventoryRequest.items (request t)) sku
    = held any (reservations t) sku + requested (todo t) sku /\
  match write_of t sku with
  | Some w => InventoryItem.available_quantity w = a - applied t sku /\
              0 <= InventoryItem.available_quantity w
  | None => applied t sku = 0
  end.

(** The invariant of a SKU whose row had [a0] available at the start: the
    committed row has [a0] less what has been sold, which is not negative;
    every open transaction accounts for the row; at most one holds its
    lock. *)
Definition accounted (sku : string) (a0 : Z) (w : world) : Prop :=
  exists row,
    lookup (committed w) sku = Some row /\
    InventoryItem.available_quantity row = a0 - sold (txns w) sku /\
    0 <= InventoryItem.available_quantity row /\
    Forall (txn_ok sku (InventoryItem.available_quantity row)) (txns w) /\
    (holders (txns w) sku <= 1)%nat.

(** The statement the [i]-th call is about to execute, if it is still
    running. *)
Definition stage (w : world) (i : nat) : option stmt :=
  match nth_error (txns w) i with
  | Some t => match outcome t with None => Some (next t) | Some _ => None end
  | None => None
  end.

Definition result_of (w : world) (i : nat)
  : option (Tx.result (list InventoryReservation.t)) :=
  match nth_error (txns w) i with
  | Some t => outcome t
  | None => None
  end.

End Concurrent.

(** ** Sample data

    The rows [db/init/*.sql] provisions, and a few calls against them. *)

Module Sample.

Definition order1 : uuid := "550e8400-e29b-41d4-a716-446655440001".
Definition order2 : uuid := "550e8400-e29b-41d4-a716-446655440002".

Definition item1 : Inventory.InventoryItem.t :=
  Inventory.InventoryItem.mk "inv-1" "item-001" "Premium Widget"
    (Some "High-quality widget for various applications") 100 0 2500 0 0.
Definition item2 : Inventory.InventoryItem.t :=
  Inventory.InventoryItem.mk "inv-2" "item-002" "Standard Widget"
    (Some "Standard widget for everyday use") 50 0 1500 0 0.
Definition item3 : Inventory.InventoryItem.t :=
  Inventory.InventoryItem.mk "inv-3" "item-003" "Economy Widget"
    (Some "Budget-friendly widget option") 200 0 999 0 0.
Definition item4 : Inventory.InventoryItem.t :=
  Inventory.InventoryItem.mk "inv-4" "item-004" "Deluxe Widget"
    (Some "Premium deluxe widget with extra features") 25 0 4999 0 0.

Definition provisioned : Inventory.DB :=
  Inventory.mkDB [order1; order2] [item1; item2; item3; item4] [].

(** Clocks and generated ids of four successive calls. *)
Definition env1 : Inventory.Env :=
  Inventory.mkEnv 1000 1000 (fun k => match k with O => "res-1" | _ => "res-2" end).
Definition env2 : Inventory.Env :=
  Inventory.mkEnv 2000 2000 (fun k => "res-3").
Definition env3 : Inventory.Env :=
  Inventory.mkEnv 3000 3000 (fun k => "res-4").
Definition env4 : Inventory.Env :=
  Inventory.mkEnv 4000 4000 (fun k => "res-5").

(** Order 1 reserves 2 x item-001 and 1 x item-002. *)
Definition reserve1 : Inventory.ReserveInventoryRequest.t :=
  Inventory.ReserveInventoryRequest.mk order1
    [ Inventory.RequestItem.mk "item-001" 2; Inventory.RequestItem.mk "item-002" 1 ]
    None.

(** Order 2 asks for 99 x item-001. *)
Definition reserve2 : Inventory.ReserveInventoryRequest.t :=
  Inventory.ReserveInventoryRequest.mk order2
    [ Inventory.RequestItem.mk "item-001" 99 ] None.

(** The tables after the first reservation. *)
Definition reserved1 : Inventory.DB :=
  fst (Inventory.reserveInventory env1 provisioned reserve1).

Definition release1 : Inventory.ReleaseInventoryRequest.t :=
  Inventory.ReleaseInventoryRequest.mk order1.

(** Two calls that each ask for 60 of the 100 x item-001. *)
Definition race1 : Inventory.Env * Inventory.ReserveInventoryRequest.t :=
  (env1, Inventory.ReserveInventoryRequest.mk order1
           [ Inventory.RequestItem.mk "item-001" 60 ] None).
Definition race2 : Inventory.Env * Inventory.ReserveInventoryRequest.t :=
  (env2, Inventory.ReserveInventoryRequest.mk order2
           [ Inventory.RequestItem.mk "item-001" 60 ] None).

(** The sample payments: 2500 and 1500, both COMPLETED, for order 1. *)
Definition payment1 : Payment.PaymentTransaction.t :=
  Payment.PaymentTransaction.mk "pay-1" order1 2500 "USD" Payment.COMPLETED
    (Some "credit_card") (Some "txn_sample_001") 0 0.
Definition payment2 : Payment.PaymentTransaction.t :=
  Payment.PaymentTransaction.mk "pay-2" order1 1500 "USD" Payment.COMPLETED
    (Some "paypal") (Some "txn_sample_002") 0 0.

Definition ledger : Payment.DB :=
  Payment.mkDB [order1; order2] [payment1; payment2].

(** Two refunds the gateway accepts. *)
Definition refund_env1 : Payment.Env := Payment.mkEnv "pay-3" "rfnd_1000_abc" true 1000.
Definition refund_env2 : Payment.Env := Payment.mkEnv "pay-4" "rfnd_2000_def" true 2000.

Definition refund1 : Payment.RefundPaymentRequest.t :=
  Payment.RefundPaymentRequest.mk "pay-1" None.


(** A ledger with the first payment only, and a partial refund of 1000. *)
Definition small_ledger : Payment.DB :=
  Payment.mkDB [order1; order2] [payment1].

Definition refund_1000 : Payment.RefundPaymentRequest.t :=
  Payment.RefundPaymentRequest.mk "pay-1" (Some 1000).

Definition partly_refunded : Payment.DB :=
  fst (Payment.refundPayment refund_env1 small_ledger refund_1000).

(** An order whose only payment attempt failed. *)
Definition failed_payment : Payment.PaymentTransaction.t :=
  Payment.PaymentTransaction.mk "pay-9" order2 999 "USD" Payment.FAILED
    (Some "credit_card") (Some "txn_sample_009") 5 5.

Definition failed_ledger : Payment.DB :=
  Payment.mkDB [order1; order2] [payment1; failed_payment].

End Sample.

(** ** Inventory service: the item read, and the life of a reservation *)

Module Reservations.
Import Inventory.

(** [getInventoryItem]: [result.rows.length > 0 ? result.rows[0] : null]
    over [SELECT * FROM inventory WHERE sku = $1]. *)
Definition getInventoryItem (db : DB) (sku : string) : option InventoryItem.t :=
  match filter (fun it => String.eqb (InventoryItem.sku it) sku) (inventory db) with
  | [] => None
  | item :: _ => Some item
  end.

(** The status changes the UPDATE statements of [db.ts] can make to a row:
    'RESERVED' to 'CONFIRMED' ([confirmReservation]), 'RESERVED' or
    'CONFIRMED' to 'RELEASED' ([releaseReservation]). *)
Definition transition (s s' : ReservationStatus) : bool :=
  match s, s' with
  | RESERVED, CONFIRMED | RESERVED, RELEASED | CONFIRMED, RELEASED => true
  | _, _ => false
  end.

(** [r'] is a later version of the reservation row [r]: the very same row,
    or one whose status has moved on and whose other columns, [updated_at]
    apart, are those of [r]. *)
Definition evolved (r r' : InventoryReservation.t) : Prop :=
  r' = r \/
  (InventoryReservation.id r' = InventoryReservation.id r /\
   InventoryReservation.order_id r' = InventoryReservation.order_id r /\
   InventoryReservation.sku r' = InventoryReservation.sku r /\
   InventoryReservation.quantity r' = InventoryReservation.quantity r /\
   InventoryReservation.expires_at r' = InventoryReservation.expires_at r /\
   InventoryReservation.created_at r' = InventoryReservation.created_at r /\
   transition (InventoryReservation.status r) (InventoryReservation.status r') = true).


(** A reservation row, and the tables, with the expiry blanked out; and the
    outcome of a statement sequence up to the expiries in the tables. *)
Definition blank (r : InventoryReservation.t) : InventoryReservation.t :=
  InventoryReservation.mk (InventoryReservation.id r)
    (InventoryReservation.order_id r) (InventoryReservation.sku r)
    (InventoryReservation.quantity r) (InventoryReservation.status r) 0
    (InventoryReservation.created_at r) (InventoryReservation.updated_at r).

Definition forget (db : DB) : DB :=
  mkDB (orders db) (inventory db) (map blank (inventory_reservations db)).

Definition forgetting {A : Type} (r : Tx.result (A * DB)) : Tx.result (A * DB) :=
  match r with
  | Tx.Ok (a, db) => Tx.Ok (a, forget db)
  | Tx.Err e => Tx.Err e
  end.

End Reservations.

(** * The HTTP layer

    The route handlers of [routes.ts] of the inventory and the payment
    service, as functions from the tables and the request to the tables and
    the reply.  A request body has the shape of its TypeScript type (a
    missing or ill-typed field is not modelled), ids are well-formed UUIDs
    as everywhere in this development (PostgreSQL's refusal of a malformed
    one is not modelled), and logging is left out. *)

From Stdlib Require DecimalString.

(** ** JavaScript values in the handlers *)

Module Js.

(** [!s] on a string: the empty string is the one falsy string. *)
Definition not_string (s : string) : bool :=
  match s with
  | EmptyString => true
  | String _ _ => false
  end.

(** [!a] on an array: every array, the empty one too, is truthy. *)
Definition not_array {A : Type} (a : list A) : bool := false.

(** [!n] on a number: [0] is falsy. *)
Definition not_number (n : Z) : bool := n =? 0.

(** The Number an integer is read as: itself up to 2^53, and beyond that the
    nearest integer with a significand of 53 bits, the one with the even
    significand of two that are equally near (IEEE 754 binary64, round to
    nearest, ties to even).  From 2^1024 on the result stands for
    [Infinity]. *)
Definition nearest_Number (n : Z) : Z :=
  let e := Z.log2 n - 52 in
  if e <=? 0 then n
  else
    let q := Z.shiftr n e in
    let r := n - Z.shiftl q e in
    let half := Z.shiftl 1 (e - 1) in
    Z.shiftl (if (half <? r) || ((r =? half) && Z.odd q) then q + 1 else q) e.

(** The decimal with the fewest significant digits that is read as the
    Number [x], and of several the one nearest to [x] (the one with the even
    last digit of two that are equally near): the best multiple of the
    highest power of ten [p] that has a multiple read as [x]. *)
Fixpoint shortest (fuel : nat) (x p best : Z) : Z :=
  match fuel with
  | O => best
  | S fuel' =>
      let lo := x / p * p in
      let hi := lo + p in
      let ok_lo := (0 <? lo) && (nearest_Number lo =? x) in
      let ok_hi := nearest_Number hi =? x in
      if ok_lo && ok_hi then
        shortest fuel' x (10 * p)
          (if x - lo <? hi - x then lo
           else if hi - x <? x - lo then hi
           else if Z.even (lo / p) then lo else hi)
      else if ok_lo then shortest fuel' x (10 * p) lo
      else if ok_hi then shortest fuel' x (10 * p) hi
      else best
  end.

Definition decimal (n : Z) : string :=
  DecimalString.NilZero.string_of_int (Z.to_int n).

Fixpoint strip_zeros (s : string) : string :=
  match s with
  | EmptyString => EmptyString
  | String c rest =>
      match strip_zeros rest with
      | EmptyString =>
          if String.eqb (String c EmptyString) "0" then EmptyString
          else String c EmptyString
      | rest' => String c rest'
      end
  end.

(** [`${n}`] for a number that is an integer (Number::toString, radix 10):
    up to 21 digits the decimal digits of the shortest decimal that is read
    as the Number, which up to 2^53 are the digits of the integer itself;
    from 1e21 on the exponent form, as in [1e+21] and
    [1.2345678901234568e+22]; a minus sign in front of a negative number.
    An integer that is no Number is printed as the Number [JSON.parse]
    reads its literal as. *)
Definition Number_toString (n : Z) : string :=
  let x := nearest_Number (Z.abs n) in
  let sign := if n <? 0 then "-" else EmptyString in
  if 2 ^ 1024 <=? x then sign ++ "Infinity"
  else
    let v := shortest (Z.to_nat (Z.log2 x)) x 10 x in
    let digits := decimal v in
    let places := Z.of_nat (String.length digits) in
    if v <? 10 ^ 21 then sign ++ digits
    else
      match strip_zeros digits with
      | String d EmptyString => sign ++ String d ("e+" ++ decimal (places - 1))
      | String d rest =>
          sign ++ String d ("." ++ rest ++ "e+" ++ decimal (places - 1))
      | EmptyString => sign ++ digits
      end.

(** [s.includes(searchString)]: [searchString] occurs in [s] at some
    position. *)
Fixpoint includes (s searchString : string) : bool :=
  String.prefix searchString s ||
  match s with
  | EmptyString => false
  | String _ rest => includes rest searchString
  end.

(** Two texts differ at a position both have; and the non-empty tails of a
    text (used to locate occurrences of a search string). *)
Fixpoint clash (p s : string) : bool :=
  match p, s with
  | String a p', String b s' => negb (Ascii.eqb a b) || clash p' s'
  | _, _ => false
  end.

Fixpoint tails (s : string) : list string :=
  match s with
  | EmptyString => []
  | String _ rest => s :: tails rest
  end.

(** [error.message] of what the data-access functions throw: the text given
    to [new Error(...)], or, for an error raised by PostgreSQL,
    [pg_message c], the text of the server for the violated constraint
    [c]. *)
Definition message (pg_message : string -> string) (e : Tx.error) : string :=
  match e with
  | Tx.Item_not_found sku =>
      ("Item with SKU " ++ sku ++ " not found")%string
  | Tx.Insufficient_stock sku available requested =>
      ("Insufficient stock for " ++ sku ++ ". Available: "
       ++ Number_toString available ++ ", Requested: "
       ++ Number_toString requested)%string
  | Tx.Payment_not_found => "Payment not found"
  | Tx.Can_only_refund_completed_payments => "Can only refund completed payments"
  | Tx.Db_error c => pg_message c
  end.

End Js.

(** ** Replies *)

Module Http.

(** The JSON a handler sends: an [ApiSuccess] or an [ApiError] of
    [types.ts], or a bare value. *)
Inductive body (A : Type) : Type :=
| ApiSuccess (success : bool) (data : option A) (message : option string)
| ApiError (error : string)
| Value (value : A).

Arguments ApiSuccess {A} success data message.
Arguments ApiError {A} error.
Arguments Value {A} value.

Record reply (A : Type) : Type := mk {
  statusCode : Z;
  payload : body A
}.

Arguments mk {A} statusCode payload.
Arguments statusCode {A} r.
Arguments payload {A} r.

(** [reply.status(code).send(value)]; a handler that just returns [value]
    sends it with status 200. *)
Definition send {A : Type} (code : Z) (value : body A) : reply A := mk code value.

End Http.

(** ** Routes of the inventory service *)

Module InventoryRoutes.
Import Inventory Reservations.

Module CheckAvailabilityRequest.
Record t : Type := mk { sku : string; quantity : Z }.
End CheckAvailabilityRequest.

(** [for (const item of request.items) { if (!item.sku || item.quantity <= 0)
    return ... }]: whether the loop returns the 400 reply. *)
Fixpoint invalid_item (items : list RequestItem.t) : bool :=
  match items with
  | [] => false
  | item :: rest =>
      if Js.not_string (RequestItem.sku item) || (RequestItem.quantity item <=? 0)
      then true
      else invalid_item rest
  end.

Section Server.

(** The text PostgreSQL words the violation of a constraint with. *)
Variable pg_message : string -> string.

(** [GET /inventory/:sku] *)
Definition get_inventory_sku (db : DB) (sku : string)
  : DB * Http.reply InventoryItem.t :=
  match getInventoryItem db sku with
  | None => (db, Http.send 404 (Http.ApiError "Item not found"))
  | Some item => (db, Http.send 200 (Http.ApiSuccess true (Some item) None))
  end.

(** [POST /inventory/check-availability] *)
Definition post_inventory_check_availability (db : DB)
    (body : CheckAvailabilityRequest.t) : DB * Http.reply AvailabilityCheck.t :=
  let sku := CheckAvailabilityRequest.sku body in
  let quantity := CheckAvailabilityRequest.quantity body in
  if Js.not_string sku || (quantity <=? 0)
  then (db, Http.send 400
              (Http.ApiError "Invalid request. SKU and positive quantity required"))
  else
    let (db', availability) := checkAvailability db sku quantity in
    (db', Http.send 200 (Http.ApiSuccess true (Some availability) None)).

(** [POST /inventory/reserve] *)
Definition post_inventory_reserve (env : Env) (db : DB)
    (request : ReserveInventoryRequest.t)
  : DB * Http.reply (list InventoryReservation.t) :=
  if Js.not_string (ReserveInventoryRequest.order_id request)
     || Js.not_array (ReserveInventoryRequest.items request)
     || Nat.eqb (List.length (ReserveInventoryRequest.items request)) 0
  then (db, Http.send 400
              (Http.ApiError "Invalid request. order_id and items required"))
  else if invalid_item (ReserveInventoryRequest.items request)
  then (db, Http.send 400
              (Http.ApiError
                 "Invalid item. SKU and positive quantity required for all items"))
  else
    match reserveInventory env db request with
    | (db', Tx.Ok reservations) =>
        (db', Http.send 201
                (Http.ApiSuccess true (Some reservations)
                   (Some "Inventory reserved successfully")))
    | (db', Tx.Err error) =>
        if Js.includes (Js.message pg_message error) "Insufficient stock"
        then (db', Http.send 409 (Http.ApiError (Js.message pg_message error)))
        else (db', Http.send 500 (Http.ApiError "Internal server error"))
    end.

(** [POST /inventory/confirm/:orderId] *)
Definition post_inventory_confirm (env : Env) (db : DB) (orderId : uuid)
  : DB * Http.reply unit :=
  match confirmReservation env db orderId with
  | (db', Tx.Ok _) =>
      (db', Http.send 200
              (Http.ApiSuccess true None (Some "Inventory reservation confirmed")))
  | (db', Tx.Err _) =>
      (db', Http.send 500 (Http.ApiError "Internal server error"))
  end.

(** [POST /inventory/release] *)
Definition post_inventory_release (env : Env) (db : DB)
    (request : ReleaseInventoryRequest.t) : DB * Http.reply unit :=
  if Js.not_string (ReleaseInventoryRequest.order_id request)
  then (db, Http.send 400 (Http.ApiError "order_id is required"))
  else
    match releaseReservation env db request with
    | (db', Tx.Ok _) =>
        (db', Http.send 200
                (Http.ApiSuccess true None (Some "Inventory reservation released")))
    | (db', Tx.Err _) =>
        (db', Http.send 500 (Http.ApiError "Internal server error"))
    end.

(** A request to one of the three writing routes; what serving it leaves of
    the tables, with the status code of the reply; and a sequence of
    requests served one after the other. *)
Inductive request : Type :=
| PostReserve (env : Env) (body : ReserveInventoryRequest.t)
| PostConfirm (env : Env) (orderId : uuid)
| PostRelease (env : Env) (body : ReleaseInventoryRequest.t).

Definition serve (db : DB) (r : request) : DB * Z :=
  match r with
  | PostReserve env body =>
      let (db', reply) := post_inventory_reserve env db body in
      (db', Http.statusCode reply)
  | PostConfirm env orderId =>
      let (db', reply) := post_inventory_confirm env db orderId in
      (db', Http.statusCode reply)
  | PostRelease env body =>
      let (db', reply) := post_inventory_release env db body in
      (db', Http.statusCode reply)
  end.

Definition serve_all (db : DB) (rs : list request) : DB :=
  fold_left (fun db r => fst (serve db r)) rs db.

End Server.

(** What the handler of [POST /inventory/reserve] requires of a body. *)
Definition well_formed (request : ReserveInventoryRequest.t) : Prop :=
  ReserveInventoryRequest.order_id request <> EmptyString /\
  ReserveInventoryRequest.items request <> [] /\
  Forall (fun item => RequestItem.sku item <> EmptyString /\
                      0 < RequestItem.quantity item)
         (ReserveInventoryRequest.items request).

End InventoryRoutes.

(** ** Payment service: taking a payment *)

Module Checkout.

Module ProcessPaymentRequest.
Record t : Type := mk {
  order_id : uuid;
  amount_cents : Z;
  currency : string;
  payment_method : string
}.
End ProcessPaymentRequest.

(** What one call of [processPayment] takes from outside: [uuidv4()], the
    string [`txn_${Date.now()}_${Math.random().toString(36).substr(2, 9)}`],
    the outcome of the simulated gateway (a comparison of [Math.random()]
    with a success rate), and the transaction's [NOW()]. *)
Record Env : Type := mkEnv {
  uuidv4 : uuid;
  txn_token : string;
  payment_succeeds : bool;
  NOW : Z
}.

(** What [processPayment] throws: its own [new Error('Order not found')], or
    the error of the INSERT. *)
Inductive exn : Type :=
| Order_not_found
| Raised (e : Tx.error).

Inductive outcome (A : Type) : Type :=
| Returned (a : A)
| Thrown (e : exn).

Arguments Returned {A} a.
Arguments Thrown {A} e.

(** [error.message] *)
Definition message (pg_message : string -> string) (e : exn) : string :=
  match e with
  | Order_not_found => "Order not found"
  | Raised e => Js.message pg_message e
  end.

Definition simulatePaymentProcessing (env : Env) (request : ProcessPaymentRequest.t)
  : bool :=
  payment_succeeds env.

Definition processPayment (env : Env) (db : Payment.DB)
    (request : ProcessPaymentRequest.t)
  : Payment.DB * outcome Payment.PaymentTransaction.t :=
  (* BEGIN; SELECT id FROM orders WHERE id = $1 *)
  match filter (fun o => String.eqb o (ProcessPaymentRequest.order_id request))
               (Payment.orders db) with
  | [] => (* ROLLBACK *) (db, Thrown Order_not_found)
  | _ :: _ =>
      let paymentId := uuidv4 env in
      let externalTransactionId := txn_token env in
      let isPaymentSuccessful := simulatePaymentProcessing env request in
      let status := if isPaymentSuccessful then Payment.COMPLETED else Payment.FAILED in
      match Payment.insert_payment
              (Payment.PaymentTransaction.mk paymentId
                 (ProcessPaymentRequest.order_id request)
                 (ProcessPaymentRequest.amount_cents request)
                 (ProcessPaymentRequest.currency request)
                 status
                 (Some (ProcessPaymentRequest.payment_method request))
                 (Some externalTransactionId)
                 (NOW env) (NOW env))
              db with
      | Tx.Ok (row, db') => (* COMMIT *) (db', Returned row)
      | Tx.Err e => (* ROLLBACK *) (db, Thrown (Raised e))
      end
  end.

(** *** Vocabulary of the properties *)

(** The row a payment writes. *)
Definition payment_row (env : Env) (request : ProcessPaymentRequest.t)
  : Payment.PaymentTransaction.t :=
  Payment.PaymentTransaction.mk (uuidv4 env)
    (ProcessPaymentRequest.order_id request)
    (ProcessPaymentRequest.amount_cents request)
    (ProcessPaymentRequest.currency request)
    (if payment_succeeds env then Payment.COMPLETED else Payment.FAILED)
    (Some (ProcessPaymentRequest.payment_method request))
    (Some (txn_token env)) (NOW env) (NOW env).

(** A call of one of the two operations that write [payments], and a run of
    calls. *)
Inductive call : Type :=
| Process (env : Env) (request : ProcessPaymentRequest.t)
| Refund (env : Payment.Env) (request : Payment.RefundPaymentRequest.t).

Definition run_call (db : Payment.DB) (c : call) : Payment.DB :=
  match c with
  | Process env request => fst (processPayment env db request)
  | Refund env request => fst (Payment.refundPayment env db request)
  end.

Definition run_calls (db : Payment.DB) (cs : list call) : Payment.DB :=
  fold_left run_call cs db.

(** The four totals of a summary. *)
Definition totals (s : Payment.PaymentSummary.t) : Z * Z * Z * Z :=
  (Payment.PaymentSummary.total_paid s, Payment.PaymentSummary.total_refunded s,
   Payment.PaymentSummary.net_amount s, Payment.PaymentSummary.payment_count s).

End Checkout.

(** ** Payment service: the listings *)

Module Listing.

(** [ORDER BY created_at DESC]: the rows by falling [created_at].  Rows of
    equal [created_at], whose order SQL leaves open, stay in heap order (as
    for [Payment.latest]). *)
Fixpoint insert_desc (p : Payment.PaymentTransaction.t)
    (sorted : list Payment.PaymentTransaction.t)
  : list Payment.PaymentTransaction.t :=
  match sorted with
  | [] => [p]
  | q :: rest =>
      if Payment.PaymentTransaction.created_at p <? Payment.PaymentTransaction.created_at q
      then q :: insert_desc p rest
      else p :: q :: rest
  end.

Definition order_by_created_at_desc (rows : list Payment.PaymentTransaction.t)
  : list Payment.PaymentTransaction.t :=
  fold_right insert_desc [] rows.

(** [SELECT * FROM payments ORDER BY created_at DESC] *)
Definition getAllPayments (db : Payment.DB) : list Payment.PaymentTransaction.t :=
  order_by_created_at_desc (Payment.payments db).

(** [SELECT * FROM payments WHERE order_id = $1 ORDER BY created_at DESC] *)
Definition getPaymentsByOrderId (db : Payment.DB) (orderId : uuid)
  : list Payment.PaymentTransaction.t :=
  order_by_created_at_desc
    (filter (fun p => String.eqb (Payment.PaymentTransaction.order_id p) orderId)
            (Payment.payments db)).

(** A list by falling [created_at]. *)
Fixpoint falling (rows : list Payment.PaymentTransaction.t) : Prop :=
  match rows with
  | [] => True
  | p :: rest =>
      Forall (fun q => Payment.PaymentTransaction.created_at q
                       <= Payment.PaymentTransaction.created_at p) rest /\
      falling rest
  end.

End Listing.

(** ** The view [payment_summaries] of [03-init-payments.sql] *)

Module PaymentSummaries.

(** A row of the view.  The aggregates are nullable, as SQL has them; the
    view applies no COALESCE. *)
Record t : Type := mk {
  order_id : uuid;
  transaction_count : Z;
  total_paid_cents : option Z;
  total_refunded_cents : option Z;
  net_amount_cents : option Z;
  latest_transaction_at : option Z;
  latest_status : option Payment.PaymentStatus
}.

(** [WHERE status IN ('COMPLETED', 'REFUNDED')] *)
Definition settled (p : Payment.PaymentTransaction.t) : bool :=
  Payment.status_eqb (Payment.PaymentTransaction.status p) Payment.COMPLETED ||
  Payment.status_eqb (Payment.PaymentTransaction.status p) Payment.REFUNDED.

(** SQL's [MAX] (NULL over no rows). *)
Definition sql_max (values : list Z) : option Z :=
  match values with
  | [] => None
  | v :: rest => Some (fold_right Z.max v rest)
  end.

(** [GROUP BY order_id]: the order ids of the selected rows, each once (in
    an order SQL leaves open). *)
Definition groups (db : Payment.DB) : list uuid :=
  nodup String.string_dec
    (map Payment.PaymentTransaction.order_id (filter settled (Payment.payments db))).

(** The row of a group. *)
Definition group_row (db : Payment.DB) (o : uuid) : t :=
  let group :=
    filter (fun p => String.eqb (Payment.PaymentTransaction.order_id p) o)
           (filter settled (Payment.payments db)) in
  let amounts := map Payment.PaymentTransaction.amount_cents group in
  mk o
    (Z.of_nat (List.length group))
    (Payment.sql_sum (map (fun a => if a >? 0 then a else 0) amounts))
    (Payment.sql_abs (Payment.sql_sum (map (fun a => if a <? 0 then a else 0) amounts)))
    (Payment.sql_sum amounts)
    (sql_max (map Payment.PaymentTransaction.created_at group))
    (option_map Payment.PaymentTransaction.status
       (Payment.latest
          (filter (fun p2 => String.eqb (Payment.PaymentTransaction.order_id p2) o)
                  (Payment.payments db)))).

Definition payment_summaries (db : Payment.DB) : list t :=
  map (group_row db) (groups db).

End PaymentSummaries.

(** ** Routes of the payment service *)

Module PaymentRoutes.

Definition validCurrencies : list string := ["USD"; "EUR"; "GBP"; "JPY"].

Definition validPaymentMethods : list string :=
  ["credit_card"; "debit_card"; "paypal"; "bank_transfer"; "cryptocurrency"].

(** [a.includes(s)] on an array of strings. *)
Definition Array_includes (a : list string) (s : string) : bool :=
  existsb (fun x => String.eqb x s) a.

(** [a.join(sep)] *)
Definition join (a : list string) (sep : string) : string := String.concat sep a.

Section Server.

(** The text PostgreSQL words the violation of a constraint with, and the
    case mappings of the JavaScript engine. *)
Variable pg_message : string -> string.
Variable toUpperCase : string -> string.
Variable toLowerCase : string -> string.

(** [GET /payments/:paymentId] *)
Definition get_payments_paymentId (db : Payment.DB) (paymentId : uuid)
  : Payment.DB * Http.reply Payment.PaymentTransaction.t :=
  match Payment.getPaymentById db paymentId with
  | None => (db, Http.send 404 (Http.ApiError "Payment not found"))
  | Some payment => (db, Http.send 200 (Http.ApiSuccess true (Some payment) None))
  end.

(** [GET /payments/order/:orderId] *)
Definition get_payments_order (db : Payment.DB) (orderId : uuid)
  : Payment.DB * Http.reply (list Payment.PaymentTransaction.t) :=
  let payments := Listing.getPaymentsByOrderId db orderId in
  (db, Http.send 200 (Http.ApiSuccess true (Some payments) None)).

(** [GET /payments/order/:orderId/summary] *)
Definition get_payments_order_summary (db : Payment.DB) (orderId : uuid)
  : Payment.DB * Http.reply Payment.PaymentSummary.t :=
  let summary := Payment.getPaymentSummaryByOrderId db orderId in
  (db, Http.send 200 (Http.ApiSuccess true (Some summary) None)).

(** [POST /payments/process] *)
Definition post_payments_process (env : Checkout.Env) (db : Payment.DB)
    (request : Checkout.ProcessPaymentRequest.t)
  : Payment.DB * Http.reply Payment.PaymentTransaction.t :=
  let order_id := Checkout.ProcessPaymentRequest.order_id request in
  let amount_cents := Checkout.ProcessPaymentRequest.amount_cents request in
  let currency := Checkout.ProcessPaymentRequest.currency request in
  let payment_method := Checkout.ProcessPaymentRequest.payment_method request in
  if Js.not_string order_id || Js.not_number amount_cents || (amount_cents <=? 0)
  then (db, Http.send 400
              (Http.ApiError
                 "Invalid request. order_id and positive amount_cents required"))
  else if Js.not_string currency || Js.not_string payment_method
  then (db, Http.send 400
              (Http.ApiError "Invalid request. currency and payment_method required"))
  else if negb (Array_includes validCurrencies (toUpperCase currency))
  then (db, Http.send 400
              (Http.ApiError
                 ("Invalid currency. Supported currencies: "
                  ++ join validCurrencies ", ")%string))
  else if negb (Array_includes validPaymentMethods (toLowerCase payment_method))
  then (db, Http.send 400
              (Http.ApiError
                 ("Invalid payment method. Supported methods: "
                  ++ join validPaymentMethods ", ")%string))
  else
    match Checkout.processPayment env db
            (Checkout.ProcessPaymentRequest.mk order_id amount_cents
               (toUpperCase currency) (toLowerCase payment_method)) with
    | (db', Checkout.Returned payment) =>
        let completed :=
          Payment.status_eqb (Payment.PaymentTransaction.status payment)
            Payment.COMPLETED in
        let statusCode := if completed then 201 else 400 in
        let message := if completed then "Payment processed successfully"
                       else "Payment processing failed" in
        (db', Http.send statusCode
                (Http.ApiSuccess completed (Some payment) (Some message)))
    | (db', Checkout.Thrown error) =>
        if String.eqb (Checkout.message pg_message error) "Order not found"
        then (db', Http.send 404 (Http.ApiError "Order not found"))
        else (db', Http.send 500 (Http.ApiError "Internal server error"))
    end.

(** [POST /payments/refund] *)
Definition post_payments_refund (env : Payment.Env) (db : Payment.DB)
    (request : Payment.RefundPaymentRequest.t)
  : Payment.DB * Http.reply Payment.PaymentTransaction.t :=
  if Js.not_string (Payment.RefundPaymentRequest.payment_id request)
  then (db, Http.send 400 (Http.ApiError "Invalid request. payment_id required"))
  else if match Payment.RefundPaymentRequest.amount_cents request with
          | Some amount_cents =>
              negb (Js.not_number amount_cents) && (amount_cents <=? 0)
          | None => false
          end
  then (db, Http.send 400
              (Http.ApiError
                 "Invalid request. amount_cents must be positive if specified"))
  else
    match Payment.refundPayment env db request with
    | (db', Tx.Ok refund) =>
        let refunded :=
          Payment.status_eqb (Payment.PaymentTransaction.status refund)
            Payment.REFUNDED in
        let statusCode := if refunded then 201 else 400 in
        let message := if refunded then "Refund processed successfully"
                       else "Refund processing failed" in
        (db', Http.send statusCode
                (Http.ApiSuccess refunded (Some refund) (Some message)))
    | (db', Tx.Err error) =>
        if String.eqb (Js.message pg_message error) "Payment not found"
        then (db', Http.send 404 (Http.ApiError "Payment not found"))
        else if String.eqb (Js.message pg_message error)
                  "Can only refund completed payments"
        then (db', Http.send 400 (Http.ApiError "Can only refund completed payments"))
        else (db', Http.send 500 (Http.ApiError "Internal server error"))
    end.

(** The request the handler of [POST /payments/process] hands on to
    [processPayment]: [{...request, currency: request.currency.toUpperCase(),
    payment_method: request.payment_method.toLowerCase()}]. *)
Definition normalized (request : Checkout.ProcessPaymentRequest.t)
  : Checkout.ProcessPaymentRequest.t :=
  Checkout.ProcessPaymentRequest.mk
    (Checkout.ProcessPaymentRequest.order_id request)
    (Checkout.ProcessPaymentRequest.amount_cents request)
    (toUpperCase (Checkout.ProcessPaymentRequest.currency request))
    (toLowerCase (Checkout.ProcessPaymentRequest.payment_method request)).


(** A request to one of the two POST routes, and a sequence of requests
    served one after the other. *)
Inductive request : Type :=
| PostProcess (env : Checkout.Env) (body : Checkout.ProcessPaymentRequest.t)
| PostRefund (env : Payment.Env) (body : Payment.RefundPaymentRequest.t).

Definition answer (db : Payment.DB) (r : request)
  : Payment.DB * Http.reply Payment.PaymentTransaction.t :=
  match r with
  | PostProcess env body => post_payments_process env db body
  | PostRefund env body => post_payments_refund env db body
  end.

Definition serve (db : Payment.DB) (r : request) : Payment.DB :=
  match r with
  | PostProcess env body => fst (post_payments_process env db body)
  | PostRefund env body => fst (post_payments_refund env db body)
  end.

Definition serve_all (db : Payment.DB) (rs : list request) : Payment.DB :=
  fold_left serve rs db.

End Server.


(** A row as the two POST routes write it: a currency and a payment method
    of the supported ones, a positive amount if it is COMPLETED and a
    negative one if it is REFUNDED. *)
Definition tidy (p : Payment.PaymentTransaction.t) : Prop :=
  In (Payment.PaymentTransaction.currency p) validCurrencies /\
  (exists m, Payment.PaymentTransaction.payment_method p = Some m /\
             In m validPaymentMethods) /\
  match Payment.PaymentTransaction.status p with
  | Payment.COMPLETED => 0 < Payment.PaymentTransaction.amount_cents p
  | Payment.REFUNDED => Payment.PaymentTransaction.amount_cents p < 0
  | _ => True
  end.

(** The rows of an order with a given status. *)
Definition with_status (db : Payment.DB) (orderId : uuid) (s : Payment.PaymentStatus)
  : list Payment.PaymentTransaction.t :=
  filter (fun p => String.eqb (Payment.PaymentTransaction.order_id p) orderId &&
                   Payment.status_eqb (Payment.PaymentTransaction.status p) s)
         (Payment.payments db).

End PaymentRoutes.

(** * The order services *)

(** ** The in-memory order store and its routes *)

Module OrderStore.

Inductive OrderStatus : Type := PENDING | CONFIRMED.

Module Item.
Record t : Type := mk { sku : string; qty : Z }.
End Item.

Module Order.
Record t : Type := mk {
  id : string;
  userId : string;
  items : list Item.t;
  status : OrderStatus
}.
End Order.

(** [Partial<Order>]: each property present or absent. *)
Module PartialOrder.
Record t : Type := mk {
  id : option string;
  userId : option string;
  items : option (list Item.t);
  status : option OrderStatus
}.
End PartialOrder.

(** [new Map<string, Order>()]: the entries, in insertion order. *)
Definition Map : Type := list (string * Order.t).

(** [m.get(key)] *)
Fixpoint Map_get (m : Map) (key : string) : option Order.t :=
  match m with
  | [] => None
  | (k, v) :: rest => if String.eqb k key then Some v else Map_get rest key
  end.

(** [m.set(key, value)]: the value of an existing key is replaced in place,
    a new key is appended. *)
Fixpoint Map_set (m : Map) (key : string) (value : Order.t) : Map :=
  match m with
  | [] => [(key, value)]
  | (k, v) :: rest =>
      if String.eqb k key then (k, value) :: rest
      else (k, v) :: Map_set rest key value
  end.

Definition saveOrder (orders : Map) (order : Order.t) : Map :=
  Map_set orders (Order.id order) order.

Definition getOrder (orders : Map) (id : string) : option Order.t :=
  Map_get orders id.

(** [{ ...existing, ...data }] *)
Definition spread (existing : Order.t) (data : PartialOrder.t) : Order.t :=
  Order.mk
    (match PartialOrder.id data with Some v => v | None => Order.id existing end)
    (match PartialOrder.userId data with Some v => v | None => Order.userId existing end)
    (match PartialOrder.items data with Some v => v | None => Order.items existing end)
    (match PartialOrder.status data with Some v => v | None => Order.status existing end).

Definition updateOrder (orders : Map) (id : string) (data : PartialOrder.t)
  : Map * option Order.t :=
  match Map_get orders id with
  | None => (orders, None)
  | Some existing =>
      let updated := spread existing data in
      (Map_set orders id updated, Some updated)
  end.

(** *** Routes *)

(** The body of [POST /orders]; [items] may be missing, and then defaults to
    the empty array. *)
Module CreateOrderRequest.
Record t : Type := mk { userId : string; items : option (list Item.t) }.
End CreateOrderRequest.

(** [POST /orders]; [uuid] is the value [uuid()] yields. *)
Definition post_orders (uuid : string) (orders : Map) (body : CreateOrderRequest.t)
  : Map * Http.reply Order.t :=
  let userId := CreateOrderRequest.userId body in
  let items := match CreateOrderRequest.items body with
               | Some items => items
               | None => []
               end in
  if Js.not_string userId
  then (orders, Http.send 400 (Http.ApiError "userId is required"))
  else
    let order := Order.mk uuid userId items PENDING in
    (saveOrder orders order, Http.send 201 (Http.Value order)).

(** [GET /orders/:id] *)
Definition get_orders_id (orders : Map) (id : string) : Map * Http.reply Order.t :=
  match getOrder orders id with
  | None => (orders, Http.send 404 (Http.ApiError "Order not found"))
  | Some order => (orders, Http.send 200 (Http.Value order))
  end.

(** [POST /orders/:id/confirm] *)
Definition post_orders_id_confirm (orders : Map) (id : string)
  : Map * Http.reply Order.t :=
  match updateOrder orders id (PartialOrder.mk None None None (Some CONFIRMED)) with
  | (orders', None) => (orders', Http.send 404 (Http.ApiError "Order not found"))
  | (orders', Some updated) => (orders', Http.send 200 (Http.Value updated))
  end.

(** *** Vocabulary of the properties *)

(** A request to one of the two writing routes, and a sequence of requests
    served one after the other. *)
Inductive request : Type :=
| PostOrders (uuid : string) (body : CreateOrderRequest.t)
| PostConfirm (id : string).

Definition serve (orders : Map) (r : request) : Map :=
  match r with
  | PostOrders uuid body => fst (post_orders uuid orders body)
  | PostConfirm id => fst (post_orders_id_confirm orders id)
  end.

Definition serve_all (orders : Map) (rs : list request) : Map :=
  fold_left serve rs orders.

(** The ids a sequence of requests creates orders under. *)
Fixpoint created (rs : list request) : list string :=
  match rs with
  | [] => []
  | PostOrders uuid body :: rest =>
      if Js.not_string (CreateOrderRequest.userId body) then created rest
      else uuid :: created rest
  | PostConfirm _ :: rest => created rest
  end.

End OrderStore.

(** ** The order service on PostgreSQL and its routes *)

Module OrderService.

Inductive OrderStatus : Type :=
  PENDING | CONFIRMED | PROCESSING | COMPLETED | CANCELLED.

(** A row of table [orders]. *)
Module Order.
Record t : Type := mk {
  id : uuid;
  user_id : string;
  status : OrderStatus;
  created_at : Z;
  updated_at : Z
}.
End Order.

(** A row of table [order_items]. *)
Module OrderItem.
Record t : Type := mk {
  id : uuid;
  order_id : uuid;
  sku : string;
  quantity : Z;
  created_at : Z
}.
End OrderItem.

(** [{ ...order, items }] *)
Module OrderWithItems.
Record t : Type := mk { order : Order.t; items : list OrderItem.t }.
End OrderWithItems.

Module Item.
Record t : Type := mk { sku : string; qty : Z }.
End Item.

(** The argument of [saveOrder]. *)
Module NewOrder.
Record t : Type := mk {
  id : uuid;
  userId : string;
  items : list Item.t;
  status : OrderStatus
}.
End NewOrder.

Record DB : Type := mkDB {
  orders : list Order.t;
  order_items : list OrderItem.t
}.

(** What one call takes from outside: the transaction's [CURRENT_TIMESTAMP]
    and the values [gen_random_uuid()] yields for the first, second, ... row
    of [order_items] the call inserts. *)
Record Env : Type := mkEnv {
  CURRENT_TIMESTAMP : Z;
  gen_random_uuid : nat -> uuid
}.

(** *** SQL statements *)

(** [INSERT INTO orders (id, user_id, status) VALUES ($1, $2, $3)
     RETURNING *]: both timestamps default to CURRENT_TIMESTAMP; the primary
    key must be new. *)
Definition insert_order (env : Env) (id : uuid) (user_id : string)
    (status : OrderStatus) : Tx.t DB Order.t :=
  fun db =>
    let row := Order.mk id user_id status (CURRENT_TIMESTAMP env) (CURRENT_TIMESTAMP env) in
    if existsb (fun o => String.eqb (Order.id o) id) (orders db)
    then Tx.Err (Tx.Db_error "orders_pkey")
    else Tx.Ok (row, mkDB (orders db ++ [row]) (order_items db)).

(** [INSERT INTO order_items (order_id, sku, quantity) VALUES ($1, $2, $3)
     RETURNING *]: [id] is the next random UUID, [created_at] defaults to
    CURRENT_TIMESTAMP.  The row must pass CHECK (quantity > 0), have a new
    primary key and reference an existing order. *)
Definition insert_order_item (env : Env) (k : nat) (order_id : uuid)
    (sku : string) (quantity : Z) : Tx.t DB OrderItem.t :=
  fun db =>
    let row := OrderItem.mk (gen_random_uuid env k) order_id sku quantity
                 (CURRENT_TIMESTAMP env) in
    if negb (0 <? quantity) then
      Tx.Err (Tx.Db_error "order_items_quantity_check")
    else if existsb (fun i => String.eqb (OrderItem.id i) (OrderItem.id row))
              (order_items db) then
      Tx.Err (Tx.Db_error "order_items_pkey")
    else if negb (existsb (fun o => String.eqb (Order.id o) order_id) (orders db)) then
      Tx.Err (Tx.Db_error "order_items_order_id_fkey")
    else
      Tx.Ok (row, mkDB (orders db) (order_items db ++ [row])).

(** [ORDER BY created_at]: the rows by rising [created_at].  Rows of equal
    [created_at], whose order SQL leaves open, stay in heap order. *)
Fixpoint insert_asc (i : OrderItem.t) (sorted : list OrderItem.t) : list OrderItem.t :=
  match sorted with
  | [] => [i]
  | j :: rest =>
      if OrderItem.created_at j <? OrderItem.created_at i
      then j :: insert_asc i rest
      else i :: j :: rest
  end.

Definition order_by_created_at (rows : list OrderItem.t) : list OrderItem.t :=
  fold_right insert_asc [] rows.

(** [SELECT * FROM order_items WHERE order_id = $1 ORDER BY created_at] *)
Definition select_items (db : DB) (id : uuid) : list OrderItem.t :=
  order_by_created_at
    (filter (fun i => String.eqb (OrderItem.order_id i) id) (order_items db)).

(** *** The exported functions of [db.ts] *)

(** [for (const item of order.items) { INSERT ...; orderItems.push(...) }] *)
Fixpoint items_loop (env : Env) (order_id : uuid) (items : list Item.t) (k : nat)
    (orderItems : list OrderItem.t) : Tx.t DB (list OrderItem.t) :=
  match items with
  | [] => Tx.ret orderItems
  | item :: rest =>
      row <- insert_order_item env k order_id (Item.sku item) (Item.qty item) ;;
      items_loop env order_id rest (S k) (orderItems ++ [row])
  end.

Definition saveOrder (env : Env) (db : DB) (order : NewOrder.t)
  : DB * Tx.result OrderWithItems.t :=
  Tx.transaction
    (savedOrder <- insert_order env (NewOrder.id order) (NewOrder.userId order)
                     (NewOrder.status order) ;;
     orderItems <- items_loop env (NewOrder.id order) (NewOrder.items order) 0 [] ;;
     Tx.ret (OrderWithItems.mk savedOrder orderItems))
    db.

Definition getOrder (db : DB) (id : uuid) : option OrderWithItems.t :=
  match filter (fun o => String.eqb (Order.id o) id) (orders db) with
  | [] => None
  | order :: _ => Some (OrderWithItems.mk order (select_items db id))
  end.

(** [UPDATE orders SET status = COALESCE($2, status), updated_at =
     CURRENT_TIMESTAMP WHERE id = $1 RETURNING *], then the items. *)
Definition updateOrder (env : Env) (db : DB) (id : uuid) (status : option OrderStatus)
  : DB * option OrderWithItems.t :=
  let hit o := String.eqb (Order.id o) id in
  let set o := Order.mk (Order.id o) (Order.user_id o)
                 (match status with Some s => s | None => Order.status o end)
                 (Order.created_at o) (CURRENT_TIMESTAMP env) in
  let db' := mkDB (map (fun o => if hit o then set o else o) (orders db))
               (order_items db) in
  match map set (filter hit (orders db)) with
  | [] => (db', None)
  | order :: _ => (db', Some (OrderWithItems.mk order (select_items db' id)))
  end.

(** *** Routes *)

Module CreateOrderRequest.
Record t : Type := mk { userId : string; items : option (list Item.t) }.
End CreateOrderRequest.

(** The order as the routes send it. *)
Module Response.
Record t : Type := mk {
  id : uuid;
  userId : string;
  items : list Item.t;
  status : OrderStatus;
  createdAt : Z;
  updatedAt : Z
}.
End Response.

(** [// Transform response to match API format] *)
Definition transform (order : OrderWithItems.t) : Response.t :=
  Response.mk (Order.id (OrderWithItems.order order))
    (Order.user_id (OrderWithItems.order order))
    (map (fun item => Item.mk (OrderItem.sku item) (OrderItem.quantity item))
         (OrderWithItems.items order))
    (Order.status (OrderWithItems.order order))
    (Order.created_at (OrderWithItems.order order))
    (Order.updated_at (OrderWithItems.order order)).

(** [POST /orders]; [uuid] is the value [uuid()] yields. *)
Definition post_orders (uuid : uuid) (env : Env) (db : DB)
    (body : CreateOrderRequest.t) : DB * Http.reply Response.t :=
  let userId := CreateOrderRequest.userId body in
  let items := match CreateOrderRequest.items body with
               | Some items => items
               | None => []
               end in
  if Js.not_string userId
  then (db, Http.send 400 (Http.ApiError "userId is required"))
  else if Nat.eqb (List.length items) 0
  then (db, Http.send 400 (Http.ApiError "At least one item is required"))
  else
    match saveOrder env db (NewOrder.mk uuid userId items PENDING) with
    | (db', Tx.Ok order) => (db', Http.send 201 (Http.Value (transform order)))
    | (db', Tx.Err _) => (db', Http.send 500 (Http.ApiError "Internal server error"))
    end.

(** [GET /orders/:id] *)
Definition get_orders_id (db : DB) (id : uuid) : DB * Http.reply Response.t :=
  match getOrder db id with
  | None => (db, Http.send 404 (Http.ApiError "Order not found"))
  | Some order => (db, Http.send 200 (Http.Value (transform order)))
  end.

(** [POST /orders/:id/confirm] *)
Definition post_orders_id_confirm (env : Env) (db : DB) (id : uuid)
  : DB * Http.reply Response.t :=
  match updateOrder env db id (Some CONFIRMED) with
  | (db', None) => (db', Http.send 404 (Http.ApiError "Order not found"))
  | (db', Some updated) => (db', Http.send 200 (Http.Value (transform updated)))
  end.

(** *** Vocabulary of the properties *)

(** What the schema guarantees of the stored rows: distinct primary keys,
    positive quantities, and items that reference existing orders. *)
Definition schema_ok (db : DB) : Prop :=
  NoDup (map Order.id (orders db)) /\
  NoDup (map OrderItem.id (order_items db)) /\
  Forall (fun i => 0 < OrderItem.quantity i) (order_items db) /\
  Forall (fun i => In (OrderItem.order_id i) (map Order.id (orders db)))
         (order_items db).

(** The rows a successful [saveOrder] writes. *)
Definition order_row (env : Env) (order : NewOrder.t) : Order.t :=
  Order.mk (NewOrder.id order) (NewOrder.userId order) (NewOrder.status order)
    (CURRENT_TIMESTAMP env) (CURRENT_TIMESTAMP env).

Fixpoint item_rows (env : Env) (order_id : uuid) (items : list Item.t) (k : nat)
  : list OrderItem.t :=
  match items with
  | [] => []
  | item :: rest =>
      OrderItem.mk (gen_random_uuid env k) order_id (Item.sku item) (Item.qty item)
        (CURRENT_TIMESTAMP env)
      :: item_rows env order_id rest (S k)
  end.

(** An order [saveOrder] can store: a new id, positive quantities, and item
    ids that are new and distinct. *)
Definition storable (env : Env) (db : DB) (order : NewOrder.t) : Prop :=
  let keys := map (gen_random_uuid env) (seq 0 (List.length (NewOrder.items order))) in
  ~ In (NewOrder.id order) (map Order.id (orders db)) /\
  Forall (fun item => 0 < Item.qty item) (NewOrder.items order) /\
  NoDup keys /\
  Forall (fun key => ~ In key (map OrderItem.id (order_items db))) keys.

End OrderService.

(** ** Sample requests to the routes *)

Module Scenario.

(** An English-speaking server, for instance. *)
Definition pg_message (c : string) : string :=
  ("violates constraint " ++ c)%string.

(** Order 2 asks for 30 x item-004, of which there are 25. *)
Definition reserve_too_many : Inventory.ReserveInventoryRequest.t :=
  Inventory.ReserveInventoryRequest.mk Sample.order2
    [ Inventory.RequestItem.mk "item-004" 30 ] None.

(** Order 2 asks for an item that is not in the catalogue. *)
Definition reserve_unknown : Inventory.ReserveInventoryRequest.t :=
  Inventory.ReserveInventoryRequest.mk Sample.order2
    [ Inventory.RequestItem.mk "item-001" 1; Inventory.RequestItem.mk "item-999" 1 ]
    None.

(** Order 2 pays 999 by PayPal, and the gateway accepts. *)
Definition pay_env : Checkout.Env :=
  Checkout.mkEnv "pay-5" "txn_3000_xyz" true 3000.

Definition pay_999 : Checkout.ProcessPaymentRequest.t :=
  Checkout.ProcessPaymentRequest.mk Sample.order2 999 "USD" "paypal".

(** The case mappings, on ASCII letters. *)
Definition upper_letter (c : Ascii.ascii) : Ascii.ascii :=
  let n := Ascii.nat_of_ascii c in
  if Nat.leb 97 n && Nat.leb n 122 then Ascii.ascii_of_nat (n - 32) else c.

Definition lower_letter (c : Ascii.ascii) : Ascii.ascii :=
  let n := Ascii.nat_of_ascii c in
  if Nat.leb 65 n && Nat.leb n 90 then Ascii.ascii_of_nat (n + 32) else c.

Fixpoint map_letters (f : Ascii.ascii -> Ascii.ascii) (s : string) : string :=
  match s with
  | EmptyString => EmptyString
  | String c rest => String (f c) (map_letters f rest)
  end.

Definition toUpperCase (s : string) : string := map_letters upper_letter s.
Definition toLowerCase (s : string) : string := map_letters lower_letter s.

(** The same payment, as a client may spell it. *)
Definition pay_mixed_case : Checkout.ProcessPaymentRequest.t :=
  Checkout.ProcessPaymentRequest.mk Sample.order2 999 "usd" "PayPal".

(** The orders and items [01-init-tables.sql] provisions, and a new order
    for two items. *)
Definition shop : OrderService.DB :=
  OrderService.mkDB
    [ OrderService.Order.mk Sample.order1 "user-123" OrderService.PENDING 0 0;
      OrderService.Order.mk Sample.order2 "user-456" OrderService.CONFIRMED 0 0 ]
    [ OrderService.OrderItem.mk "oi-1" Sample.order1 "item-001" 2 0;
      OrderService.OrderItem.mk "oi-2" Sample.order1 "item-002" 1 0;
      OrderService.OrderItem.mk "oi-3" Sample.order2 "item-003" 3 0 ].

Definition order3 : uuid := "550e8400-e29b-41d4-a716-446655440003".

Definition shop_env : OrderService.Env :=
  OrderService.mkEnv 5000 (fun k => match k with O => "oi-4" | _ => "oi-5" end).


Definition basket : list OrderService.Item.t :=
  [ OrderService.Item.mk "item-001" 1; OrderService.Item.mk "item-004" 2 ].

Definition new_order : OrderService.NewOrder.t :=
  OrderService.NewOrder.mk order3 "user-789" basket OrderService.PENDING.

End Scenario.


(** * Proof tools *)

(** Closing tactics for statements about concrete tables. *)
Ltac by_computation :=
  vm_compute; first [reflexivity | discriminate | (intro; discriminate)
                    | (intros; intuition (try reflexivity; try discriminate)) ].

Ltac each_row :=
  repeat (apply Forall_cons; [by_computation|]); apply Forall_nil.

Ltac distinct :=
  repeat (apply NoDup_cons; [simpl; intuition discriminate|]); apply NoDup_nil.

(** * Properties of the inventory service *)

Module InventoryTheory.
Import Inventory.


(** ** Statements of the transaction monad *)

Lemma transaction_ok {S A : Type} (body : Tx.t S A) (db db' : S) (a : A) :
  body db = Tx.Ok (a, db') -> Tx.transaction body db = (db', Tx.Ok a).
Proof. unfold Tx.transaction; intros ->; reflexivity. Qed.

Lemma transaction_err {S A : Type} (body : Tx.t S A) (db : S) (e : Tx.error) :
  body db = Tx.Err e -> Tx.transaction body db = (db, Tx.Err e).
Proof. unfold Tx.transaction; intros ->; reflexivity. Qed.

Lemma transaction_rollback {S A : Type} (body : Tx.t S A) (db db' : S) (e : Tx.error) :
  Tx.transaction body db = (db', Tx.Err e) -> db' = db.
Proof.
  unfold Tx.transaction; destruct (body db) as [[a s]|e']; congruence.
Qed.

Lemma transaction_commit {S A : Type} (body : Tx.t S A) (db db' : S) (a : A) :
  Tx.transaction body db = (db', Tx.Ok a) -> body db = Tx.Ok (a, db').
Proof.
  unfold Tx.transaction; destruct (body db) as [[a' s]|e']; congruence.
Qed.

(** ** checkAvailability *)

Lemma filter_sku_unique (inv : list InventoryItem.t) (it : InventoryItem.t) :
  NoDup (map InventoryItem.sku inv) -> In it inv ->
  filter (fun x => String.eqb (InventoryItem.sku x) (InventoryItem.sku it)) inv = [it].
Proof.
  induction inv as [|x inv IH]; simpl; intros Hnd Hin; [contradiction|].
  inversion Hnd as [|? ? Hx Hnd']; subst.
  destruct Hin as [->|Hin].
  - rewrite String.eqb_refl. f_equal.
    clear IH Hnd Hnd'. induction inv as [|y inv IH]; simpl; [reflexivity|].
    simpl in Hx.
    destruct (String.eqb_spec (InventoryItem.sku y) (InventoryItem.sku it)) as [E|E].
    + exfalso; apply Hx; left; exact E.
    + apply IH; intro H; apply Hx; right; exact H.
  - destruct (String.eqb_spec (InventoryItem.sku x) (InventoryItem.sku it)) as [E|E].
    + exfalso; apply Hx; rewrite E; apply in_map; exact Hin.
    + apply IH; assumption.
Qed.

Lemma filter_sku_unknown (inv : list InventoryItem.t) (sku : string) :
  ~ In sku (map InventoryItem.sku inv) ->
  filter (fun x => String.eqb (InventoryItem.sku x) sku) inv = [].
Proof.
  induction inv as [|x inv IH]; simpl; intros H; [reflexivity|].
  destruct (String.eqb_spec (InventoryItem.sku x) sku) as [E|E].
  - exfalso; apply H; left; exact E.
  - apply IH; intro; apply H; right; assumption.
Qed.

(** C9. [checkAvailability] leaves the tables as they are.  For a known SKU
    (the row of the table with that SKU, unique by the UNIQUE constraint) it
    returns [is_available = (available_quantity >= qty)] with the row's
    [available_quantity] and [price_cents]; for an unknown SKU it returns
    [is_available = false] and [available_quantity = 0], with no price, as an
    ordinary result. *)
Theorem checkAvailability_read_only (db : DB) (sku : string) (qty : Z) :
  fst (checkAvailability db sku qty) = db /\
  (NoDup (map InventoryItem.sku (inventory db)) ->
   forall it, In it (inventory db) -> InventoryItem.sku it = sku ->
     snd (checkAvailability db sku qty) =
       AvailabilityCheck.mk sku qty (InventoryItem.available_quantity it)
         (InventoryItem.available_quantity it >=? qty)
         (Some (InventoryItem.price_cents it))) /\
  (~ In sku (map InventoryItem.sku (inventory db)) ->
     snd (checkAvailability db sku qty) =
       AvailabilityCheck.mk sku qty 0 false None).
Proof.
  unfold checkAvailability. split; [|split].
  - destruct (filter _ (inventory db)); reflexivity.
  - intros Hnd it Hin <-. rewrite (filter_sku_unique _ it Hnd Hin). simpl.
    rewrite Z.geb_leb. reflexivity.
  - intros Hun. rewrite (filter_sku_unknown _ _ Hun). reflexivity.
Qed.

Lemma checkAvailability_witness :
  snd (checkAvailability Sample.provisioned "item-002" 50) =
    AvailabilityCheck.mk "item-002" 50 50 true (Some 1500) /\
  snd (checkAvailability Sample.provisioned "item-002" 51) =
    AvailabilityCheck.mk "item-002" 51 50 false (Some 1500) /\
  snd (checkAvailability Sample.provisioned "unknown-sku" 1) =
    AvailabilityCheck.mk "unknown-sku" 1 0 false None.
Proof.
  assert (Hnd : NoDup (map InventoryItem.sku (inventory Sample.provisioned)))
    by (simpl; distinct).
  assert (Hin : In Sample.item2 (inventory Sample.provisioned))
    by (simpl; tauto).
  split; [|split].
  - exact (proj1 (proj2 (checkAvailability_read_only Sample.provisioned "item-002" 50))
             Hnd Sample.item2 Hin eq_refl).
  - exact (proj1 (proj2 (checkAvailability_read_only Sample.provisioned "item-002" 51))
             Hnd Sample.item2 Hin eq_refl).
  - apply (proj2 (proj2 (checkAvailability_read_only Sample.provisioned "unknown-sku" 1))).
    simpl. intuition discriminate.
Defined.

(** ** The SQL statements *)

Lemma first_violation_none (rows : list InventoryItem.t) :
  first_violation rows = None <-> Forall (fun it => InventoryItem.check it = None) rows.
Proof.
  induction rows as [|it rows IH]; simpl.
  - split; auto.
  - destruct (InventoryItem.check it) eqn:E.
    + split; [discriminate|]. intros H; inversion H; congruence.
    + rewrite IH. split; [intros H; constructor; assumption|].
      intros H; inversion H; assumption.
Qed.

Lemma check_none (it : InventoryItem.t) :
  InventoryItem.check it = None <->
  0 <= InventoryItem.available_quantity it /\
  0 <= InventoryItem.price_cents it /\
  0 <= InventoryItem.reserved_quantity it.
Proof.
  unfold InventoryItem.check.
  destruct (Z.ltb_spec (InventoryItem.available_quantity it) 0);
  destruct (Z.ltb_spec (InventoryItem.price_cents it) 0);
  destruct (Z.ltb_spec (InventoryItem.reserved_quantity it) 0);
  split; intros H'; try discriminate; try reflexivity; lia.
Qed.

Lemma update_inventory_ok (set : InventoryItem.t -> InventoryItem.t)
    (sku : string) (db db' : DB) (u : unit) :
  update_inventory set sku db = Tx.Ok (u, db') ->
  Forall (fun it => String.eqb (InventoryItem.sku it) sku = true ->
                    InventoryItem.check (set it) = None) (inventory db) /\
  db' = mkDB (orders db)
          (map (fun it => if String.eqb (InventoryItem.sku it) sku then set it else it)
               (inventory db))
          (inventory_reservations db).
Proof.
  unfold update_inventory.
  destruct (first_violation _) eqn:E; [discriminate|].
  intros H; inversion H; subst; clear H. split; [|reflexivity].
  apply first_violation_none in E.
  rewrite Forall_forall in *. intros it Hin Hhit.
  apply E, in_map, filter_In. split; assumption.
Qed.

Lemma update_inventory_run (set : InventoryItem.t -> InventoryItem.t)
    (sku : string) (db : DB) :
  Forall (fun it => String.eqb (InventoryItem.sku it) sku = true ->
                    InventoryItem.check (set it) = None) (inventory db) ->
  update_inventory set sku db =
    Tx.Ok (tt, mkDB (orders db)
                 (map (fun it => if String.eqb (InventoryItem.sku it) sku then set it else it)
                      (inventory db))
                 (inventory_reservations db)).
Proof.
  intros H. unfold update_inventory.
  destruct (first_violation _) eqn:E; [|reflexivity].
  exfalso.
  assert (E' : first_violation
                 (map set (filter (fun it => String.eqb (InventoryItem.sku it) sku)
                                  (inventory db))) = None).
  { apply first_violation_none. rewrite Forall_forall in *.
    intros x Hx. apply in_map_iff in Hx as (it & <- & Hit).
    apply filter_In in Hit as [Hin Hhit]. apply H; assumption. }
  congruence.
Qed.

Lemma existsb_eqb_In (l : list string) (x : string) :
  existsb (fun o => String.eqb o x) l = true <-> In x l.
Proof.
  rewrite existsb_exists. split.
  - intros (y & Hy & E). apply String.eqb_eq in E. subst; assumption.
  - intros H. exists x. split; [assumption|apply String.eqb_refl].
Qed.

Lemma storable_checks (e : Z) :
  storable e <-> Date_valid e = true /\ timestamp_in_range e = true.
Proof.
  unfold storable, Date_valid, timestamp_in_range.
  rewrite Z.leb_le, Z.leb_le. lia.
Qed.

Lemma expiry_expires_at_of (env : Env) (request : ReserveInventoryRequest.t) :
  expires_at_of env request = expiry env request.
Proof.
  unfold expires_at_of, expiry, js_or.
  destruct (ReserveInventoryRequest.expiration_minutes request) as [m|];
    [destruct (m =? 0)|]; lia.
Qed.

Lemma insert_reservation_ok (env : Env) (k : nat) (o : uuid) (sku : string)
    (q e : Z) (db db' : DB) (row : InventoryReservation.t) :
  insert_reservation env k o sku q e db = Tx.Ok (row, db') ->
  row = InventoryReservation.mk (gen_random_uuid env k) o sku q RESERVED e
          (CURRENT_TIMESTAMP env) (CURRENT_TIMESTAMP env) /\
  db' = mkDB (orders db) (inventory db) (inventory_reservations db ++ [row]) /\
  0 < q /\ In o (orders db) /\
  ~ In (gen_random_uuid env k)
       (map InventoryReservation.id (inventory_reservations db)) /\
  storable e.
Proof.
  unfold insert_reservation.
  destruct (Date_valid e) eqn:Ed; simpl; [|discriminate].
  destruct (timestamp_in_range e) eqn:Et; simpl; [|discriminate].
  assert (He : storable e) by (apply storable_checks; split; assumption).
  destruct (Z.ltb_spec 0 q) as [Hq|Hq]; simpl; [|discriminate].
  destruct (existsb _ (inventory_reservations db)) eqn:Epk; [discriminate|].
  destruct (existsb (fun o' => String.eqb o' o) (orders db)) eqn:Efk;
    simpl; [|discriminate].
  destruct (existsb (fun it => String.eqb (InventoryItem.sku it) sku)
              (inventory db)) eqn:Esku; simpl; [|discriminate].
  intros H; inversion H; subst; clear H.
  repeat split; try assumption; try apply He.
  - apply existsb_eqb_In; assumption.
  - intros Hin. apply in_map_iff in Hin as (r & Hr & Hin).
    assert (existsb (fun r0 => String.eqb (InventoryReservation.id r0)
                                 (gen_random_uuid env k))
                    (inventory_reservations db) = true).
    { apply existsb_exists. exists r. split; [assumption|].
      rewrite Hr. apply String.eqb_refl. }
    simpl in Epk. congruence.
Qed.

Lemma insert_reservation_run (env : Env) (k : nat) (o : uuid) (sku : string)
    (q e : Z) (db : DB) :
  0 < q -> In o (orders db) ->
  ~ In (gen_random_uuid env k)
       (map InventoryReservation.id (inventory_reservations db)) ->
  In sku (map InventoryItem.sku (inventory db)) ->
  storable e ->
  let row := InventoryReservation.mk (gen_random_uuid env k) o sku q RESERVED e
               (CURRENT_TIMESTAMP env) (CURRENT_TIMESTAMP env) in
  insert_reservation env k o sku q e db =
    Tx.Ok (row, mkDB (orders db) (inventory db) (inventory_reservations db ++ [row])).
Proof.
  intros Hq Ho Hfresh Hsku He row. unfold insert_reservation.
  apply storable_checks in He as [-> ->]. simpl.
  destruct (Z.ltb_spec 0 q) as [_|Hq']; [simpl|lia].
  destruct (existsb _ (inventory_reservations db)) eqn:Epk.
  { exfalso. apply existsb_exists in Epk as (r & Hin & E).
    simpl in E. apply String.eqb_eq in E.
    apply Hfresh. rewrite <- E. apply in_map; assumption. }
  apply existsb_eqb_In in Ho. rewrite Ho. simpl.
  assert (Es : existsb (fun it => String.eqb (InventoryItem.sku it) sku)
                       (inventory db) = true).
  { apply in_map_iff in Hsku as (it & E & Hin).
    apply existsb_exists. exists it. split; [assumption|].
    rewrite E; apply String.eqb_refl. }
  rewrite Es. reflexivity.
Qed.

(** ** confirmReservation *)

(** C5. [confirmReservation] never fails; it leaves [orders] and [inventory]
    (hence every quantity) as they are; a reservation of the order whose
    status is RESERVED becomes CONFIRMED (its [updated_at] is refreshed, its
    other columns are kept) and every other reservation is left unchanged; when
    the order has no RESERVED reservation the tables are what they were. *)
Theorem confirmReservation_spec (env : Env) (db : DB) (orderId : uuid) :
  let db' := fst (confirmReservation env db orderId) in
  snd (confirmReservation env db orderId) = Tx.Ok tt /\
  orders db' = orders db /\
  inventory db' = inventory db /\
  Forall2 (fun r r' =>
             if String.eqb (InventoryReservation.order_id r) orderId &&
                status_eqb (InventoryReservation.status r) RESERVED
             then restated env CONFIRMED r r'
             else r' = r)
          (inventory_reservations db) (inventory_reservations db') /\
  (Forall (fun r => InventoryReservation.order_id r = orderId ->
                    InventoryReservation.status r <> RESERVED)
          (inventory_reservations db) ->
   db' = db).
Proof.
  simpl. repeat split.
  - induction (inventory_reservations db) as [|r rs IH]; simpl; constructor.
    + destruct (_ && _); [|reflexivity].
      unfold restated, set_status; simpl; repeat split; reflexivity.
    + exact IH.
  - intros H. destruct db as [os inv rs]. simpl in *. f_equal.
    induction rs as [|r rs IH]; simpl; [reflexivity|].
    inversion H as [|? ? Hr Hrs]; subst. rewrite (IH Hrs). f_equal.
    destruct (String.eqb_spec (InventoryReservation.order_id r) orderId) as [E|E];
      [|reflexivity].
    specialize (Hr E). destruct (InventoryReservation.status r); simpl;
      try reflexivity; congruence.
Qed.

Lemma confirmReservation_witness :
  fst (confirmReservation Sample.env2 Sample.provisioned Sample.order1)
  = Sample.provisioned /\
  snd (confirmReservation Sample.env2 Sample.reserved1 Sample.order1) = Tx.Ok tt.
Proof.
  split.
  - apply (proj2 (proj2 (proj2 (proj2
             (confirmReservation_spec Sample.env2 Sample.provisioned Sample.order1))))).
    simpl. apply Forall_nil.
  - apply (proj1 (confirmReservation_spec Sample.env2 Sample.reserved1 Sample.order1)).
Defined.

(** ** reserveInventory *)

Lemma step_item_sku (env : Env) (item : RequestItem.t) (it : InventoryItem.t) :
  InventoryItem.sku (step_item env item it) = InventoryItem.sku it.
Proof. unfold step_item. destruct (String.eqb _ _); reflexivity. Qed.

Lemma shift_cons (env : Env) (item : RequestItem.t) (rest : list RequestItem.t)
    (it : InventoryItem.t) :
  shift env (item :: rest) it = shift env rest (step_item env item it).
Proof. reflexivity. Qed.

Lemma requested_nonneg (items : list RequestItem.t) (sku : string) :
  Forall (fun item => 0 < RequestItem.quantity item) items ->
  0 <= requested items sku.
Proof.
  induction 1 as [|item rest Hq _ IH]; simpl; [lia|].
  destruct (String.eqb _ _); lia.
Qed.

Lemma shift_moved (env : Env) (items : list RequestItem.t) (it : InventoryItem.t) :
  moved env (requested items (InventoryItem.sku it))
    (existsb (fun item => String.eqb (RequestItem.sku item) (InventoryItem.sku it)) items)
    it (shift env items it).
Proof.
  revert it. induction items as [|item rest IH]; intros it.
  - unfold moved, shift; simpl. repeat split; lia.
  - rewrite shift_cons. specialize (IH (step_item env item it)).
    rewrite step_item_sku in IH.
    unfold moved in *. cbn [requested existsb].
    rewrite (String.eqb_sym (RequestItem.sku item) (InventoryItem.sku it)).
    destruct IH as (H1 & H2 & H3 & H4 & H5 & H6 & H7 & H8 & H9).
    rewrite H1, H2, H3, H4, H5, H6, H7, H8, H9.
    unfold step_item.
    destruct (String.eqb (InventoryItem.sku it) (RequestItem.sku item));
      cbn [debit InventoryItem.id InventoryItem.sku InventoryItem.name
           InventoryItem.description InventoryItem.price_cents
           InventoryItem.created_at InventoryItem.available_quantity
           InventoryItem.reserved_quantity InventoryItem.updated_at orb].
    + repeat split; try lia. destruct (existsb _ rest); reflexivity.
    + repeat split; lia.
Qed.

Lemma lookup_In (db : DB) (sku : string) (it : InventoryItem.t) :
  lookup db sku = Some it -> In it (inventory db) /\ InventoryItem.sku it = sku.
Proof.
  unfold lookup. intros H.
  destruct (filter _ (inventory db)) as [|x l] eqn:E; [discriminate|].
  simpl in H. inversion H; subst.
  assert (Hin : In it (filter (fun it0 => String.eqb (InventoryItem.sku it0) sku)
                         (inventory db))) by (rewrite E; left; reflexivity).
  apply filter_In in Hin as [Hin Hs]. apply String.eqb_eq in Hs. tauto.
Qed.

Lemma lookup_map (f : InventoryItem.t -> InventoryItem.t) (db : DB) (sku : string) :
  (forall it, InventoryItem.sku (f it) = InventoryItem.sku it) ->
  lookup (mkDB (orders db) (map f (inventory db)) (inventory_reservations db)) sku
  = option_map f (lookup db sku).
Proof.
  intros Hf. unfold lookup; simpl.
  induction (inventory db) as [|x l IH]; simpl; [reflexivity|].
  rewrite Hf. destruct (String.eqb (InventoryItem.sku x) sku); simpl; auto.
Qed.

Lemma lookup_reservations (os : list uuid) (inv : list InventoryItem.t)
    (rs rs' : list InventoryReservation.t) (sku : string) :
  lookup (mkDB os inv rs) sku = lookup (mkDB os inv rs') sku.
Proof. reflexivity. Qed.

(** One turn of the loop, statement by statement. *)
Lemma reserve_loop_cons (env : Env) (o : uuid) (e : Z) (item : RequestItem.t)
    (rest : list RequestItem.t) (k : nat) (acc : list InventoryReservation.t)
    (db : DB) :
  reserve_loop env o e (item :: rest) k acc db =
  match lookup db (RequestItem.sku item) with
  | None => Tx.Err (Tx.Item_not_found (RequestItem.sku item))
  | Some cur =>
      if InventoryItem.available_quantity cur <? RequestItem.quantity item
      then Tx.Err (Tx.Insufficient_stock (RequestItem.sku item)
                     (InventoryItem.available_quantity cur)
                     (RequestItem.quantity item))
      else
        match update_inventory (debit env (RequestItem.quantity item))
                (RequestItem.sku item) db with
        | Tx.Err err => Tx.Err err
        | Tx.Ok (_, db1) =>
            match insert_reservation env k o (RequestItem.sku item)
                    (RequestItem.quantity item) e db1 with
            | Tx.Err err => Tx.Err err
            | Tx.Ok (row, db2) =>
                reserve_loop env o e rest (S k) (acc ++ [row]) db2
            end
        end
  end.
Proof.
  simpl. unfold Tx.bind at 1. unfold select_inventory, lookup.
  destruct (filter _ (inventory db)) as [|cur l]; simpl; [reflexivity|].
  destruct (_ <? _); [reflexivity|].
  unfold Tx.bind.
  destruct (update_inventory _ _ db) as [[u db1]|err]; [|reflexivity].
  destruct (insert_reservation _ _ _ _ _ _ db1) as [[row db2]|err]; reflexivity.
Qed.

(** What a committed loop has done. *)
Lemma reserve_loop_ok (env : Env) (o : uuid) (e : Z) :
  forall (items : list RequestItem.t) (k : nat)
         (acc : list InventoryReservation.t) (db : DB)
         (rs : list InventoryReservation.t) (db' : DB),
  reserve_loop env o e items k acc db = Tx.Ok (rs, db') ->
  orders db' = orders db /\
  inventory db' = map (shift env items) (inventory db) /\
  Forall (fun item => 0 < RequestItem.quantity item) items /\
  exists new,
    rs = acc ++ new /\
    inventory_reservations db' = inventory_reservations db ++ new /\
    Forall2 (fun item r =>
               r = InventoryReservation.mk (InventoryReservation.id r) o
                     (RequestItem.sku item) (RequestItem.quantity item)
                     RESERVED e (CURRENT_TIMESTAMP env) (CURRENT_TIMESTAMP env))
            items new.
Proof.
  induction items as [|item rest IH]; intros k acc db rs db' H.
  - simpl in H. inversion H; subst. repeat split.
    + simpl. symmetry. apply map_id.
    + constructor.
    + exists []. rewrite !app_nil_r. repeat split. constructor.
  - rewrite reserve_loop_cons in H.
    destruct (lookup db _) as [cur|]; [|discriminate].
    destruct (_ <? _); [discriminate|].
    destruct (update_inventory _ _ db) as [[u db1]|err] eqn:Eu; [|discriminate].
    destruct (insert_reservation _ _ _ _ _ _ db1) as [[row db2]|err] eqn:Ei;
      [|discriminate].
    apply update_inventory_ok in Eu as [_ ->].
    apply insert_reservation_ok in Ei as (Hrow & -> & Hq & _ & _).
    apply IH in H as (Ho & Hinv & Hqs & new & Hrs & Hres & Hnew).
    simpl in *. repeat split.
    + exact Ho.
    + rewrite Hinv, map_map. reflexivity.
    + constructor; assumption.
    + exists (row :: new). rewrite Hrs, Hres, <- !app_assoc. simpl.
      repeat split. constructor; [|exact Hnew].
      rewrite Hrow. reflexivity.
Qed.

(** An item that cannot be served makes the loop throw, wherever it stands
    in the batch. *)
Lemma reserve_loop_rejected (env : Env) (o : uuid) (e : Z) :
  forall (items : list RequestItem.t) (k : nat)
         (acc : list InventoryReservation.t) (db : DB),
  Exists (rejected db) items ->
  exists err, reserve_loop env o e items k acc db = Tx.Err err.
Proof.
  induction items as [|item rest IH]; intros k acc db H.
  - inversion H.
  - rewrite reserve_loop_cons.
    destruct (lookup db (RequestItem.sku item)) as [cur|] eqn:El; [|eauto].
    destruct (Z.ltb_spec (InventoryItem.available_quantity cur)
                (RequestItem.quantity item)) as [Hlt|Hge]; [eauto|].
    destruct (update_inventory _ _ db) as [[u db1]|err] eqn:Eu; [|eauto].
    destruct (insert_reservation _ _ _ _ _ _ db1) as [[row db2]|err] eqn:Ei;
      [|eauto].
    apply update_inventory_ok in Eu as [_ ->].
    apply insert_reservation_ok in Ei as (_ & -> & Hq & _ & _).
    apply IH. simpl.
    inversion H as [? ? Hrej|? ? Hrej]; subst.
    + exfalso. unfold rejected in Hrej. rewrite El in Hrej. lia.
    + apply Exists_exists in Hrej as (bad & Hin & Hbad).
      apply Exists_exists. exists bad. split; [assumption|].
      unfold rejected in *.
      rewrite (lookup_reservations _ _ _ (inventory_reservations db)).
      change (map _ (inventory db)) with (map (step_item env item) (inventory db)).
      rewrite (lookup_map (step_item env item) db _ (step_item_sku env item)).
      destruct (lookup db (RequestItem.sku bad)) as [it|]; simpl; [|exact I].
      unfold step_item. destruct (String.eqb _ _); simpl; lia.
Qed.

(** A batch every item of which can be served commits. *)
Lemma reserve_loop_admissible (env : Env) (o : uuid) (e : Z) :
  forall (items : list RequestItem.t) (k : nat)
         (acc : list InventoryReservation.t) (db : DB),
  (items <> [] -> In o (orders db)) ->
  Forall (fun item => 0 < RequestItem.quantity item) items ->
  Forall (fun item => lookup db (RequestItem.sku item) <> None) items ->
  Forall (fun it => InventoryItem.check it = None) (inventory db) ->
  Forall (fun it => requested items (InventoryItem.sku it)
                    <= InventoryItem.available_quantity it) (inventory db) ->
  NoDup (map (gen_random_uuid env) (seq k (List.length items))) ->
  Forall (fun key => ~ In key (map InventoryReservation.id (inventory_reservations db)))
         (map (gen_random_uuid env) (seq k (List.length items))) ->
  (items <> [] -> storable e) ->
  exists rs db', reserve_loop env o e items k acc db = Tx.Ok (rs, db').
Proof.
  induction items as [|item rest IH];
    intros k acc db Ho Hq Hknown Hck Hreq Hnd Hnew He.
  - exists acc, db. reflexivity.
  - rewrite reserve_loop_cons.
    assert (Ho' : In o (orders db)) by (apply Ho; discriminate).
    assert (He' : storable e) by (apply He; discriminate).
    inversion Hq as [|? ? Hq0 Hqs]; subst.
    inversion Hknown as [|? ? Hk0 Hks]; subst.
    simpl in Hnd, Hnew.
    inversion Hnd as [|? ? Hk Hnd']; subst.
    inversion Hnew as [|? ? Hkey Hnew']; subst.
    pose proof (fun s => requested_nonneg rest s Hqs) as Hnn.
    destruct (lookup db (RequestItem.sku item)) as [cur|] eqn:El; [|congruence].
    apply lookup_In in El as [Hcur Hsku].
    rewrite Forall_forall in Hck, Hreq.
    assert (Hgo : forall it, In it (inventory db) ->
              String.eqb (InventoryItem.sku it) (RequestItem.sku item) = true ->
              RequestItem.quantity item + requested rest (InventoryItem.sku it)
              <= InventoryItem.available_quantity it).
    { intros it Hin Hs. specialize (Hreq it Hin). simpl in Hreq.
      rewrite String.eqb_sym, Hs in Hreq. exact Hreq. }
    destruct (Z.ltb_spec (InventoryItem.available_quantity cur)
                (RequestItem.quantity item)) as [Hlt|_].
    { exfalso. specialize (Hgo cur Hcur). rewrite Hsku, String.eqb_refl in Hgo.
      specialize (Hgo eq_refl). specialize (Hnn (RequestItem.sku item)). lia. }
    rewrite update_inventory_run.
    2:{ apply Forall_forall. intros it Hin Hs.
        apply check_none. pose proof (Hck it Hin) as Hc.
        apply check_none in Hc. specialize (Hgo it Hin Hs).
        specialize (Hnn (InventoryItem.sku it)). simpl. lia. }
    rewrite insert_reservation_run; simpl.
    + apply IH; simpl.
      * intros _. exact Ho'.
      * exact Hqs.
      * apply Forall_forall. intros x Hx.
        rewrite Forall_forall in Hks. specialize (Hks x Hx).
        change (map _ (inventory db)) with (map (step_item env item) (inventory db)).
        rewrite (lookup_reservations _ _ _ (inventory_reservations db)).
        rewrite (lookup_map (step_item env item) db _ (step_item_sku env item)).
        destruct (lookup db (RequestItem.sku x)); simpl; congruence.
      * apply Forall_forall. intros x Hx.
        apply in_map_iff in Hx as (it & <- & Hin).
        destruct (String.eqb _ _) eqn:Hs; [|apply Hck; exact Hin].
        apply check_none. pose proof (Hck it Hin) as Hc.
        apply check_none in Hc. specialize (Hgo it Hin Hs).
        specialize (Hnn (InventoryItem.sku it)). simpl. lia.
      * apply Forall_forall. intros x Hx.
        apply in_map_iff in Hx as (it & <- & Hin).
        destruct (String.eqb _ _) eqn:Hs; simpl.
        -- specialize (Hgo it Hin Hs). lia.
        -- specialize (Hreq it Hin). simpl in Hreq.
           rewrite String.eqb_sym, Hs in Hreq. lia.
      * exact Hnd'.
      * rewrite Forall_forall in *. intros key Hin.
        rewrite map_app. simpl. intros Hc. apply in_app_or in Hc as [Hc|[Hc|[]]].
        -- exact (Hnew' key Hin Hc).
        -- apply Hk. rewrite Hc. exact Hin.
      * intros _. exact He'.
    + exact Hq0.
    + exact Ho'.
    + exact Hkey.
    + rewrite map_map. apply in_map_iff. exists cur. split; [|exact Hcur].
      rewrite <- Hsku. destruct (String.eqb _ _); reflexivity.
    + exact He'.
Qed.

(** A committed loop leaves rows that satisfy the CHECK constraints. *)
Lemma reserve_loop_check (env : Env) (o : uuid) (e : Z) :
  forall (items : list RequestItem.t) (k : nat)
         (acc : list InventoryReservation.t) (db : DB)
         (rs : list InventoryReservation.t) (db' : DB),
  reserve_loop env o e items k acc db = Tx.Ok (rs, db') ->
  Forall (fun it => InventoryItem.check it = None) (inventory db) ->
  Forall (fun it => InventoryItem.check it = None) (inventory db').
Proof.
  induction items as [|item rest IH]; intros k acc db rs db' H Hall.
  - simpl in H. inversion H; subst. exact Hall.
  - rewrite reserve_loop_cons in H.
    destruct (lookup db _) as [cur|]; [|discriminate].
    destruct (_ <? _); [discriminate|].
    destruct (update_inventory _ _ db) as [[u db1]|err] eqn:Eu; [|discriminate].
    destruct (insert_reservation _ _ _ _ _ _ db1) as [[row db2]|err] eqn:Ei;
      [|discriminate].
    apply update_inventory_ok in Eu as [Hck ->].
    apply insert_reservation_ok in Ei as (_ & -> & _).
    apply IH in H; [exact H|]. simpl.
    rewrite Forall_forall in *. intros x Hx.
    apply in_map_iff in Hx as (it & <- & Hin).
    destruct (String.eqb _ _) eqn:E; [apply Hck|apply Hall]; assumption.
Qed.

(** A batch that commits was one every item of which could be served. *)
Lemma reserve_loop_served (env : Env) (o : uuid) (e : Z) :
  forall (items : list RequestItem.t) (k : nat)
         (acc : list InventoryReservation.t) (db : DB)
         (rs : list InventoryReservation.t) (db' : DB),
  reserve_loop env o e items k acc db = Tx.Ok (rs, db') ->
  (items <> [] -> In o (orders db)) /\
  Forall (fun item => lookup db (RequestItem.sku item) <> None) items /\
  NoDup (map (gen_random_uuid env) (seq k (List.length items))) /\
  Forall (fun key => ~ In key (map InventoryReservation.id (inventory_reservations db)))
         (map (gen_random_uuid env) (seq k (List.length items))) /\
  (items <> [] -> storable e).
Proof.
  induction items as [|item rest IH]; intros k acc db rs db' H.
  - split; [|split; [|split; [|split]]]; try constructor;
      intros Hne; contradiction.
  - rewrite reserve_loop_cons in H.
    destruct (lookup db (RequestItem.sku item)) as [cur|] eqn:El; [|discriminate].
    destruct (_ <? _); [discriminate|].
    destruct (update_inventory _ _ db) as [[u db1]|err] eqn:Eu; [|discriminate].
    destruct (insert_reservation _ _ _ _ _ _ db1) as [[row db2]|err] eqn:Ei;
      [|discriminate].
    apply update_inventory_ok in Eu as [_ ->].
    apply insert_reservation_ok in Ei as (Hrow & -> & _ & Ho & Hkey & He).
    apply IH in H as (_ & Hknown & Hnd & Hnew & _). simpl in *.
    rewrite map_app in Hnew. rewrite Forall_forall in Hnew.
    split; [|split; [|split; [|split]]]; [| | | |intros _; exact He].
    + intros _. exact Ho.
    + constructor; [congruence|].
      rewrite Forall_forall in *. intros x Hx. specialize (Hknown x Hx).
      change (map _ (inventory db)) with (map (step_item env item) (inventory db))
        in Hknown.
      rewrite (lookup_reservations _ _ _ (inventory_reservations db)) in Hknown.
      rewrite (lookup_map (step_item env item) db _ (step_item_sku env item)) in Hknown.
      destruct (lookup db (RequestItem.sku x)); [discriminate|].
      exact Hknown.
    + constructor; [|exact Hnd].
      intros Hin. apply (Hnew _ Hin). apply in_or_app. right.
      rewrite Hrow. simpl. left. reflexivity.
    + constructor; [exact Hkey|].
      apply Forall_forall. intros key Hin Hc.
      apply (Hnew _ Hin). apply in_or_app. left. exact Hc.
Qed.

(** C1. [reserveInventory] is all-or-nothing.
    - If some item of the batch has an unknown SKU or asks for more than
      that SKU's [available_quantity], the call fails and the tables are
      exactly what they were.
    - Whatever makes the call fail, the tables are exactly what they were.
    - If the call succeeds, every row of [inventory] has the quantity the
      batch requests of its SKU moved from [available_quantity] to
      [reserved_quantity], and one RESERVED row per item, in the batch's
      order, has been appended to [inventory_reservations] and is returned.
    - On rows that satisfy the schema's constraints the call succeeds
      exactly when no item can fail: the order exists, the quantities are
      positive, the SKUs are known, no SKU is requested beyond what is
      available over the whole batch, the generated keys are new, and the
      expiry (the minutes given, or 30, after [Date.now()]) is an instant
      that a [Date] and the column can hold. *)
Theorem reserveInventory_all_or_nothing
    (env : Env) (db : DB) (request : ReserveInventoryRequest.t) :
  let items := ReserveInventoryRequest.items request in
  let out := reserveInventory env db request in
  (Exists (rejected db) items -> exists err, out = (db, Tx.Err err)) /\
  (forall err db', out = (db', Tx.Err err) -> db' = db) /\
  (forall rs db', out = (db', Tx.Ok rs) ->
     orders db' = orders db /\
     Forall2 (fun it it' =>
                moved env (requested items (InventoryItem.sku it))
                  (existsb (fun item => String.eqb (RequestItem.sku item)
                                          (InventoryItem.sku it)) items)
                  it it')
             (inventory db) (inventory db') /\
     inventory_reservations db' = inventory_reservations db ++ rs /\
     Forall2 (reservation_for env request) items rs) /\
  (schema_ok db ->
     ((exists rs db', out = (db', Tx.Ok rs)) <-> admissible env db request)).
Proof.
  intros items out. subst out. unfold reserveInventory. fold items.
  split; [|split; [|split]].
  - intros Hrej.
    destruct (reserve_loop_rejected env (ReserveInventoryRequest.order_id request)
                (expires_at_of env request) items 0%nat [] db Hrej) as [err Herr].
    exists err. apply transaction_err; exact Herr.
  - intros err db' H. eapply transaction_rollback; exact H.
  - intros rs db' H. apply transaction_commit in H.
    apply reserve_loop_ok in H as (Ho & Hinv & _ & new & Hrs & Hres & Hnew).
    simpl in Hrs. subst rs. repeat split; try assumption.
    + rewrite Hinv. clear. induction (inventory db) as [|it inv IH]; simpl;
        constructor; [apply shift_moved|exact IH].
    + clear - Hnew. induction Hnew as [|item r items' new' Hr _ IH];
        constructor; [|exact IH].
      unfold reservation_for. rewrite Hr. simpl. repeat split; reflexivity.
  - intros [Hck _]. split.
    + intros (rs & db' & H). apply transaction_commit in H.
      pose proof (reserve_loop_check _ _ _ _ _ _ _ _ _ H Hck) as Hck'.
      pose proof (reserve_loop_served _ _ _ _ _ _ _ _ _ H)
        as (Ho & Hknown & Hnd & Hnew & He).
      apply reserve_loop_ok in H as (_ & Hinv & Hq & _).
      unfold admissible. fold items. rewrite <- expiry_expires_at_of.
      split; [|split; [|split; [|split; [|split; [|split]]]]]; try assumption.
      rewrite Hinv in Hck'. rewrite Forall_forall in *.
      intros it Hin. specialize (Hck' _ (in_map _ _ _ Hin)).
      apply check_none in Hck'.
      destruct (shift_moved env items it) as (_ & _ & _ & _ & _ & _ & Ha & _).
      lia.
    + intros (Ho & Hq & Hknown & Hreq & Hnd & Hnew & He).
      rewrite <- expiry_expires_at_of in He.
      destruct (reserve_loop_admissible env (ReserveInventoryRequest.order_id request)
                  (expires_at_of env request) items 0%nat [] db
                  Ho Hq Hknown Hck Hreq Hnd Hnew He) as (rs & db' & H).
      exists rs, db'. apply transaction_ok; exact H.
Qed.

Lemma reserveInventory_witness :
  (exists rs db',
     reserveInventory Sample.env1 Sample.provisioned Sample.reserve1 = (db', Tx.Ok rs)) /\
  (exists err,
     reserveInventory Sample.env2 Sample.reserved1 Sample.reserve2
       = (Sample.reserved1, Tx.Err err)).
Proof.
  split.
  - apply (proj2 (proj2 (proj2
             (reserveInventory_all_or_nothing Sample.env1 Sample.provisioned
                Sample.reserve1)))).
    + split; simpl; each_row.
    + repeat split; simpl.
      * intros _. tauto.
      * each_row.
      * each_row.
      * each_row.
      * distinct.
      * each_row.
      * vm_compute. discriminate.
      * vm_compute. discriminate.
  - apply (proj1 (reserveInventory_all_or_nothing Sample.env2 Sample.reserved1
                    Sample.reserve2)).
    apply Exists_cons_hd. by_computation.
Defined.

(** The scenario of the provisioned stock (100, 50): order 1 reserves
    2 x item-001 and 1 x item-002; order 2 then asks for 99 x item-001 and is
    refused; order 1's release puts the stock back. *)
Example reserve_scenario :
  map (fun it => (InventoryItem.available_quantity it,
                  InventoryItem.reserved_quantity it))
      (inventory Sample.reserved1)
  = [(98, 2); (49, 1); (200, 0); (25, 0)] /\
  map (fun r => (InventoryReservation.sku r, InventoryReservation.quantity r,
                 InventoryReservation.status r))
      (inventory_reservations Sample.reserved1)
  = [("item-001", 2, RESERVED); ("item-002", 1, RESERVED)] /\
  reserveInventory Sample.env2 Sample.reserved1 Sample.reserve2
  = (Sample.reserved1, Tx.Err (Tx.Insufficient_stock "item-001" 98 99)).
Proof. repeat split; reflexivity. Qed.

Example release_scenario :
  let released := fst (releaseReservation Sample.env3 Sample.reserved1 Sample.release1) in
  map (fun it => (InventoryItem.available_quantity it,
                  InventoryItem.reserved_quantity it))
      (inventory released)
  = [(100, 0); (50, 0); (200, 0); (25, 0)] /\
  map InventoryReservation.status (inventory_reservations released)
  = [RELEASED; RELEASED].
Proof. split; reflexivity. Qed.

(** A batch that names a SKU twice is served from the running stock. *)
Example repeated_sku :
  snd (reserveInventory Sample.env1 Sample.provisioned
         (ReserveInventoryRequest.mk Sample.order1
            [RequestItem.mk "item-004" 20; RequestItem.mk "item-004" 20] None))
  = Tx.Err (Tx.Insufficient_stock "item-004" 5 20).
Proof. reflexivity. Qed.

(** An expiry that cannot be stored fails the first INSERT, whatever the
    stock: 2e11 minutes from now no [Date] can hold, and 1e10 minutes ago
    lies before the first day of the column. *)
Example expiry_scenario :
  reserveInventory Sample.env1 Sample.provisioned
    (ReserveInventoryRequest.mk Sample.order1 [RequestItem.mk "item-001" 2]
       (Some 200000000000))
  = (Sample.provisioned, Tx.Err (Tx.Db_error "invalid_datetime_format")) /\
  reserveInventory Sample.env1 Sample.provisioned
    (ReserveInventoryRequest.mk Sample.order1 [RequestItem.mk "item-001" 2]
       (Some (-10000000000)))
  = (Sample.provisioned, Tx.Err (Tx.Db_error "datetime_field_overflow")).
Proof. split; reflexivity. Qed.

(** ** releaseReservation *)

Lemma step_row_sku (env : Env) (r : InventoryReservation.t) (it : InventoryItem.t) :
  InventoryItem.sku (step_row env r it) = InventoryItem.sku it.
Proof. unfold step_row. destruct (String.eqb _ _); reflexivity. Qed.

Lemma unshift_cons (env : Env) (r : InventoryReservation.t)
    (rest : list InventoryReservation.t) (it : InventoryItem.t) :
  unshift env (r :: rest) it = unshift env rest (step_row env r it).
Proof. reflexivity. Qed.

Lemma unshift_moved (env : Env) (rows : list InventoryReservation.t)
    (it : InventoryItem.t) :
  moved env (- held any rows (InventoryItem.sku it))
    (existsb (fun r => String.eqb (InventoryReservation.sku r) (InventoryItem.sku it)) rows)
    it (unshift env rows it).
Proof.
  revert it. induction rows as [|r rest IH]; intros it.
  - unfold moved, unshift; simpl. repeat split; lia.
  - rewrite unshift_cons. specialize (IH (step_row env r it)).
    rewrite step_row_sku in IH.
    unfold moved in *. cbn [held existsb any andb].
    rewrite (String.eqb_sym (InventoryReservation.sku r) (InventoryItem.sku it)).
    destruct IH as (H1 & H2 & H3 & H4 & H5 & H6 & H7 & H8 & H9).
    rewrite H1, H2, H3, H4, H5, H6, H7, H8, H9.
    unfold step_row.
    destruct (String.eqb (InventoryItem.sku it) (InventoryReservation.sku r));
      cbn [credit InventoryItem.id InventoryItem.sku InventoryItem.name
           InventoryItem.description InventoryItem.price_cents
           InventoryItem.created_at InventoryItem.available_quantity
           InventoryItem.reserved_quantity InventoryItem.updated_at orb].
    + repeat split; try lia. destruct (existsb _ rest); reflexivity.
    + repeat split; lia.
Qed.

Lemma moved_credited (env : Env) (d : Z) (b : bool) (it it' : InventoryItem.t) :
  moved env (- d) b it it' -> credited env d b it it'.
Proof.
  unfold moved, credited. intros (H1 & H2 & H3 & H4 & H5 & H6 & H7 & H8 & H9).
  repeat split; try assumption; lia.
Qed.

Lemma held_filter (p : InventoryReservation.t -> bool)
    (rows : list InventoryReservation.t) (sku : string) :
  held any (filter p rows) sku = held p rows sku.
Proof.
  induction rows as [|r rest IH]; simpl; [reflexivity|].
  destruct (p r); simpl; rewrite IH; reflexivity.
Qed.

Lemma existsb_filter (p q : InventoryReservation.t -> bool)
    (rows : list InventoryReservation.t) :
  existsb q (filter p rows) = existsb (fun r => p r && q r) rows.
Proof.
  induction rows as [|r rest IH]; simpl; [reflexivity|].
  destruct (p r); simpl; rewrite IH; reflexivity.
Qed.

Lemma held_nonneg (p : InventoryReservation.t -> bool)
    (rows : list InventoryReservation.t) (sku : string) :
  Forall (fun r => 0 < InventoryReservation.quantity r) rows ->
  0 <= held p rows sku.
Proof.
  induction 1 as [|r rest Hq _ IH]; simpl; [lia|].
  destruct (_ && _); lia.
Qed.

Lemma held_le (p q : InventoryReservation.t -> bool)
    (rows : list InventoryReservation.t) (sku : string) :
  (forall r, p r = true -> q r = true) ->
  Forall (fun r => 0 < InventoryReservation.quantity r) rows ->
  held p rows sku <= held q rows sku.
Proof.
  intros Hpq. induction 1 as [|r rest Hq _ IH]; simpl; [lia|].
  destruct (p r) eqn:Ep; simpl.
  - rewrite (Hpq r Ep). simpl. lia.
  - destruct (q r && _); lia.
Qed.

Lemma active_live (o : uuid) (r : InventoryReservation.t) :
  active o r = true -> live r = true.
Proof. unfold active, live. intros H. apply andb_prop in H. tauto. Qed.

(** What a completed release loop has done. *)
Lemma release_loop_ok (env : Env) :
  forall (rows : list InventoryReservation.t) (db db' : DB) (u : unit),
  release_loop env rows db = Tx.Ok (u, db') ->
  db' = mkDB (orders db) (map (unshift env rows) (inventory db))
          (inventory_reservations db) /\
  (Forall (fun it => InventoryItem.check it = None) (inventory db) ->
   Forall (fun it => InventoryItem.check it = None) (inventory db')).
Proof.
  induction rows as [|r rest IH]; intros db db' u H.
  - simpl in H. inversion H; subst. split; [|auto].
    destruct db'; simpl. f_equal. symmetry. apply map_id.
  - simpl in H. unfold Tx.bind in H.
    destruct (update_inventory _ _ db) as [[u1 db1]|err] eqn:Eu; [|discriminate].
    apply update_inventory_ok in Eu as [Hck ->].
    apply IH in H as [-> Hck']. simpl. split.
    + rewrite map_map. reflexivity.
    + intros Hall. apply Hck'. simpl.
      rewrite Forall_forall in *. intros x Hx.
      apply in_map_iff in Hx as (it & <- & Hin).
      destruct (String.eqb _ _) eqn:E; [apply Hck|apply Hall]; assumption.
Qed.

(** The release loop runs through when every row it credits is backed. *)
Lemma release_loop_run (env : Env) :
  forall (rows : list InventoryReservation.t) (db : DB),
  Forall (fun r => 0 < InventoryReservation.quantity r) rows ->
  Forall (fun it => InventoryItem.check it = None) (inventory db) ->
  Forall (fun it => held any rows (InventoryItem.sku it)
                    <= InventoryItem.reserved_quantity it) (inventory db) ->
  release_loop env rows db =
    Tx.Ok (tt, mkDB (orders db) (map (unshift env rows) (inventory db))
                 (inventory_reservations db)).
Proof.
  induction rows as [|r rest IH]; intros db Hq Hck Hb.
  - simpl. unfold Tx.ret. destruct db; simpl. rewrite map_id. reflexivity.
  - inversion Hq as [|? ? Hq0 Hqs]; subst.
    pose proof (fun s => held_nonneg any rest s Hqs) as Hnn.
    rewrite Forall_forall in Hck, Hb.
    assert (Hgo : forall it, In it (inventory db) ->
              String.eqb (InventoryItem.sku it) (InventoryReservation.sku r) = true ->
              InventoryReservation.quantity r + held any rest (InventoryItem.sku it)
              <= InventoryItem.reserved_quantity it).
    { intros it Hin Hs. specialize (Hb it Hin). simpl in Hb.
      rewrite String.eqb_sym, Hs in Hb. exact Hb. }
    simpl. unfold Tx.bind. rewrite update_inventory_run.
    2:{ apply Forall_forall. intros it Hin Hs.
        apply check_none. pose proof (Hck it Hin) as Hc.
        apply check_none in Hc. specialize (Hgo it Hin Hs).
        specialize (Hnn (InventoryItem.sku it)). simpl. lia. }
    rewrite IH; simpl.
    + rewrite map_map. reflexivity.
    + exact Hqs.
    + apply Forall_forall. intros x Hx.
      apply in_map_iff in Hx as (it & <- & Hin).
      destruct (String.eqb _ _) eqn:Hs; [|apply Hck; exact Hin].
      apply check_none. pose proof (Hck it Hin) as Hc.
      apply check_none in Hc. specialize (Hgo it Hin Hs).
      specialize (Hnn (InventoryItem.sku it)). simpl. lia.
    + apply Forall_forall. intros x Hx.
      apply in_map_iff in Hx as (it & <- & Hin).
      destruct (String.eqb _ _) eqn:Hs; simpl.
      * specialize (Hgo it Hin Hs). lia.
      * specialize (Hb it Hin). simpl in Hb.
        rewrite String.eqb_sym, Hs in Hb. lia.
Qed.

(** The two statements around the loop. *)
Lemma releaseReservation_body (env : Env) (db : DB)
    (request : ReleaseInventoryRequest.t) :
  let o := ReleaseInventoryRequest.order_id request in
  releaseReservation env db request =
  match release_loop env (filter (active o) (inventory_reservations db)) db with
  | Tx.Ok (_, db1) =>
      (mkDB (orders db1) (inventory db1)
         (map (fun r => if active o r then set_status env RELEASED r else r)
              (inventory_reservations db1)),
       Tx.Ok tt)
  | Tx.Err err => (db, Tx.Err err)
  end.
Proof.
  simpl. unfold releaseReservation, Tx.transaction, Tx.bind,
    select_active_reservations, update_reservations.
  destruct (release_loop _ _ db) as [[u db1]|err]; reflexivity.
Qed.

Lemma released_inactive (env : Env) (o : uuid)
    (rows : list InventoryReservation.t) :
  Forall (fun r => active o r = false)
    (map (fun r => if active o r then set_status env RELEASED r else r) rows).
Proof.
  apply Forall_forall. intros x Hx. apply in_map_iff in Hx as (r & <- & _).
  destruct (active o r) eqn:E; [|exact E].
  unfold active, set_status; simpl. apply andb_false_r.
Qed.

Lemma releaseReservation_noop (env : Env) (db : DB)
    (request : ReleaseInventoryRequest.t) :
  Forall (fun r => active (ReleaseInventoryRequest.order_id request) r = false)
    (inventory_reservations db) ->
  releaseReservation env db request = (db, Tx.Ok tt).
Proof.
  intros H. rewrite releaseReservation_body.
  assert (E : filter (active (ReleaseInventoryRequest.order_id request))
                (inventory_reservations db) = []).
  { induction H as [|r rs Hr _ IH]; simpl; [reflexivity|]. rewrite Hr. exact IH. }
  rewrite E. simpl. destruct db as [os inv rs]; simpl in *. do 2 f_equal.
  clear E. induction H as [|r rs Hr _ IH]; simpl; [reflexivity|].
  rewrite Hr, IH. reflexivity.
Qed.

(** What [releaseReservation] does, in terms of the rows its SELECT
    returns. *)
Lemma releaseReservation_by_filter (env : Env) (db : DB)
    (request : ReleaseInventoryRequest.t) :
  let o := ReleaseInventoryRequest.order_id request in
  let out := releaseReservation env db request in
  (consistent db ->
     snd out = Tx.Ok tt /\
     orders (fst out) = orders db /\
     Forall2 (fun it it' =>
                credited env
                  (held (active o) (inventory_reservations db) (InventoryItem.sku it))
                  (existsb (fun r => active o r &&
                                     String.eqb (InventoryReservation.sku r)
                                       (InventoryItem.sku it))
                           (inventory_reservations db))
                  it it')
             (inventory db) (inventory (fst out)) /\
     Forall2 (fun r r' => if active o r then restated env RELEASED r r' else r' = r)
             (inventory_reservations db) (inventory_reservations (fst out))) /\
  (forall env2, snd out = Tx.Ok tt ->
     releaseReservation env2 (fst out) request = (fst out, Tx.Ok tt)) /\
  (Forall (fun r => active o r = false) (inventory_reservations db) ->
     out = (db, Tx.Ok tt)).
Proof.
  intros o out. subst out. split; [|split].
  - intros [[Hck Hq] Hb]. rewrite releaseReservation_body. fold o.
    assert (Hqf : Forall (fun r => 0 < InventoryReservation.quantity r)
                    (filter (active o) (inventory_reservations db))).
    { rewrite Forall_forall in *. intros r Hr. apply filter_In in Hr as [Hr _].
      apply Hq; exact Hr. }
    rewrite release_loop_run; try assumption.
    + simpl. repeat split.
      * clear. induction (inventory db) as [|it inv IH]; simpl; constructor;
          [|exact IH].
        rewrite <- held_filter, <- existsb_filter. apply moved_credited, unshift_moved.
      * clear. induction (inventory_reservations db) as [|r rs IH]; simpl;
          constructor; [|exact IH].
        destruct (active o r); [|reflexivity].
        unfold restated, set_status; simpl; repeat split; reflexivity.
    + unfold backed in Hb. rewrite Forall_forall in *. intros it Hin.
      rewrite held_filter.
      pose proof (held_le (active o) live (inventory_reservations db)
                    (InventoryItem.sku it) (active_live o)) as Hle.
      rewrite <- Forall_forall in Hq. specialize (Hle Hq).
      specialize (Hb it Hin). simpl in Hb. lia.
  - intros env2 Hok. apply releaseReservation_noop.
    rewrite releaseReservation_body in *. fold o in Hok |- *.
    destruct (release_loop _ _ db) as [[u db1]|err] eqn:E; [|discriminate].
    simpl. apply released_inactive.
  - intros H. apply releaseReservation_noop; exact H.
Qed.

Lemma active_cases (o : uuid) (r : InventoryReservation.t) :
  active o r =
  String.eqb (InventoryReservation.order_id r) o &&
  match InventoryReservation.status r with
  | RESERVED | CONFIRMED => true
  | RELEASED | EXPIRED => false
  end.
Proof.
  unfold active. destruct (InventoryReservation.status r); reflexivity.
Qed.

Lemma held_ext (p q : InventoryReservation.t -> bool)
    (rows : list InventoryReservation.t) (sku : string) :
  (forall r, p r = q r) -> held p rows sku = held q rows sku.
Proof.
  intros E. induction rows as [|r rows IH]; simpl; [reflexivity|].
  rewrite E, IH. reflexivity.
Qed.

Lemma existsb_same {A : Type} (p q : A -> bool) (l : list A) :
  (forall a, p a = q a) -> existsb p l = existsb q l.
Proof.
  intros E. induction l as [|a l IH]; simpl; [reflexivity|].
  rewrite E, IH. reflexivity.
Qed.

Lemma Forall2_map_eq {A B C : Type} (P : A -> B -> Prop) (f : B -> C)
    (g : A -> C) (l : list A) (l' : list B) :
  (forall a b, P a b -> f b = g a) -> Forall2 P l l' -> map f l' = map g l.
Proof.
  intros E H. induction H as [|a b l l' Hab _ IH]; simpl; [reflexivity|].
  rewrite (E a b Hab), IH. reflexivity.
Qed.

(** C4. [releaseReservation] on tables that satisfy the schema's constraints
    and in which live reservations are backed by reserved stock:
    - it succeeds; every [inventory] row gets the quantity held by the
      reservations of the order whose status is RESERVED or CONFIRMED, for
      its SKU, added to [available_quantity] and taken from
      [reserved_quantity]; each of those reservations becomes RELEASED and
      every other reservation, of this or another order, is kept as it is;
    - a second release of the same order after a successful one succeeds
      and changes nothing, so each quantity is credited exactly once;
    - for an order none of whose reservations is RESERVED or CONFIRMED it
      succeeds and changes nothing (on any tables). *)
Theorem releaseReservation_spec (env : Env) (db : DB)
    (request : ReleaseInventoryRequest.t) :
  let o := ReleaseInventoryRequest.order_id request in
  let out := releaseReservation env db request in
  let mine := fun r : InventoryReservation.t =>
                String.eqb (InventoryReservation.order_id r) o &&
                match InventoryReservation.status r with
                | RESERVED | CONFIRMED => true
                | RELEASED | EXPIRED => false
                end in
  (consistent db ->
     snd out = Tx.Ok tt /\
     orders (fst out) = orders db /\
     Forall2 (fun it it' =>
                credited env
                  (held mine (inventory_reservations db) (InventoryItem.sku it))
                  (existsb (fun r => mine r &&
                                     String.eqb (InventoryReservation.sku r)
                                       (InventoryItem.sku it))
                           (inventory_reservations db))
                  it it')
             (inventory db) (inventory (fst out)) /\
     Forall2 (fun r r' => if mine r then restated env RELEASED r r' else r' = r)
             (inventory_reservations db) (inventory_reservations (fst out))) /\
  (forall env2, snd out = Tx.Ok tt ->
     releaseReservation env2 (fst out) request = (fst out, Tx.Ok tt)) /\
  (Forall (fun r => InventoryReservation.order_id r = o ->
                    InventoryReservation.status r <> RESERVED /\
                    InventoryReservation.status r <> CONFIRMED)
          (inventory_reservations db) ->
     out = (db, Tx.Ok tt)).
Proof.
  intros o out mine. subst out.
  assert (Em : forall r, mine r = active o r).
  { intro r. subst mine. cbv beta. rewrite active_cases. reflexivity. }
  pose proof (releaseReservation_by_filter env db request) as H.
  cbv zeta in H. fold o in H. destruct H as (H1 & H2 & H3).
  split; [|split].
  - intros Hc. destruct (H1 Hc) as (Hok & Ho & Hinv & Hres).
    split; [exact Hok|]. split; [exact Ho|]. split.
    + eapply Forall2_impl; [|exact Hinv]. intros it it' Hcr. cbv beta in Hcr |- *.
      rewrite (held_ext mine (active o)) by exact Em.
      rewrite (existsb_same
                 (fun r => mine r && String.eqb (InventoryReservation.sku r)
                                       (InventoryItem.sku it))
                 (fun r => active o r && String.eqb (InventoryReservation.sku r)
                                           (InventoryItem.sku it)))
        by (intro r; rewrite Em; reflexivity).
      exact Hcr.
    + eapply Forall2_impl; [|exact Hres]. intros r r' Hr. cbv beta in Hr |- *.
      rewrite Em. exact Hr.
  - exact H2.
  - intros Hnone. apply H3.
    eapply Forall_impl; [|exact Hnone]. intros r Hr. cbv beta in Hr.
    rewrite active_cases.
    destruct (String.eqb_spec (InventoryReservation.order_id r) o) as [E|E];
      [|reflexivity].
    destruct (Hr E) as [Hr1 Hr2].
    destruct (InventoryReservation.status r); simpl; congruence.
Qed.

(** Releasing the sample reservation of order 1 (2 x item-001, 1 x item-002)
    gives both quantities back and marks both rows; a second release, and
    the release of an order without reservations, change nothing. *)
Lemma releaseReservation_witness :
  consistent Sample.reserved1 /\
  map InventoryItem.available_quantity (inventory Sample.reserved1)
  = [98; 49; 200; 25] /\
  snd (releaseReservation Sample.env3 Sample.reserved1 Sample.release1) = Tx.Ok tt /\
  map InventoryItem.available_quantity
    (inventory (fst (releaseReservation Sample.env3 Sample.reserved1 Sample.release1)))
  = [100; 50; 200; 25] /\
  map InventoryItem.reserved_quantity
    (inventory (fst (releaseReservation Sample.env3 Sample.reserved1 Sample.release1)))
  = [0; 0; 0; 0] /\
  map InventoryReservation.status
    (inventory_reservations
       (fst (releaseReservation Sample.env3 Sample.reserved1 Sample.release1)))
  = [RELEASED; RELEASED] /\
  releaseReservation Sample.env4
    (fst (releaseReservation Sample.env3 Sample.reserved1 Sample.release1))
    Sample.release1
  = (fst (releaseReservation Sample.env3 Sample.reserved1 Sample.release1), Tx.Ok tt) /\
  releaseReservation Sample.env3 Sample.reserved1
    (ReleaseInventoryRequest.mk Sample.order2)
  = (Sample.reserved1, Tx.Ok tt).
Proof.
  assert (H : consistent Sample.reserved1).
  { repeat split; [| |unfold backed]; vm_compute inventory;
      vm_compute inventory_reservations; each_row. }
  destruct (proj1 (releaseReservation_spec Sample.env3 Sample.reserved1
                     Sample.release1) H) as (Hok & _ & Hinv & Hres).
  split; [exact H|]. split; [reflexivity|]. split; [exact Hok|].
  split; [|split; [|split; [|split]]].
  - rewrite (Forall2_map_eq _ InventoryItem.available_quantity _ _ _
               (fun it it' Hc => proj1 (proj2 (proj2 (proj2 (proj2 (proj2 (proj2 Hc)))))))
               Hinv).
    reflexivity.
  - rewrite (Forall2_map_eq _ InventoryItem.reserved_quantity _ _ _
               (fun it it' Hc =>
                  proj1 (proj2 (proj2 (proj2 (proj2 (proj2 (proj2 (proj2 Hc))))))))
               Hinv).
    reflexivity.
  - assert (E : forall r r' : InventoryReservation.t,
               (if String.eqb (InventoryReservation.order_id r)
                     (ReleaseInventoryRequest.order_id Sample.release1) &&
                   match InventoryReservation.status r with
                   | RESERVED | CONFIRMED => true
                   | RELEASED | EXPIRED => false
                   end
                then restated Sample.env3 RELEASED r r' else r' = r) ->
               InventoryReservation.status r'
               = if String.eqb (InventoryReservation.order_id r)
                      (ReleaseInventoryRequest.order_id Sample.release1) &&
                    match InventoryReservation.status r with
                    | RESERVED | CONFIRMED => true
                    | RELEASED | EXPIRED => false
                    end
                 then RELEASED else InventoryReservation.status r).
    { intros r r'. destruct (_ && _).
      - intros (_ & _ & _ & _ & _ & _ & Hs & _). exact Hs.
      - intros ->. reflexivity. }
    rewrite (Forall2_map_eq _ _ _ _ _ E Hres). reflexivity.
  - apply (proj1 (proj2 (releaseReservation_spec Sample.env3 Sample.reserved1
                           Sample.release1))).
    exact Hok.
  - apply (proj2 (proj2 (releaseReservation_spec Sample.env3 Sample.reserved1
                           (ReleaseInventoryRequest.mk Sample.order2)))).
    vm_compute inventory_reservations. each_row.
Defined.

(** ** Invariants of the three operations *)

Lemma map_total_stock (f : InventoryItem.t -> InventoryItem.t)
    (inv : list InventoryItem.t) :
  (forall it, total_stock (f it) = total_stock it) ->
  map total_stock (map f inv) = map total_stock inv.
Proof.
  intros Hf. rewrite map_map. apply map_ext. exact Hf.
Qed.

Lemma moved_total_stock (env : Env) (d : Z) (b : bool) (it it' : InventoryItem.t) :
  moved env d b it it' -> total_stock it' = total_stock it.
Proof.
  unfold moved, total_stock. intros (_ & -> & _ & _ & _ & _ & -> & -> & _).
  f_equal. lia.
Qed.

Lemma run_call_total_stock (db : DB) (c : call) :
  map total_stock (inventory (run_call db c)) = map total_stock (inventory db).
Proof.
  destruct c as [env request|env orderId|env request]; simpl.
  - unfold reserveInventory, Tx.transaction.
    destruct (reserve_loop _ _ _ _ _ _ db) as [[rs db']|err] eqn:E; [|reflexivity].
    cbn [fst]. apply reserve_loop_ok in E as (_ & -> & _).
    apply map_total_stock. intros it.
    eapply moved_total_stock, shift_moved.
  - reflexivity.
  - rewrite releaseReservation_body.
    destruct (release_loop _ _ db) as [[u db1]|err] eqn:E; [|reflexivity].
    cbn [fst inventory]. apply release_loop_ok in E as [-> _]. cbn [inventory].
    apply map_total_stock. intros it.
    eapply moved_total_stock, unshift_moved.
Qed.

(** C3. After any run of reserve, confirm and release calls, with any
    arguments, succeeding or failing, the [inventory] table lists the same
    SKUs in the same order and each SKU's [available_quantity +
    reserved_quantity] is what it was at the start. *)
Theorem total_stock_invariant (cs : list call) (db : DB) :
  map total_stock (inventory (run_calls db cs)) = map total_stock (inventory db).
Proof.
  revert db. induction cs as [|c cs IH]; intros db; [reflexivity|].
  unfold run_calls in *. simpl. rewrite IH. apply run_call_total_stock.
Qed.

Lemma held_app (p : InventoryReservation.t -> bool)
    (a b : list InventoryReservation.t) (sku : string) :
  held p (a ++ b) sku = held p a sku + held p b sku.
Proof.
  induction a as [|r a IH]; simpl; [reflexivity|]. rewrite IH. lia.
Qed.

Lemma held_created (env : Env) (o : uuid) (e : Z) (items : list RequestItem.t)
    (new : list InventoryReservation.t) (sku : string) :
  Forall2 (fun item r =>
             r = InventoryReservation.mk (InventoryReservation.id r) o
                   (RequestItem.sku item) (RequestItem.quantity item)
                   RESERVED e (CURRENT_TIMESTAMP env) (CURRENT_TIMESTAMP env))
          items new ->
  held live new sku = requested items sku /\
  (Forall (fun item => 0 < RequestItem.quantity item) items ->
   Forall (fun r => 0 < InventoryReservation.quantity r) new).
Proof.
  induction 1 as [|item r items' new' Hr _ [IH1 IH2]]; simpl.
  - split; [reflexivity|constructor].
  - rewrite Hr; simpl. rewrite IH1. split; [reflexivity|].
    intros Hq. inversion Hq; subst. constructor; [assumption|auto].
Qed.

Lemma held_confirmed (env : Env) (o : uuid)
    (rows : list InventoryReservation.t) (sku : string) :
  held live
    (map (fun r => if String.eqb (InventoryReservation.order_id r) o &&
                      status_eqb (InventoryReservation.status r) RESERVED
                   then set_status env CONFIRMED r else r) rows) sku
  = held live rows sku.
Proof.
  induction rows as [|r rows IH]; simpl; [reflexivity|]. rewrite IH. f_equal.
  destruct (String.eqb (InventoryReservation.order_id r) o); simpl; [|reflexivity].
  destruct r as [i oid s q st ex c u]; simpl.
  destruct st; reflexivity.
Qed.

Lemma held_released (env : Env) (o : uuid)
    (rows : list InventoryReservation.t) (sku : string) :
  held live (map (fun r => if active o r then set_status env RELEASED r else r) rows) sku
  = held live rows sku - held (active o) rows sku.
Proof.
  induction rows as [|r rows IH]; simpl; [reflexivity|]. rewrite IH.
  destruct (active o r) eqn:Ea; simpl.
  - rewrite (active_live o r Ea). simpl.
    destruct (String.eqb _ _); lia.
  - destruct (live r && _); lia.
Qed.

Lemma quantities_kept (f : InventoryReservation.t -> InventoryReservation.t)
    (rows : list InventoryReservation.t) :
  (forall r, InventoryReservation.quantity (f r) = InventoryReservation.quantity r) ->
  Forall (fun r => 0 < InventoryReservation.quantity r) rows ->
  Forall (fun r => 0 < InventoryReservation.quantity r) (map f rows).
Proof.
  intros Hf H. rewrite Forall_forall in *. intros x Hx.
  apply in_map_iff in Hx as (r & <- & Hin). rewrite Hf. apply H; exact Hin.
Qed.

Lemma consistent_provisioned (os : list uuid) (inv : list InventoryItem.t) :
  Forall (fun it => InventoryItem.check it = None) inv ->
  consistent (mkDB os inv []).
Proof.
  intros H. repeat split; simpl; [exact H|constructor|].
  unfold backed; simpl. rewrite Forall_forall in *. intros it Hin.
  apply H, check_none in Hin. lia.
Qed.

Lemma consistent_run_call (db : DB) (c : call) :
  consistent db -> consistent (run_call db c).
Proof.
  intros [[Hck Hq] Hb]. destruct c as [env request|env orderId|env request]; simpl.
  - unfold reserveInventory, Tx.transaction.
    destruct (reserve_loop _ _ _ _ _ _ db) as [[rs db']|err] eqn:E;
      [|repeat split; assumption].
    cbn [fst]. pose proof (reserve_loop_check _ _ _ _ _ _ _ _ _ E Hck) as Hck'.
    apply reserve_loop_ok in E as (_ & Hinv & Hqs & new & _ & Hres & Hnew).
    pose proof (fun s => held_created env _ _ _ new s Hnew) as Hh.
    repeat split.
    + exact Hck'.
    + rewrite Hres. apply Forall_app. split; [exact Hq|].
      apply (Hh EmptyString); exact Hqs.
    + unfold backed in *. rewrite Hinv, Hres. rewrite Forall_forall in *.
      intros x Hx. apply in_map_iff in Hx as (it & <- & Hin).
      destruct (shift_moved env (ReserveInventoryRequest.items request) it)
        as (_ & -> & _ & _ & _ & _ & _ & -> & _).
      rewrite held_app. destruct (Hh (InventoryItem.sku it)) as [-> _].
      specialize (Hb it Hin). simpl in Hb. lia.
  - repeat split; simpl.
    + exact Hck.
    + apply quantities_kept; [|exact Hq].
      intros r. destruct (_ && _); reflexivity.
    + unfold backed in *; simpl. rewrite Forall_forall in *.
      intros it Hin. rewrite held_confirmed. apply Hb; exact Hin.
  - rewrite releaseReservation_body.
    destruct (release_loop _ _ db) as [[u db1]|err] eqn:E;
      [|repeat split; assumption].
    cbn [fst]. apply release_loop_ok in E as [-> Hck'].
    repeat split; simpl.
    + apply Hck'; exact Hck.
    + apply quantities_kept; [|exact Hq].
      intros r. destruct (active _ r); reflexivity.
    + unfold backed in *; simpl. rewrite Forall_forall in *.
      intros x Hx. apply in_map_iff in Hx as (it & <- & Hin).
      destruct (unshift_moved env
                  (filter (active (ReleaseInventoryRequest.order_id request))
                     (inventory_reservations db)) it)
        as (_ & -> & _ & _ & _ & _ & _ & -> & _).
      rewrite held_released, held_filter.
      specialize (Hb it Hin). simpl in Hb. lia.
Qed.

(** After any run of reserve, confirm and release calls on tables that are
    consistent (the CHECK constraints hold and every SKU's
    [reserved_quantity] covers its RESERVED and CONFIRMED reservations), the
    tables are consistent; freshly provisioned tables are. *)
Theorem consistent_run_calls (cs : list call) (db : DB) :
  consistent db -> consistent (run_calls db cs).
Proof.
  revert db. induction cs as [|c cs IH]; intros db H; [exact H|].
  unfold run_calls in *. simpl. apply IH, consistent_run_call, H.
Qed.

Lemma consistent_run_calls_witness :
  consistent
    (run_calls Sample.provisioned
       [ Reserve Sample.env1 Sample.reserve1;
         Reserve Sample.env2 Sample.reserve2;
         Confirm Sample.env3 Sample.order1;
         Release Sample.env4 Sample.release1 ]).
Proof.
  apply consistent_run_calls. apply consistent_provisioned. simpl. each_row.
Defined.

End InventoryTheory.

(** * Properties of the payment service *)

Module PaymentTheory.
Import Payment.

Lemma sample_ledger_ok : schema_ok Sample.ledger.
Proof. split; simpl; [distinct|]. repeat constructor; simpl; tauto. Defined.


Lemma select_payment_unique (db : DB) (p : PaymentTransaction.t) :
  NoDup (map PaymentTransaction.id (payments db)) -> In p (payments db) ->
  getPaymentById db (PaymentTransaction.id p) = Some p.
Proof.
  unfold getPaymentById, select_payment.
  induction (payments db) as [|x l IH]; simpl; intros Hnd Hin; [contradiction|].
  inversion Hnd as [|? ? Hx Hnd']; subst.
  destruct (String.eqb_spec (PaymentTransaction.id x) (PaymentTransaction.id p)) as [E|E].
  - destruct Hin as [->|Hin]; [reflexivity|].
    exfalso. apply Hx. rewrite E. apply in_map; exact Hin.
  - destruct Hin as [->|Hin]; [congruence|]. apply IH; assumption.
Qed.


Lemma getPaymentById_In (db : DB) (id : uuid) (p : PaymentTransaction.t) :
  getPaymentById db id = Some p ->
  In p (payments db) /\ PaymentTransaction.id p = id.
Proof.
  unfold getPaymentById, select_payment. intros H.
  destruct (filter _ (payments db)) as [|x l] eqn:E; [discriminate|].
  simpl in H. inversion H; subst.
  assert (Hin : In p (filter (fun q => String.eqb (PaymentTransaction.id q) id)
                        (payments db))) by (rewrite E; left; reflexivity).
  apply filter_In in Hin as [Hin Hs]. apply String.eqb_eq in Hs. tauto.
Qed.

Lemma insert_payment_run (row : PaymentTransaction.t) (db : DB) :
  ~ In (PaymentTransaction.id row) (map PaymentTransaction.id (payments db)) ->
  In (PaymentTransaction.order_id row) (orders db) ->
  insert_payment row db = Tx.Ok (row, mkDB (orders db) (payments db ++ [row])).
Proof.
  intros Hfresh Ho. unfold insert_payment.
  destruct (existsb _ (payments db)) eqn:Epk.
  { exfalso. apply existsb_exists in Epk as (q & Hin & E).
    apply String.eqb_eq in E. apply Hfresh. rewrite <- E. apply in_map; exact Hin. }
  assert (Eo : existsb (fun o => String.eqb o (PaymentTransaction.order_id row))
                 (orders db) = true).
  { apply existsb_exists. eexists. split; [exact Ho|apply String.eqb_refl]. }
  rewrite Eo. reflexivity.
Qed.

Lemma status_eqb_eq (a b : PaymentStatus) : status_eqb a b = true <-> a = b.
Proof. destruct a, b; simpl; split; intros H; congruence. Qed.

(** The three ways [refundPayment] can go, by what [getPaymentById] finds. *)
Lemma refundPayment_cases (env : Env) (db : DB) (request : RefundPaymentRequest.t) :
  refundPayment env db request =
  match getPaymentById db (RefundPaymentRequest.payment_id request) with
  | None => (db, Tx.Err Tx.Payment_not_found)
  | Some original =>
      if status_eqb (PaymentTransaction.status original) COMPLETED
      then Tx.transaction
             (insert_payment
                (refund_row env original
                   (js_or (RefundPaymentRequest.amount_cents request)
                          (PaymentTransaction.amount_cents original))))
             db
      else (db, Tx.Err Tx.Can_only_refund_completed_payments)
  end.
Proof.
  unfold refundPayment.
  destruct (getPaymentById db _) as [original|]; [|reflexivity].
  destruct (status_eqb _ COMPLETED); reflexivity.
Qed.


(** A successful refund keeps the schema's guarantees. *)
Lemma refundPayment_schema_ok (env : Env) (db db' : DB)
    (request : RefundPaymentRequest.t) (r : PaymentTransaction.t) :
  schema_ok db -> refundPayment env db request = (db', Tx.Ok r) ->
  schema_ok db' /\
  db' = mkDB (orders db) (payments db ++ [r]) /\
  exists original,
    In original (payments db) /\
    PaymentTransaction.id original = RefundPaymentRequest.payment_id request /\
    PaymentTransaction.status original = COMPLETED /\
    r = refund_row env original
          (js_or (RefundPaymentRequest.amount_cents request)
                 (PaymentTransaction.amount_cents original)).
Proof.
  intros [Hnd Hfk] H. rewrite refundPayment_cases in H.
  destruct (getPaymentById db _) as [original|] eqn:Eg; [|discriminate].
  destruct (status_eqb _ COMPLETED) eqn:Es; [|discriminate].
  apply status_eqb_eq in Es. apply getPaymentById_In in Eg as [Hin Hid].
  unfold Tx.transaction, insert_payment in H.
  destruct (existsb _ (payments db)) eqn:Epk; [discriminate|].
  destruct (negb _) eqn:Efk; [discriminate|].
  inversion H; subst db' r; clear H.
  split; [|split; [reflexivity|exists original; tauto]].
  split; simpl.
  - rewrite map_app. simpl.
    apply NoDup_app; [exact Hnd|repeat constructor; simpl; tauto|].
    intros x Hx [<-|[]]. apply in_map_iff in Hx as (q & Hq & Hqin).
    assert (existsb (fun p0 => String.eqb (PaymentTransaction.id p0) (uuidv4 env))
              (payments db) = true).
    { apply existsb_exists. exists q. split; [exact Hqin|].
      rewrite Hq. apply String.eqb_refl. }
    simpl in Epk. congruence.
  - apply Forall_app. split; [exact Hfk|]. constructor; [|constructor].
    simpl. rewrite Forall_forall in Hfk. apply Hfk; exact Hin.
Qed.



(** C10. A request with [amount_cents = 0] is handled exactly as one with no
    amount, and against a COMPLETED payment it writes a row whose amount is
    the negation of the original's full [amount_cents]. *)
Theorem refundPayment_zero_amount (env : Env) (db : DB) (pid : uuid) :
  refundPayment env db (RefundPaymentRequest.mk pid (Some 0)) =
  refundPayment env db (RefundPaymentRequest.mk pid None) /\
  (schema_ok db ->
   forall original, In original (payments db) ->
     PaymentTransaction.id original = pid ->
     PaymentTransaction.status original = COMPLETED ->
     ~ In (uuidv4 env) (map PaymentTransaction.id (payments db)) ->
     let row := refund_row env original (PaymentTransaction.amount_cents original) in
     refundPayment env db (RefundPaymentRequest.mk pid (Some 0)) =
       (mkDB (orders db) (payments db ++ [row]), Tx.Ok row) /\
     PaymentTransaction.amount_cents row = - PaymentTransaction.amount_cents original).
Proof.
  split.
  - rewrite !refundPayment_cases. reflexivity.
  - intros [Hnd Hfk] original Hin Hid Hst Hfresh row.
    split; [|reflexivity].
    rewrite refundPayment_cases. simpl. rewrite <- Hid.
    rewrite (select_payment_unique db original Hnd Hin), Hst. simpl.
    unfold Tx.transaction. rewrite insert_payment_run.
    + reflexivity.
    + exact Hfresh.
    + simpl. rewrite Forall_forall in Hfk. apply Hfk; exact Hin.
Qed.

Lemma refundPayment_zero_amount_witness :
  Payment.refundPayment Sample.refund_env1 Sample.ledger
    (RefundPaymentRequest.mk "pay-1" (Some 0)) =
  (mkDB (orders Sample.ledger)
     (payments Sample.ledger ++ [refund_row Sample.refund_env1 Sample.payment1 2500]),
   Tx.Ok (refund_row Sample.refund_env1 Sample.payment1 2500)).
Proof.
  apply (proj2 (refundPayment_zero_amount Sample.refund_env1 Sample.ledger "pay-1")
           sample_ledger_ok Sample.payment1 (or_introl eq_refl) eq_refl eq_refl).
  simpl. intuition discriminate.
Defined.




(** *** getPaymentSummaryByOrderId *)

Lemma coalesce_sum (values : list Z) : coalesce (sql_sum values) 0 = total values.
Proof. destruct values; reflexivity. Qed.

Lemma coalesce_abs_sum (values : list Z) :
  coalesce (sql_abs (sql_sum values)) 0 = Z.abs (total values).
Proof. destruct values; reflexivity. Qed.

Lemma total_positive (values : list Z) :
  total (map (fun a => if a >? 0 then a else 0) values)
  = total (filter (fun a => 0 <? a) values).
Proof.
  induction values as [|a l IH]; simpl; [reflexivity|].
  rewrite IH, Z.gtb_ltb. destruct (0 <? a); simpl; reflexivity.
Qed.

Lemma total_negative (values : list Z) :
  total (map (fun a => if a <? 0 then a else 0) values)
  = total (filter (fun a => a <? 0) values).
Proof.
  induction values as [|a l IH]; simpl; [reflexivity|].
  rewrite IH. destruct (a <? 0); simpl; reflexivity.
Qed.

Lemma total_split (values : list Z) :
  total values
  = total (filter (fun a => 0 <? a) values) + total (filter (fun a => a <? 0) values)
  /\ total (filter (fun a => a <? 0) values) <= 0.
Proof.
  induction values as [|a l [IH1 IH2]]; simpl; [lia|].
  destruct (Z.ltb_spec 0 a); destruct (Z.ltb_spec a 0); simpl; lia.
Qed.

Lemma latest_spec (rows : list PaymentTransaction.t) :
  match latest rows with
  | None => rows = []
  | Some p =>
      In p rows /\
      Forall (fun q => PaymentTransaction.created_at q
                       <= PaymentTransaction.created_at p) rows
  end.
Proof.
  induction rows as [|r rest IH]; simpl; [reflexivity|].
  destruct (latest rest) as [r'|].
  - destruct IH as [Hin Hall].
    destruct (Z.ltb_spec (PaymentTransaction.created_at r)
                (PaymentTransaction.created_at r')).
    + split; [right; exact Hin|]. constructor; [lia|exact Hall].
    + split; [left; reflexivity|]. constructor; [lia|].
      rewrite Forall_forall in *. intros q Hq. specialize (Hall q Hq). lia.
  - subst rest. split; [left; reflexivity|]. constructor; [lia|constructor].
Qed.

(** The rows the query of [getPaymentSummaryByOrderId] selects are the rows
    that count. *)
Lemma counted_selected (db : DB) (orderId : uuid) :
  filter (qualifying orderId) (payments db) = counted db orderId.
Proof.
  unfold counted. apply filter_ext. intro p. unfold qualifying.
  destruct (PaymentTransaction.status p); reflexivity.
Qed.

Lemma counted_app (os : list uuid) (rows extra : list PaymentTransaction.t)
    (orderId : uuid) :
  Forall (fun p => PaymentTransaction.status p = PENDING \/
                   PaymentTransaction.status p = FAILED) extra ->
  counted (mkDB os (rows ++ extra)) orderId = counted (mkDB os rows) orderId.
Proof.
  intros H. unfold counted. simpl. rewrite filter_app.
  rewrite <- (app_nil_r (filter _ rows)) at 2. f_equal.
  induction H as [|p extra Hp _ IH]; simpl; [reflexivity|].
  rewrite IH. destruct Hp as [-> | ->]; rewrite andb_false_r; reflexivity.
Qed.

(** C8 (as the code has it).  The totals of [getPaymentSummaryByOrderId] are
    computed from the rows of the order whose status is COMPLETED or
    REFUNDED ([counted], which names them by their status and not by the
    filter of the query), and from no other row: [total_paid] is the sum of their
    positive amounts, [total_refunded] the absolute value of the sum of
    their negative amounts, [net_amount] their signed sum (which is
    [total_paid - total_refunded]), [payment_count] their number; two
    tables with the same such rows give the same totals, PENDING and FAILED
    rows added to the table change none of them, and no such row gives
    zeros.  A COMPLETED payment of 2500 and a REFUNDED entry of -1000 give
    2500, 1000 and 1500.  [latest_status] is taken from all rows of the
    order, whatever their status: it is the status of a row of the order
    with the greatest [created_at], and null exactly when the order has no
    row. *)
Theorem getPaymentSummaryByOrderId_spec (db : DB) (orderId : uuid) :
  let s := getPaymentSummaryByOrderId db orderId in
  let amounts := map PaymentTransaction.amount_cents (counted db orderId) in
  (PaymentSummary.total_paid s = total (filter (fun a => 0 <? a) amounts) /\
   PaymentSummary.total_refunded s = Z.abs (total (filter (fun a => a <? 0) amounts)) /\
   PaymentSummary.net_amount s = total amounts /\
   PaymentSummary.net_amount s
     = PaymentSummary.total_paid s - PaymentSummary.total_refunded s /\
   PaymentSummary.payment_count s = Z.of_nat (List.length (counted db orderId))) /\
  (forall db2, counted db2 orderId = counted db orderId ->
     let s2 := getPaymentSummaryByOrderId db2 orderId in
     PaymentSummary.total_paid s2 = PaymentSummary.total_paid s /\
     PaymentSummary.total_refunded s2 = PaymentSummary.total_refunded s /\
     PaymentSummary.net_amount s2 = PaymentSummary.net_amount s /\
     PaymentSummary.payment_count s2 = PaymentSummary.payment_count s) /\
  (forall extra,
     Forall (fun p => PaymentTransaction.status p = PENDING \/
                      PaymentTransaction.status p = FAILED) extra ->
     let s2 := getPaymentSummaryByOrderId
                 (mkDB (orders db) (payments db ++ extra)) orderId in
     PaymentSummary.total_paid s2 = PaymentSummary.total_paid s /\
     PaymentSummary.total_refunded s2 = PaymentSummary.total_refunded s /\
     PaymentSummary.net_amount s2 = PaymentSummary.net_amount s /\
     PaymentSummary.payment_count s2 = PaymentSummary.payment_count s) /\
  (counted db orderId = [] ->
     PaymentSummary.total_paid s = 0 /\ PaymentSummary.total_refunded s = 0 /\
     PaymentSummary.net_amount s = 0 /\ PaymentSummary.payment_count s = 0) /\
  (forall p r, counted db orderId = [p; r] ->
     PaymentTransaction.amount_cents p = 2500 ->
     PaymentTransaction.amount_cents r = -1000 ->
     PaymentSummary.total_paid s = 2500 /\ PaymentSummary.total_refunded s = 1000 /\
     PaymentSummary.net_amount s = 1500) /\
  match PaymentSummary.latest_status s with
  | None => of_order db orderId = []
  | Some st =>
      exists p, In p (of_order db orderId) /\ PaymentTransaction.status p = st /\
        Forall (fun q => PaymentTransaction.created_at q
                         <= PaymentTransaction.created_at p)
               (of_order db orderId)
  end.
Proof.
  intros s amounts.
  assert (Hs : forall db',
             getPaymentSummaryByOrderId db' orderId
             = PaymentSummary.mk
                 (total (filter (fun a => 0 <? a)
                           (map PaymentTransaction.amount_cents (counted db' orderId))))
                 (Z.abs (total (filter (fun a => a <? 0)
                           (map PaymentTransaction.amount_cents (counted db' orderId)))))
                 (total (map PaymentTransaction.amount_cents (counted db' orderId)))
                 (Z.of_nat (List.length (counted db' orderId)))
                 (option_map PaymentTransaction.status
                    (latest (of_order db' orderId)))).
  { intro db'. rewrite <- (counted_selected db' orderId).
    unfold getPaymentSummaryByOrderId, of_order.
    cbv zeta. cbv iota.
    rewrite !coalesce_sum, coalesce_abs_sum, total_positive, total_negative.
    reflexivity. }
  assert (Hsame : forall db2, counted db2 orderId = counted db orderId ->
            let s2 := getPaymentSummaryByOrderId db2 orderId in
            PaymentSummary.total_paid s2 = PaymentSummary.total_paid s /\
            PaymentSummary.total_refunded s2 = PaymentSummary.total_refunded s /\
            PaymentSummary.net_amount s2 = PaymentSummary.net_amount s /\
            PaymentSummary.payment_count s2 = PaymentSummary.payment_count s).
  { intros db2 Heq s2. subst s2 s. rewrite (Hs db2), (Hs db), Heq. simpl.
    repeat split. }
  subst s. fold amounts in Hs.
  split; [|split; [|split; [|split; [|split]]]].
  - rewrite (Hs db). simpl. repeat split.
    destruct (total_split amounts) as [H1 H2]. subst amounts. lia.
  - exact Hsame.
  - intros extra Hextra. apply Hsame.
    destruct db as [os rows]. apply counted_app. exact Hextra.
  - intros Hnil. rewrite (Hs db). subst amounts. rewrite Hnil. simpl. repeat split.
  - intros p r Hrows Hp Hr. rewrite (Hs db). subst amounts. rewrite Hrows. simpl.
    rewrite Hp, Hr. simpl. repeat split.
  - rewrite (Hs db). simpl.
    pose proof (latest_spec (of_order db orderId)) as Hl.
    destruct (latest (of_order db orderId)) as [p|]; simpl; [|exact Hl].
    exists p. tauto.
Qed.

Lemma getPaymentSummaryByOrderId_witness :
  (PaymentSummary.total_paid
     (getPaymentSummaryByOrderId Sample.partly_refunded Sample.order1) = 2500 /\
   PaymentSummary.total_refunded
     (getPaymentSummaryByOrderId Sample.partly_refunded Sample.order1) = 1000 /\
   PaymentSummary.net_amount
     (getPaymentSummaryByOrderId Sample.partly_refunded Sample.order1) = 1500) /\
  (PaymentSummary.total_paid
     (getPaymentSummaryByOrderId Sample.partly_refunded Sample.order2) = 0 /\
   PaymentSummary.total_refunded
     (getPaymentSummaryByOrderId Sample.partly_refunded Sample.order2) = 0 /\
   PaymentSummary.net_amount
     (getPaymentSummaryByOrderId Sample.partly_refunded Sample.order2) = 0 /\
   PaymentSummary.payment_count
     (getPaymentSummaryByOrderId Sample.partly_refunded Sample.order2) = 0) /\
  (let extra :=
     [ PaymentTransaction.mk "pay-7" Sample.order1 700 "USD" FAILED
         (Some "credit_card") None 9 9;
       PaymentTransaction.mk "pay-8" Sample.order1 800 "USD" PENDING
         (Some "paypal") None 9 9 ] in
   let s := getPaymentSummaryByOrderId Sample.partly_refunded Sample.order1 in
   let s2 := getPaymentSummaryByOrderId
               (mkDB (orders Sample.partly_refunded)
                     (payments Sample.partly_refunded ++ extra)) Sample.order1 in
   PaymentSummary.total_paid s2 = PaymentSummary.total_paid s /\
   PaymentSummary.total_refunded s2 = PaymentSummary.total_refunded s /\
   PaymentSummary.net_amount s2 = PaymentSummary.net_amount s /\
   PaymentSummary.payment_count s2 = PaymentSummary.payment_count s).
Proof.
  split; [|split].
  - apply (proj1 (proj2 (proj2 (proj2 (proj2
             (getPaymentSummaryByOrderId_spec Sample.partly_refunded Sample.order1)))))
             Sample.payment1
             (refund_row Sample.refund_env1 Sample.payment1 1000));
      reflexivity.
  - apply (proj1 (proj2 (proj2 (proj2
             (getPaymentSummaryByOrderId_spec Sample.partly_refunded Sample.order2))))).
    reflexivity.
  - intro extra.
    apply (proj1 (proj2 (proj2
             (getPaymentSummaryByOrderId_spec Sample.partly_refunded Sample.order1)))
             extra).
    constructor; [right; reflexivity|].
    constructor; [left; reflexivity | constructor].
Defined.

(** C8, refuted as stated: order 2 has a single FAILED row, hence no
    COMPLETED or REFUNDED row, and its summary has zero totals but
    [latest_status] FAILED, not null. *)
Lemma failed_row_sets_latest_status :
  counted Sample.failed_ledger Sample.order2 = [] /\
  getPaymentSummaryByOrderId Sample.failed_ledger Sample.order2 =
    PaymentSummary.mk 0 0 0 0 (Some FAILED).
Proof. split; reflexivity. Qed.

End PaymentTheory.

(** * Properties of concurrent reservations *)

Module ConcurrencyTheory.
Import Inventory Concurrent.

Section OneSku.

Variable sku : string.

(** ** Lists of transactions *)

Lemma Forall_upd (P : txn -> Prop) (ts : list txn) (i : nat) (t' : txn) :
  Forall P ts -> P t' -> Forall P (upd i t' ts).
Proof.
  intros H Ht'. revert i. induction H as [|t0 ts Ht0 Hts IH]; intros i.
  - destruct i; constructor.
  - destruct i; simpl; constructor; auto.
Qed.

Lemma Forall_nth_error (P : txn -> Prop) (ts : list txn) (i : nat) (t : txn) :
  Forall P ts -> nth_error ts i = Some t -> P t.
Proof.
  intros H Hn. rewrite Forall_forall in H. apply H.
  eapply nth_error_In; exact Hn.
Qed.

Lemma sold_upd (ts : list txn) (i : nat) (t t' : txn) :
  nth_error ts i = Some t ->
  sold (upd i t' ts) sku = sold ts sku - sold_by t sku + sold_by t' sku.
Proof.
  revert i. induction ts as [|t0 ts IH]; intros [|i] H; simpl in *;
    try discriminate.
  - inversion H; subst. lia.
  - rewrite (IH i H). lia.
Qed.

Lemma holders_upd (ts : list txn) (i : nat) (t t' : txn) :
  nth_error ts i = Some t ->
  (holders (upd i t' ts) sku + b2n (holds t sku)
   = holders ts sku + b2n (holds t' sku))%nat.
Proof.
  unfold holders.
  revert i. induction ts as [|t0 ts IH]; intros [|i] H; simpl in *;
    try discriminate.
  - inversion H; subst. destruct (holds t sku), (holds t' sku); simpl; lia.
  - specialize (IH i H). destruct (holds t0 sku); simpl; lia.
Qed.

Lemma holders_none (ts : list txn) :
  holders ts sku = 0%nat -> Forall (fun t => holds t sku = false) ts.
Proof.
  unfold holders. induction ts as [|t ts IH]; simpl; intros H; constructor.
  - destruct (holds t sku); [discriminate|reflexivity].
  - apply IH. destruct (holds t sku); [discriminate|exact H].
Qed.

Lemma locked_elsewhere_holders (ts : list txn) (i : nat) (t : txn) :
  nth_error ts i = Some t -> locked_elsewhere i ts sku = false ->
  holders ts sku = b2n (holds t sku).
Proof.
  unfold holders.
  revert i. induction ts as [|t0 ts IH]; intros [|i] H Hl; simpl in *;
    try discriminate.
  - inversion H; subst.
    assert (E : filter (fun t0 => holds t0 sku) ts = []).
    { clear - Hl. induction ts as [|x ts IH]; simpl in *; [reflexivity|].
      apply orb_false_iff in Hl as [-> Hl]. apply IH; exact Hl. }
    rewrite E. destruct (holds t sku); reflexivity.
  - apply orb_false_iff in Hl as [-> Hl]. apply (IH i H Hl).
Qed.

(** ** What a transaction sees *)

Lemma own_sku (t : txn) (row : InventoryItem.t) :
  InventoryItem.sku (own t row) = InventoryItem.sku row.
Proof.
  unfold own. destruct (find _ (writes t)) as [w|] eqn:E; [|reflexivity].
  apply find_some in E as [_ E]. apply String.eqb_eq in E. exact E.
Qed.

Lemma own_row (t : txn) (row : InventoryItem.t) :
  InventoryItem.sku row = sku ->
  own t row = match write_of t sku with Some w => w | None => row end.
Proof. intros <-. reflexivity. Qed.

Lemma lookup_view (db : DB) (t : txn) :
  lookup (view db t) sku = option_map (own t) (lookup db sku).
Proof.
  apply (InventoryTheory.lookup_map (own t) db sku (own_sku t)).
Qed.

Lemma holds_write (t : txn) :
  outcome t = None ->
  holds t sku = match write_of t sku with Some _ => true | None => false end.
Proof.
  unfold holds, write_of. intros ->.
  induction (writes t) as [|w ws IH]; simpl; [reflexivity|].
  destruct (String.eqb _ _); simpl; [reflexivity|exact IH].
Qed.

Lemma txn_ok_free (a a' : Z) (t : txn) :
  txn_ok sku a t -> holds t sku = false -> txn_ok sku a' t.
Proof.
  unfold txn_ok. intros H Hh Ho. specialize (H Ho).
  rewrite (holds_write t Ho) in Hh.
  destruct (write_of t sku); [discriminate|exact H].
Qed.

Lemma txn_ok_finish (a : Z) (t : txn) (r : Tx.result (list InventoryReservation.t)) :
  txn_ok sku a (finish t r).
Proof. unfold txn_ok; simpl; discriminate. Qed.

(** ** One step keeps the invariant *)

Section Steps.

Variable a0 : Z.
Variable w : world.
Variable row : InventoryItem.t.
Variable i : nat.
Variable t : txn.

Hypothesis Hrow : lookup (committed w) sku = Some row.
Hypothesis Hsold : InventoryItem.available_quantity row = a0 - sold (txns w) sku.
Hypothesis Hpos : 0 <= InventoryItem.available_quantity row.
Hypothesis Hall : Forall (txn_ok sku (InventoryItem.available_quantity row)) (txns w).
Hypothesis Hone : (holders (txns w) sku <= 1)%nat.
Hypothesis Hnth : nth_error (txns w) i = Some t.
Hypothesis Hopen : outcome t = None.

Lemma open_sold : sold_by t sku = 0.
Proof. unfold sold_by. rewrite Hopen. reflexivity. Qed.

(** The transaction throws, or is aborted. *)
Lemma accounted_fail (e : Tx.error) :
  accounted sku a0
    (mkWorld (committed w) (upd i (finish t (Tx.Err e)) (txns w))).
Proof.
  exists row. simpl. repeat split; try assumption.
  - rewrite (sold_upd _ _ _ _ Hnth), open_sold. unfold sold_by; simpl. lia.
  - apply Forall_upd; [exact Hall|apply txn_ok_finish].
  - pose proof (holders_upd _ _ _ (finish t (Tx.Err e)) Hnth) as H.
    simpl in H. unfold b2n in H. destruct (holds t sku); lia.
Qed.

(** The transaction executes a statement and stays open. *)
Lemma accounted_local (t' : txn) :
  outcome t' = None ->
  txn_ok sku (InventoryItem.available_quantity row) t' ->
  (holds t' sku = true ->
   holds t sku = true \/ locked_elsewhere i (txns w) sku = false) ->
  accounted sku a0 (mkWorld (committed w) (upd i t' (txns w))).
Proof.
  intros Ho Hok Hlock. exists row. simpl. repeat split; try assumption.
  - rewrite (sold_upd _ _ _ _ Hnth), open_sold.
    unfold sold_by. rewrite Ho. lia.
  - apply Forall_upd; assumption.
  - pose proof (holders_upd _ _ _ t' Hnth) as H.
    destruct (holds t' sku) eqn:E; simpl in H.
    + destruct (Hlock eq_refl) as [Ht|Hl].
      * rewrite Ht in H. simpl in H. lia.
      * rewrite (locked_elsewhere_holders _ _ _ Hnth Hl) in H. lia.
    + unfold b2n in H. destruct (holds t sku); lia.
Qed.

(** The transaction commits. *)
Lemma accounted_commit :
  todo t = [] ->
  accounted sku a0
    (mkWorld (view (committed w) t)
       (upd i (finish t (Tx.Ok (reservations t))) (txns w))).
Proof.
  intros Htodo.
  pose proof (Forall_nth_error _ _ _ _ Hall Hnth Hopen) as [Hreq Hw].
  assert (Happ : applied t sku
                 = requested (ReserveInventoryRequest.items (request t)) sku).
  { unfold applied. rewrite Hreq, Htodo. simpl. destruct (next t); lia. }
  destruct (InventoryTheory.lookup_In _ _ _ Hrow) as [_ Hsku].
  assert (Hs' : sold (upd i (finish t (Tx.Ok (reservations t))) (txns w)) sku
                = sold (txns w) sku
                  + requested (ReserveInventoryRequest.items (request t)) sku).
  { rewrite (sold_upd _ _ _ _ Hnth), open_sold. unfold sold_by; simpl. lia. }
  pose proof (holders_upd _ _ _ (finish t (Tx.Ok (reservations t))) Hnth) as Hh.
  simpl in Hh. rewrite (holds_write t Hopen) in Hh.
  exists (own t row). simpl.
  rewrite lookup_view, Hrow, Hs'. simpl. rewrite (own_row t row Hsku).
  destruct (write_of t sku) as [wr|] eqn:Ew; simpl in Hh.
  - destruct Hw as [Hav Hnn]. repeat split; try lia.
    apply Forall_impl with
      (P := fun t' => txn_ok sku (InventoryItem.available_quantity row) t'
                      /\ holds t' sku = false).
    + intros t' [H1 H2]. eapply txn_ok_free; eassumption.
    + apply Forall_and.
      * apply Forall_upd; [exact Hall|apply txn_ok_finish].
      * apply holders_none. lia.
  - repeat split; try lia.
    apply Forall_upd; [exact Hall|apply txn_ok_finish].
Qed.

End Steps.

(** ** The statements of the loop body *)

Lemma find_filter_hd (p : InventoryItem.t -> bool) (l rest : list InventoryItem.t)
    (x : InventoryItem.t) :
  hd_error (filter p l) = Some x -> find p (filter p l ++ rest) = Some x.
Proof.
  intros H. destruct (filter p l) as [|y l'] eqn:E; [discriminate|].
  simpl in H. inversion H; subst y.
  assert (Hp : p x = true).
  { assert (Hin : In x (filter p l)) by (rewrite E; left; reflexivity).
    apply filter_In in Hin. tauto. }
  simpl. rewrite Hp. reflexivity.
Qed.

Lemma find_app_none (p : InventoryItem.t -> bool) (l rest : list InventoryItem.t) :
  Forall (fun x => p x = false) l -> find p (l ++ rest) = find p rest.
Proof.
  induction 1 as [|x l Hx _ IH]; simpl; [reflexivity|]. rewrite Hx. exact IH.
Qed.

Lemma find_filter (p q : InventoryItem.t -> bool) (l : list InventoryItem.t) :
  (forall x, p x = true -> q x = true) -> find p (filter q l) = find p l.
Proof.
  intros Hpq. induction l as [|x l IH]; simpl; [reflexivity|].
  destruct (q x) eqn:Eq; simpl.
  - rewrite IH. reflexivity.
  - destruct (p x) eqn:Ep; [|exact IH]. rewrite (Hpq x Ep) in Eq. discriminate.
Qed.

(** The SELECT and the check that follows it. *)
Lemma select_txn_ok (a : Z) (t : txn) :
  txn_ok sku a t -> outcome t = None -> next t = AtSelect ->
  let t' := mkTxn (env t) (request t) (todo t) AtUpdate (writes t)
              (reservations t) None in
  txn_ok sku a t' /\ holds t' sku = holds t sku.
Proof.
  intros Hok Ho Hn t'. split.
  - intros _. specialize (Hok Ho). unfold applied, write_of in *. simpl.
    rewrite Hn in Hok. destruct (todo t); exact Hok.
  - unfold holds. simpl. rewrite Ho. reflexivity.
Qed.

(** The UPDATE, once it has the row lock. *)
Lemma update_txn_ok (db v : DB) (row : InventoryItem.t) (t : txn)
    (item : RequestItem.t) (rest : list RequestItem.t) (u : unit) :
  lookup db sku = Some row ->
  txn_ok sku (InventoryItem.available_quantity row) t ->
  outcome t = None -> todo t = item :: rest -> next t = AtUpdate ->
  update_inventory (debit (env t) (RequestItem.quantity item))
    (RequestItem.sku item) (view db t) = Tx.Ok (u, v) ->
  let t' := mkTxn (env t) (request t) (todo t) AtInsert
              (filter (fun x => String.eqb (InventoryItem.sku x) (RequestItem.sku item))
                      (inventory v)
               ++ filter (fun x => negb (String.eqb (InventoryItem.sku x)
                                           (RequestItem.sku item)))
                         (writes t))
              (reservations t) None in
  txn_ok sku (InventoryItem.available_quantity row) t' /\
  (holds t' sku = true -> holds t sku = true \/ RequestItem.sku item = sku).
Proof.
  intros Hrow Hok Ho Htodo Hn Hu t'.
  specialize (Hok Ho). destruct Hok as [Hreq Hw].
  unfold applied in Hw. rewrite Hn in Hw.
  apply InventoryTheory.update_inventory_ok in Hu as [Hck Hv].
  destruct (InventoryTheory.lookup_In _ _ _ Hrow) as [_ Hsku].
  destruct (String.eqb_spec (RequestItem.sku item) sku) as [E|E].
  - (* the item is for this SKU: the row gets a new version *)
    assert (Hview : lookup (view db t) sku = Some (own t row))
      by (rewrite lookup_view, Hrow; reflexivity).
    assert (Hnew : write_of t' sku
                   = Some (debit (env t) (RequestItem.quantity item) (own t row))).
    { unfold write_of, t'. cbn [writes]. rewrite E.
      apply find_filter_hd. rewrite Hv. cbn [inventory]. rewrite E.
      pose proof (InventoryTheory.lookup_map
                    (fun it => if String.eqb (InventoryItem.sku it) (RequestItem.sku item)
                               then debit (env t) (RequestItem.quantity item) it
                               else it)
                    (view db t) sku) as Hm.
      unfold lookup in Hm, Hview. cbn [inventory] in Hm. rewrite E in Hm.
      rewrite Hm.
      - rewrite Hview. simpl. rewrite own_sku, Hsku, String.eqb_refl. reflexivity.
      - intros it. destruct (String.eqb _ _); reflexivity. }
    split.
    + intros _. split; [exact Hreq|]. rewrite Hnew.
      unfold applied, t'. cbn [next todo reservations]. rewrite Htodo, E, String.eqb_refl.
      assert (Hc : InventoryItem.check
                     (debit (env t) (RequestItem.quantity item) (own t row)) = None).
      { destruct (InventoryTheory.lookup_In _ _ _ Hview) as [Hin Hs].
        rewrite Forall_forall in Hck. apply (Hck _ Hin).
        rewrite Hs, E. apply String.eqb_refl. }
      apply InventoryTheory.check_none in Hc. simpl in Hc.
      rewrite (own_row t row Hsku) in *. simpl.
      destruct (write_of t sku) as [wr|]; simpl in *; lia.
    + intros _. right. exact E.
  - (* the item is for another SKU: the version of this row is kept *)
    assert (Hsame : write_of t' sku = write_of t sku).
    { unfold write_of, t'. cbn [writes].
      rewrite find_app_none.
      - apply find_filter. intros x Hx. apply String.eqb_eq in Hx.
        destruct (String.eqb_spec (InventoryItem.sku x) (RequestItem.sku item));
          [congruence|reflexivity].
      - apply Forall_forall. intros x Hx. apply filter_In in Hx as [_ Hx].
        apply String.eqb_eq in Hx.
        destruct (String.eqb_spec (InventoryItem.sku x) sku); [congruence|reflexivity]. }
    split.
    + intros _. split; [exact Hreq|]. rewrite Hsame.
      unfold applied, t'. cbn [next todo reservations]. rewrite Htodo.
      destruct (String.eqb_spec (RequestItem.sku item) sku); [contradiction|].
      exact Hw.
    + intros Hh. left. rewrite (holds_write t Ho).
      rewrite (holds_write t' eq_refl), Hsame in Hh. exact Hh.
Qed.

(** The INSERT, which ends the turn of the item. *)
Lemma insert_txn_ok (db v : DB) (a : Z) (t : txn) (item : RequestItem.t)
    (rest : list RequestItem.t) (r : InventoryReservation.t) :
  txn_ok sku a t -> outcome t = None -> todo t = item :: rest ->
  next t = AtInsert ->
  insert_reservation (env t) (List.length (reservations t))
    (ReserveInventoryRequest.order_id (request t))
    (RequestItem.sku item) (RequestItem.quantity item)
    (expires_at_of (env t) (request t)) (view db t) = Tx.Ok (r, v) ->
  let t' := mkTxn (env t) (request t) rest AtSelect (writes t)
              (reservations t ++ [r]) None in
  txn_ok sku a t' /\ holds t' sku = holds t sku.
Proof.
  intros Hok Ho Htodo Hn Hi t'.
  specialize (Hok Ho). destruct Hok as [Hreq Hw].
  unfold applied in Hw. rewrite Hn, Htodo in Hw. rewrite Htodo in Hreq.
  apply InventoryTheory.insert_reservation_ok in Hi as (Hr & _).
  assert (Hheld : held any (reservations t ++ [r]) sku
                  = held any (reservations t) sku
                    + (if String.eqb (RequestItem.sku item) sku
                       then RequestItem.quantity item else 0)).
  { rewrite InventoryTheory.held_app. rewrite Hr. simpl. lia. }
  split.
  - intros _. unfold applied, write_of, t' in *.
    cbn [next todo reservations writes request]. rewrite Hheld.
    simpl in Hreq. split; [lia|].
    destruct (find _ (writes t)); [|lia].
    destruct Hw as [Hw1 Hw2]. split; [lia|exact Hw2].
  - unfold holds. simpl. rewrite Ho. reflexivity.
Qed.

Lemma upd_same (ts : list txn) (i : nat) (t : txn) :
  nth_error ts i = Some t -> upd i t ts = ts.
Proof.
  revert i. induction ts as [|t0 ts IH]; intros [|i] H; simpl in *;
    try discriminate.
  - inversion H; reflexivity.
  - rewrite (IH i H). reflexivity.
Qed.

(** ** Every schedule keeps the invariant *)

Lemma step_accounted (a0 : Z) (w : world) (a : action) :
  accounted sku a0 w -> accounted sku a0 (step w a).
Proof.
  intros Hw.
  assert (Hkeep : forall i t, nth_error (txns w) i = Some t ->
            accounted sku a0 (mkWorld (committed w) (upd i t (txns w)))).
  { intros i t Hn. rewrite (upd_same _ _ _ Hn). destruct w; exact Hw. }
  destruct Hw as (row & Hrow & Hsold & Hpos & Hall & Hone).
  destruct a as [i|i]; unfold step;
    destruct (nth_error (txns w) i) as [t|] eqn:Hnth;
    try (exists row; tauto).
  - unfold step_txn.
    destruct (outcome t) eqn:Ho; [apply Hkeep; exact Hnth|].
    pose proof (Forall_nth_error _ _ _ _ Hall Hnth) as Hok.
    destruct (todo t) as [|item rest] eqn:Htodo.
    { apply (accounted_commit a0 w row i t); assumption. }
    destruct (next t) eqn:Hn.
    + (* SELECT *)
      unfold select_inventory.
      destruct (filter _ (inventory (view (committed w) t))) as [|cur l].
      { apply (accounted_fail a0 w row i t); assumption. }
      destruct (_ <? _).
      { apply (accounted_fail a0 w row i t); assumption. }
      destruct (select_txn_ok _ t Hok Ho Hn) as [Hok' Hh].
      rewrite <- Htodo.
      apply (accounted_local a0 w row i t); try assumption; [reflexivity|].
      intros H. left. rewrite <- Hh. exact H.
    + (* UPDATE *)
      destruct (locked_elsewhere i (txns w) (RequestItem.sku item)) eqn:Hl;
        [apply Hkeep; exact Hnth|].
      destruct (update_inventory _ _ (view (committed w) t)) as [[u v]|e] eqn:Hu.
      2:{ apply (accounted_fail a0 w row i t); assumption. }
      destruct (update_txn_ok _ _ _ _ _ _ _ Hrow Hok Ho Htodo Hn Hu) as [Hok' Hh].
      rewrite <- Htodo.
      apply (accounted_local a0 w row i t); try assumption; [reflexivity|].
      intros H. destruct (Hh H) as [Hold|E]; [left; exact Hold|].
      right. rewrite <- E. exact Hl.
    + (* INSERT *)
      destruct (insert_reservation _ _ _ _ _ _ (view (committed w) t))
        as [[r v]|e] eqn:Hi.
      2:{ apply (accounted_fail a0 w row i t); assumption. }
      destruct (insert_txn_ok _ _ _ _ _ _ _ Hok Ho Htodo Hn Hi) as [Hok' Hh].
      apply (accounted_local a0 w row i t); try assumption; [reflexivity|].
      intros H. left. rewrite <- Hh. exact H.
  - destruct (outcome t) eqn:Ho; [exists row; tauto|].
    apply (accounted_fail a0 w row i t); assumption.
Qed.

Lemma run_accounted (a0 : Z) (schedule : list action) (w : world) :
  accounted sku a0 w -> accounted sku a0 (run w schedule).
Proof.
  revert w. induction schedule as [|a schedule IH]; intros w H; [exact H|].
  unfold run in *. simpl. apply IH, step_accounted, H.
Qed.

Lemma start_accounted (db : DB) (calls : list (Env * ReserveInventoryRequest.t))
    (row : InventoryItem.t) :
  lookup db sku = Some row -> 0 <= InventoryItem.available_quantity row ->
  accounted sku (InventoryItem.available_quantity row) (start db calls).
Proof.
  intros Hrow Hpos. exists row. unfold start; simpl.
  assert (Hs : sold (map begin calls) sku = 0)
    by (clear; induction calls as [|c cs IH]; simpl;
        [reflexivity|rewrite IH; reflexivity]).
  assert (Hh : holders (map begin calls) sku = 0%nat)
    by (clear; unfold holders; induction calls as [|c cs IH]; simpl;
        [reflexivity|exact IH]).
  rewrite Hs, Hh. repeat split; try assumption; try lia.
  apply Forall_forall. intros t Ht. apply in_map_iff in Ht as (c & <- & _).
  intros _. unfold applied, write_of, begin; simpl. split; reflexivity.
Qed.

End OneSku.

(** ** A call that runs alone

    The statement-level model extends the sequential one: a call whose
    statements run with no other call in flight commits the tables and
    returns the result [reserveInventory] computes. *)

Lemma view_begin (db : DB) (c : Env * ReserveInventoryRequest.t) :
  view db (begin c) = db.
Proof.
  destruct db as [os inv rs]. unfold view, begin, own; simpl.
  rewrite map_id, app_nil_r. reflexivity.
Qed.

Lemma filter_updated (t : txn) (set : InventoryItem.t -> InventoryItem.t)
    (s : string) (inv : list InventoryItem.t) :
  (forall x, InventoryItem.sku (set x) = InventoryItem.sku x) ->
  filter (fun x => String.eqb (InventoryItem.sku x) s)
    (map (fun x => if String.eqb (InventoryItem.sku x) s then set x else x)
         (map (own t) inv))
  = map (fun x => set (own t x))
      (filter (fun x => String.eqb (InventoryItem.sku x) s) inv).
Proof.
  intros Hset. induction inv as [|y inv IH]; simpl; [reflexivity|].
  rewrite own_sku.
  destruct (String.eqb (InventoryItem.sku y) s) eqn:E; simpl.
  - rewrite Hset, own_sku, E, IH. reflexivity.
  - rewrite own_sku, E, IH. reflexivity.
Qed.

(** After its UPDATE, the transaction sees the tables the statement left. *)
Lemma view_after_update (db : DB) (t : txn)
    (set : InventoryItem.t -> InventoryItem.t) (s : string) (nx : stmt) :
  NoDup (map InventoryItem.sku (inventory db)) ->
  (forall x, InventoryItem.sku (set x) = InventoryItem.sku x) ->
  let hit x := String.eqb (InventoryItem.sku x) s in
  let v := map (fun x => if hit x then set x else x) (inventory (view db t)) in
  view db (mkTxn (env t) (request t) (todo t) nx
             (filter hit v ++ filter (fun x => negb (hit x)) (writes t))
             (reservations t) (outcome t))
  = mkDB (orders db) v (inventory_reservations db ++ reservations t).
Proof.
  intros Hnd Hset hit v. unfold view at 1. cbn [reservations]. f_equal.
  subst v hit. cbn [inventory view]. rewrite filter_updated by exact Hset.
  rewrite map_map. apply map_ext_in. intros x Hx.
  unfold own at 1. cbn [writes]. rewrite own_sku.
  destruct (String.eqb_spec (InventoryItem.sku x) s) as [E|E].
  - rewrite <- E.
    rewrite (InventoryTheory.filter_sku_unique _ x Hnd Hx). simpl.
    rewrite Hset, own_sku, String.eqb_refl. reflexivity.
  - rewrite find_app_none.
    + rewrite find_filter; [reflexivity|].
      intros w Hw. apply String.eqb_eq in Hw.
      destruct (String.eqb_spec (InventoryItem.sku w) s); [congruence|reflexivity].
    + apply Forall_forall. intros w Hw.
      apply in_map_iff in Hw as (y & <- & Hy). apply filter_In in Hy as [_ Hy].
      apply String.eqb_eq in Hy. rewrite Hset, own_sku.
      destruct (String.eqb_spec (InventoryItem.sku y) (InventoryItem.sku x));
        [congruence|reflexivity].
Qed.

(** The statements of a transaction, one by one. *)
Lemma step_txn_commit (db : DB) (b : string -> bool) (t : txn) :
  outcome t = None -> todo t = [] ->
  step_txn db b t = (view db t, finish t (Tx.Ok (reservations t))).
Proof. intros Ho Ht. unfold step_txn. rewrite Ho, Ht. reflexivity. Qed.

Lemma step_txn_select (db : DB) (b : string -> bool) (t : txn)
    (item : RequestItem.t) (rest : list RequestItem.t) :
  outcome t = None -> todo t = item :: rest -> next t = AtSelect ->
  step_txn db b t =
  match lookup (view db t) (RequestItem.sku item) with
  | None => (db, finish t (Tx.Err (Tx.Item_not_found (RequestItem.sku item))))
  | Some cur =>
      if InventoryItem.available_quantity cur <? RequestItem.quantity item
      then (db, finish t (Tx.Err (Tx.Insufficient_stock (RequestItem.sku item)
                                    (InventoryItem.available_quantity cur)
                                    (RequestItem.quantity item))))
      else (db, mkTxn (env t) (request t) (item :: rest) AtUpdate
                  (writes t) (reservations t) None)
  end.
Proof.
  intros Ho Ht Hn. unfold step_txn. rewrite Ho, Ht, Hn.
  unfold select_inventory, lookup.
  destruct (filter _ (inventory (view db t))); reflexivity.
Qed.

Lemma step_txn_update (db : DB) (b : string -> bool) (t : txn)
    (item : RequestItem.t) (rest : list RequestItem.t) :
  outcome t = None -> todo t = item :: rest -> next t = AtUpdate ->
  b (RequestItem.sku item) = false ->
  step_txn db b t =
  match update_inventory (debit (env t) (RequestItem.quantity item))
          (RequestItem.sku item) (view db t) with
  | Tx.Err e => (db, finish t (Tx.Err e))
  | Tx.Ok (_, v) =>
      (db, mkTxn (env t) (request t) (item :: rest) AtInsert
             (filter (fun x => String.eqb (InventoryItem.sku x) (RequestItem.sku item))
                     (inventory v)
              ++ filter (fun x => negb (String.eqb (InventoryItem.sku x)
                                          (RequestItem.sku item)))
                        (writes t))
             (reservations t) None)
  end.
Proof.
  intros Ho Ht Hn Hb. unfold step_txn. rewrite Ho, Ht, Hn, Hb. reflexivity.
Qed.

Lemma step_txn_insert (db : DB) (b : string -> bool) (t : txn)
    (item : RequestItem.t) (rest : list RequestItem.t) :
  outcome t = None -> todo t = item :: rest -> next t = AtInsert ->
  step_txn db b t =
  match insert_reservation (env t) (List.length (reservations t))
          (ReserveInventoryRequest.order_id (request t))
          (RequestItem.sku item) (RequestItem.quantity item)
          (expires_at_of (env t) (request t)) (view db t) with
  | Tx.Err e => (db, finish t (Tx.Err e))
  | Tx.Ok (row, _) =>
      (db, mkTxn (env t) (request t) rest AtSelect
             (writes t) (reservations t ++ [row]) None)
  end.
Proof.
  intros Ho Ht Hn. unfold step_txn. rewrite Ho, Ht, Hn. reflexivity.
Qed.

Lemma step_alone (db : DB) (t : txn) :
  step (mkWorld db [t]) (Run 0) =
  (let (db', t') := step_txn db (fun _ => false) t in mkWorld db' [t']).
Proof. reflexivity. Qed.

Lemma run_cons (w : world) (a : action) (schedule : list action) :
  run w (a :: schedule) = run (step w a) schedule.
Proof. reflexivity. Qed.

(** The loop of a call that runs alone, from any of its turns on. *)
Lemma alone_loop (db : DB) :
  NoDup (map InventoryItem.sku (inventory db)) ->
  forall (items : list RequestItem.t) (t : txn),
  outcome t = None -> next t = AtSelect -> todo t = items ->
  exists n,
    let w' := run (mkWorld db [t]) (repeat (Run 0) n) in
    match reserve_loop (env t) (ReserveInventoryRequest.order_id (request t))
            (expires_at_of (env t) (request t)) items
            (List.length (reservations t)) (reservations t) (view db t) with
    | Tx.Ok (rs, db') => committed w' = db' /\ result_of w' 0 = Some (Tx.Ok rs)
    | Tx.Err e => committed w' = db /\ result_of w' 0 = Some (Tx.Err e)
    end.
Proof.
  intros Hnd. induction items as [|item rest IH]; intros t Ho Hn Htodo.
  - exists 1%nat. cbn [repeat]. rewrite run_cons, step_alone.
    rewrite (step_txn_commit _ _ _ Ho Htodo). split; reflexivity.
  - rewrite InventoryTheory.reserve_loop_cons.
    (* SELECT and check *)
    pose proof (step_txn_select db (fun _ => false) t item rest Ho Htodo Hn) as S1.
    destruct (lookup (view db t) (RequestItem.sku item)) as [cur|].
    2:{ exists 1%nat. cbn [repeat]. rewrite run_cons, step_alone, S1.
        split; reflexivity. }
    destruct (InventoryItem.available_quantity cur <? RequestItem.quantity item).
    { exists 1%nat. cbn [repeat]. rewrite run_cons, step_alone, S1.
      split; reflexivity. }
    (* UPDATE *)
    set (t1 := mkTxn (env t) (request t) (item :: rest) AtUpdate
                 (writes t) (reservations t) None) in *.
    pose proof (step_txn_update db (fun _ => false) t1 item rest
                  eq_refl eq_refl eq_refl eq_refl) as S2.
    change (view db t1) with (view db t) in S2.
    cbn [env request writes reservations t1] in S2.
    destruct (update_inventory (debit (env t) (RequestItem.quantity item))
                (RequestItem.sku item) (view db t)) as [[u v]|err] eqn:Eu.
    2:{ exists 2%nat. cbn [repeat].
        rewrite run_cons, step_alone, S1, run_cons, step_alone, S2.
        split; reflexivity. }
    pose proof Eu as Eu'.
    apply InventoryTheory.update_inventory_ok in Eu' as [_ Hv].
    (* INSERT *)
    set (t2 := mkTxn (env t) (request t) (item :: rest) AtInsert
                 (filter (fun x => String.eqb (InventoryItem.sku x) (RequestItem.sku item))
                         (inventory v)
                  ++ filter (fun x => negb (String.eqb (InventoryItem.sku x)
                                              (RequestItem.sku item)))
                            (writes t))
                 (reservations t) None) in *.
    assert (Hv2 : view db t2 = v).
    { pose proof (view_after_update db t (debit (env t) (RequestItem.quantity item))
                    (RequestItem.sku item) AtInsert Hnd (fun x => eq_refl)) as H.
      cbv zeta in H. rewrite Ho in H. unfold t2. rewrite Hv. exact H. }
    pose proof (step_txn_insert db (fun _ => false) t2 item rest
                  eq_refl eq_refl eq_refl) as S3.
    rewrite Hv2 in S3. cbn [env request writes reservations t2] in S3.
    destruct (insert_reservation (env t) (List.length (reservations t))
                (ReserveInventoryRequest.order_id (request t))
                (RequestItem.sku item) (RequestItem.quantity item)
                (expires_at_of (env t) (request t)) v)
      as [[row db2]|err] eqn:Ei.
    2:{ exists 3%nat. cbn [repeat].
        rewrite run_cons, step_alone, S1, run_cons, step_alone, S2,
          run_cons, step_alone, S3.
        split; reflexivity. }
    (* the next turn *)
    set (t3 := mkTxn (env t) (request t) rest AtSelect (writes t2)
                 (reservations t ++ [row]) None) in *.
    assert (Hv3 : view db t3 = db2).
    { apply InventoryTheory.insert_reservation_ok in Ei as (_ & -> & _).
      rewrite <- Hv2. unfold view, t3. cbn [writes reservations orders inventory
        inventory_reservations]. rewrite app_assoc. reflexivity. }
    destruct (IH t3 eq_refl eq_refl eq_refl) as [n Hrun].
    exists (3 + n)%nat. cbn [repeat Nat.add].
    rewrite run_cons, step_alone, S1, run_cons, step_alone, S2,
      run_cons, step_alone, S3.
    cbn [env request reservations t3] in Hrun.
    rewrite Hv3, length_app in Hrun. cbn [List.length] in Hrun.
    rewrite Nat.add_1_r in Hrun. exact Hrun.
Qed.

(** A call of [reserveInventory] that runs alone behaves as the sequential
    function: after finitely many of its statements, the committed tables
    and its result are those of [reserveInventory]. *)
Theorem alone_is_sequential (environment : Env) (db : DB)
    (request : ReserveInventoryRequest.t) :
  NoDup (map InventoryItem.sku (inventory db)) ->
  exists n,
    let w := run (start db [(environment, request)]) (repeat (Run 0) n) in
    committed w = fst (reserveInventory environment db request) /\
    result_of w 0 = Some (snd (reserveInventory environment db request)).
Proof.
  intros Hnd.
  destruct (alone_loop db Hnd (ReserveInventoryRequest.items request)
              (begin (environment, request)) eq_refl eq_refl eq_refl) as [n H].
  exists n. unfold start. cbn [map].
  rewrite view_begin in H. cbn [begin env Concurrent.request reservations fst snd] in H.
  unfold reserveInventory, Tx.transaction. simpl in H.
  destruct (reserve_loop _ _ _ _ _ _ db) as [[rs db']|e]; exact H.
Qed.

Lemma alone_is_sequential_witness :
  exists n,
    let w := run (start Sample.provisioned [(Sample.env1, Sample.reserve1)])
               (repeat (Run 0) n) in
    committed w = fst (reserveInventory Sample.env1 Sample.provisioned Sample.reserve1) /\
    result_of w 0
    = Some (snd (reserveInventory Sample.env1 Sample.provisioned Sample.reserve1)).
Proof.
  apply (alone_is_sequential Sample.env1 Sample.provisioned Sample.reserve1).
  simpl. distinct.
Defined.

(** C2 (as the code has it).  Whatever calls of [reserveInventory] run
    concurrently and however their statements interleave (waits on row locks
    and server-side aborts included), for every row of [inventory] the
    quantities of its SKU requested by the calls that have succeeded sum to
    at most the row's initial [available_quantity], hence to at most its
    total stock; the committed [available_quantity] is the initial one less
    that sum, and is never negative; and at most one open call holds an
    uncommitted debit of the row. *)
Theorem no_oversell (db : DB) (calls : list (Env * ReserveInventoryRequest.t))
    (schedule : list action) (it : InventoryItem.t) :
  NoDup (map InventoryItem.sku (inventory db)) ->
  In it (inventory db) ->
  InventoryItem.check it = None ->
  let w := run (start db calls) schedule in
  let total_sold := sold (txns w) (InventoryItem.sku it) in
  total_sold <= InventoryItem.available_quantity it /\
  total_sold <= InventoryItem.available_quantity it
                + InventoryItem.reserved_quantity it /\
  (exists row,
     lookup (committed w) (InventoryItem.sku it) = Some row /\
     InventoryItem.available_quantity row
       = InventoryItem.available_quantity it - total_sold /\
     0 <= InventoryItem.available_quantity row) /\
  (holders (txns w) (InventoryItem.sku it) <= 1)%nat.
Proof.
  intros Hnd Hin Hck w total_sold.
  apply InventoryTheory.check_none in Hck as (Ha & _ & Hr).
  assert (Hrow : lookup db (InventoryItem.sku it) = Some it).
  { unfold lookup. rewrite (InventoryTheory.filter_sku_unique _ it Hnd Hin).
    reflexivity. }
  destruct (run_accounted (InventoryItem.sku it) _ schedule _
              (start_accounted (InventoryItem.sku it) db calls it Hrow Ha))
    as (row & Hl & Hs & Hp & _ & Hone).
  fold w in Hl, Hs, Hone. fold total_sold in Hs.
  split; [lia|]. split; [lia|]. split; [|exact Hone].
  exists row. repeat split; assumption.
Qed.

Lemma no_oversell_witness :
  sold (txns (run (start Sample.provisioned [Sample.race1; Sample.race2])
                [Run 0; Run 1; Run 0; Run 1; Run 0; Run 0; Run 1]%nat))
       "item-001"
  <= 100.
Proof.
  apply (no_oversell Sample.provisioned [Sample.race1; Sample.race2]
           [Run 0; Run 1; Run 0; Run 1; Run 0; Run 0; Run 1]%nat Sample.item1).
  - simpl. distinct.
  - simpl. tauto.
  - reflexivity.
Defined.

(** C2, refuted as stated: two calls each ask for 60 of the 100 x item-001.
    The second call's SELECT and check run between the first call's check
    and its UPDATE, and both checks pass on the value 100.  The second
    call's UPDATE then waits for the first call to commit and fails on
    CHECK (available_quantity >= 0), not on the availability check. *)
Lemma check_and_debit_interleave :
  let w0 := start Sample.provisioned [Sample.race1; Sample.race2] in
  let w1 := step w0 (Run 0) in
  let w2 := step w1 (Run 1) in
  let w3 := step w2 (Run 0) in
  let w4 := step w3 (Run 1) in
  let w5 := run w4 [Run 0; Run 0]%nat in
  let w6 := step w5 (Run 1) in
  (stage w0 0 = Some AtSelect /\ stage w1 0 = Some AtUpdate) /\
  (stage w1 1 = Some AtSelect /\ stage w2 1 = Some AtUpdate) /\
  (stage w2 0 = Some AtUpdate /\ stage w3 0 = Some AtInsert) /\
  w4 = w3 /\
  (exists rs, result_of w5 0 = Some (Tx.Ok rs)) /\
  stage w5 1 = Some AtUpdate /\
  result_of w6 1 =
    Some (Tx.Err (Tx.Db_error "inventory_available_quantity_check")) /\
  lookup (committed w6) "item-001" =
    Some (InventoryItem.mk "inv-1" "item-001" "Premium Widget"
            (Some "High-quality widget for various applications")
            40 60 2500 0 1000).
Proof.
  vm_compute. repeat split. eexists. reflexivity.
Qed.

End ConcurrencyTheory.

(** * The life of a reservation *)

Module ReservationsTheory.
Import Inventory Reservations.

Lemma reservation_status_eqb (a b : ReservationStatus) :
  status_eqb a b = true <-> a = b.
Proof.
  destruct a, b; simpl; split; intro H; try reflexivity; discriminate.
Qed.

Lemma Forall2_map_self {A : Type} (P : A -> A -> Prop) (f : A -> A) (l : list A) :
  (forall x, In x l -> P x (f x)) -> Forall2 P l (map f l).
Proof.
  induction l as [|x l IH]; intro H; simpl; constructor.
  - apply H. left. reflexivity.
  - apply IH. intros y Hy. apply H. right. exact Hy.
Qed.

Lemma Forall2_compose {A : Type} (P Q R : A -> A -> Prop) (l1 l2 l3 : list A) :
  (forall x y z, P x y -> Q y z -> R x z) ->
  Forall2 P l1 l2 -> Forall2 Q l2 l3 -> Forall2 R l1 l3.
Proof.
  intros H H12. revert l3.
  induction H12 as [|x y l1 l2 Hxy _ IH]; intros l3 H23; inversion H23; subst.
  - constructor.
  - constructor; [eapply H; eassumption | apply IH; assumption].
Qed.

(** ** Rows only move forward *)

Lemma evolved_refl (r : InventoryReservation.t) : evolved r r.
Proof. left. reflexivity. Qed.

Lemma evolved_trans (a b c : InventoryReservation.t) :
  evolved a b -> evolved b c -> evolved a c.
Proof.
  intros [->|Hab] [->|Hbc].
  - left. reflexivity.
  - right. exact Hbc.
  - right. exact Hab.
  - right.
    destruct Hab as (A1 & A2 & A3 & A4 & A5 & A6 & A7).
    destruct Hbc as (B1 & B2 & B3 & B4 & B5 & B6 & B7).
    repeat split; try congruence.
    destruct (InventoryReservation.status a), (InventoryReservation.status b),
      (InventoryReservation.status c); simpl in *; congruence.
Qed.

Lemma evolved_not_expired (r r' : InventoryReservation.t) :
  evolved r r' ->
  InventoryReservation.status r <> EXPIRED -> InventoryReservation.status r' <> EXPIRED.
Proof.
  intros [->|H] Hr; [exact Hr|].
  destruct H as (_ & _ & _ & _ & _ & _ & H).
  intro E. rewrite E in H.
  destruct (InventoryReservation.status r); discriminate.
Qed.

Lemma evolved_set_status (env : Env) (s : ReservationStatus)
    (r : InventoryReservation.t) :
  transition (InventoryReservation.status r) s = true ->
  evolved r (set_status env s r).
Proof.
  intro H. right. simpl. repeat split; try reflexivity. exact H.
Qed.

Lemma active_status (o : uuid) (r : InventoryReservation.t) :
  active o r = true ->
  InventoryReservation.order_id r = o /\
  transition (InventoryReservation.status r) RELEASED = true.
Proof.
  unfold active. intro H. apply andb_true_iff in H. destruct H as [Ho Hs].
  apply String.eqb_eq in Ho. split; [exact Ho|].
  destruct (InventoryReservation.status r); simpl in *; try reflexivity; discriminate.
Qed.

(** The rows one call leaves of the rows it found, and those it adds. *)
Lemma run_call_lifecycle (db : DB) (c : call) :
  orders (run_call db c) = orders db /\
  exists kept added,
    inventory_reservations (run_call db c) = kept ++ added /\
    Forall2 evolved (inventory_reservations db) kept /\
    Forall (fun r => InventoryReservation.status r = RESERVED) added.
Proof.
  destruct c as [env request|env orderId|env request]; simpl.
  - unfold reserveInventory, Tx.transaction.
    destruct (reserve_loop env (ReserveInventoryRequest.order_id request)
                (expires_at_of env request)
                (ReserveInventoryRequest.items request) 0 [] db)
      as [[rs db']|err] eqn:E; simpl.
    + apply InventoryTheory.reserve_loop_ok in E.
      destruct E as (Ho & _ & _ & new & _ & Hres & Hnew).
      split; [exact Ho|].
      exists (inventory_reservations db), new. split; [exact Hres|]. split.
      * rewrite <- (map_id (inventory_reservations db)) at 2.
        apply Forall2_map_self. intros. apply evolved_refl.
      * clear - Hnew. induction Hnew as [|item r items new Hr _ IH]; constructor.
        -- rewrite Hr. reflexivity.
        -- exact IH.
    + split; [reflexivity|].
      exists (inventory_reservations db), []. rewrite app_nil_r.
      split; [reflexivity|]. split; [|constructor].
      rewrite <- (map_id (inventory_reservations db)) at 2.
      apply Forall2_map_self. intros. apply evolved_refl.
  - split; [reflexivity|].
    eexists. exists []. rewrite app_nil_r. split; [reflexivity|]. split; [|constructor].
    apply Forall2_map_self. intros r _.
    destruct (String.eqb (InventoryReservation.order_id r) orderId &&
              status_eqb (InventoryReservation.status r) RESERVED) eqn:E.
    + apply evolved_set_status. apply andb_true_iff in E. destruct E as [_ E].
      apply reservation_status_eqb in E. rewrite E. reflexivity.
    + apply evolved_refl.
  - rewrite InventoryTheory.releaseReservation_body.
    destruct (release_loop env
                (filter (active (ReleaseInventoryRequest.order_id request))
                        (inventory_reservations db)) db)
      as [[u db1]|err] eqn:E; simpl.
    + apply InventoryTheory.release_loop_ok in E. destruct E as [E _]. subst db1. simpl.
      split; [reflexivity|].
      eexists. exists []. rewrite app_nil_r. split; [reflexivity|]. split; [|constructor].
      apply Forall2_map_self. intros r _.
      destruct (active (ReleaseInventoryRequest.order_id request) r) eqn:Ea.
      * apply evolved_set_status. apply (active_status _ _ Ea).
      * apply evolved_refl.
    + split; [reflexivity|].
      exists (inventory_reservations db), []. rewrite app_nil_r.
      split; [reflexivity|]. split; [|constructor].
      rewrite <- (map_id (inventory_reservations db)) at 2.
      apply Forall2_map_self. intros. apply evolved_refl.
Qed.

Lemma Forall2_app_inv_left {A B : Type} (P : A -> B -> Prop) (l1 l2 : list A)
    (l : list B) :
  Forall2 P (l1 ++ l2) l ->
  exists k1 k2, l = k1 ++ k2 /\ Forall2 P l1 k1 /\ Forall2 P l2 k2.
Proof.
  revert l. induction l1 as [|x l1 IH]; intros l H; simpl in H.
  - exists [], l. repeat split; [constructor | exact H].
  - inversion H as [|? y ? l' Hxy Hrest]; subst.
    destruct (IH _ Hrest) as (k1 & k2 & -> & H1 & H2).
    exists (y :: k1), k2. repeat split; [constructor; assumption | exact H2].
Qed.

(** X3: whatever calls are made, the reservation rows are only appended to
    and only move forward: after any run of reserveInventory,
    confirmReservation and releaseReservation calls the table consists of
    later versions of the rows it had, in their order, followed by the rows
    created since; a later version differs from the row at most in status
    and updated_at, and then its status has moved from RESERVED to CONFIRMED
    or RELEASED, or from CONFIRMED to RELEASED.  No call gives a row the
    status EXPIRED (or moves it out of RELEASED or EXPIRED), and table
    orders is never written. *)
Theorem reservation_lifecycle (cs : list call) (db : DB) :
  orders (run_calls db cs) = orders db /\
  exists kept added,
    inventory_reservations (run_calls db cs) = kept ++ added /\
    Forall2 evolved (inventory_reservations db) kept /\
    Forall (fun r => InventoryReservation.status r <> EXPIRED) added.
Proof.
  revert db. induction cs as [|c cs IH]; intro db.
  - split; [reflexivity|]. exists (inventory_reservations db), [].
    rewrite app_nil_r. split; [reflexivity|]. split; [|constructor].
    rewrite <- (map_id (inventory_reservations db)) at 2.
    apply Forall2_map_self. intros. apply evolved_refl.
  - unfold run_calls. simpl. fold (run_calls (run_call db c) cs).
    destruct (run_call_lifecycle db c) as (Ho & kept1 & added1 & E1 & K1 & A1).
    destruct (IH (run_call db c)) as (Ho2 & kept2 & added2 & E2 & K2 & A2).
    split; [congruence|].
    rewrite E1 in K2.
    destruct (Forall2_app_inv_left _ _ _ _ K2) as (k1 & k2 & -> & Hk1 & Hk2).
    exists k1, (k2 ++ added2). split; [rewrite E2, app_assoc; reflexivity|]. split.
    + eapply Forall2_compose; [|exact K1|exact Hk1].
      intros x y z. apply evolved_trans.
    + apply Forall_app. split; [|exact A2].
      clear - A1 Hk2. induction Hk2 as [|r r' l l' Hr _ IH]; constructor.
      * inversion A1; subst. eapply evolved_not_expired; [exact Hr|]. congruence.
      * apply IH. inversion A1; assumption.
Qed.


(** ** Reserving and releasing *)


Lemma filter_none {A : Type} (p : A -> bool) (l : list A) :
  Forall (fun x => p x = false) l -> filter p l = [].
Proof.
  induction 1 as [|x l Hx _ IH]; simpl; [reflexivity|]. rewrite Hx. exact IH.
Qed.


Lemma map_unless {A : Type} (p : A -> bool) (f : A -> A) (l : list A) :
  Forall (fun x => p x = false) l -> map (fun x => if p x then f x else x) l = l.
Proof.
  induction 1 as [|x l Hx _ IH]; simpl; [reflexivity|]. rewrite Hx, IH. reflexivity.
Qed.





(** ** Confirming and releasing *)

(** The row version [confirmReservation] leaves. *)
Lemma confirmReservation_run (env : Env) (db : DB) (o : uuid) :
  confirmReservation env db o =
  (mkDB (orders db) (inventory db)
     (map (fun r => if String.eqb (InventoryReservation.order_id r) o &&
                       status_eqb (InventoryReservation.status r) RESERVED
                    then set_status env CONFIRMED r else r)
          (inventory_reservations db)),
   Tx.Ok tt).
Proof. reflexivity. Qed.

Lemma release_loop_rows (env : Env) (f : InventoryReservation.t -> InventoryReservation.t) :
  (forall r, InventoryReservation.sku (f r) = InventoryReservation.sku r /\
             InventoryReservation.quantity (f r) = InventoryReservation.quantity r) ->
  forall rows db, release_loop env (map f rows) db = release_loop env rows db.
Proof.
  intros Hf. induction rows as [|r rows IH]; intro db; simpl; [reflexivity|].
  destruct (Hf r) as [-> ->]. unfold Tx.bind.
  destruct (update_inventory _ _ db) as [[u db1]|err]; [apply IH | reflexivity].
Qed.

Lemma release_loop_reservations (env : Env) :
  forall rows os inv rs rs',
  release_loop env rows (mkDB os inv rs) =
  match release_loop env rows (mkDB os inv rs') with
  | Tx.Ok (u, d) => Tx.Ok (u, mkDB (orders d) (inventory d) rs)
  | Tx.Err err => Tx.Err err
  end.
Proof.
  induction rows as [|r rows IH]; intros os inv rs rs'; simpl; [reflexivity|].
  unfold Tx.bind, update_inventory. cbn [inventory orders inventory_reservations].
  destruct (first_violation _); [reflexivity|]. apply IH.
Qed.

Lemma filter_map_commute {A : Type} (p : A -> bool) (f : A -> A) (l : list A) :
  (forall x, p (f x) = p x) -> filter p (map f l) = map f (filter p l).
Proof.
  intro H. induction l as [|x l IH]; simpl; [reflexivity|].
  rewrite H. destruct (p x); simpl; rewrite IH; reflexivity.
Qed.

(** X5: confirming is idempotent and does not shield a reservation from
    release.  A second confirmReservation of an order changes nothing; and
    releaseReservation gives the same result, and on success leaves exactly
    the same tables, whether or not the order's reservations were confirmed
    before: CONFIRMED rows are released, and their stock credited back, like
    RESERVED ones. *)
Theorem confirm_then_release (env env' : Env) (db : DB)
    (request : ReleaseInventoryRequest.t) :
  let o := ReleaseInventoryRequest.order_id request in
  let confirmed := fst (confirmReservation env db o) in
  confirmReservation env' confirmed o = (confirmed, Tx.Ok tt) /\
  snd (releaseReservation env' confirmed request)
  = snd (releaseReservation env' db request) /\
  (snd (releaseReservation env' db request) = Tx.Ok tt ->
   fst (releaseReservation env' confirmed request)
   = fst (releaseReservation env' db request)).
Proof.
  intros o confirmed. subst confirmed.
  rewrite (confirmReservation_run env db o). cbn [fst].
  set (conf := fun r => if String.eqb (InventoryReservation.order_id r) o &&
                           status_eqb (InventoryReservation.status r) RESERVED
                        then set_status env CONFIRMED r else r).
  assert (Hactive : forall r, active o (conf r) = active o r).
  { intro r. unfold conf.
    destruct (String.eqb (InventoryReservation.order_id r) o &&
              status_eqb (InventoryReservation.status r) RESERVED) eqn:E; [|reflexivity].
    apply andb_true_iff in E. destruct E as [E1 E2].
    apply reservation_status_eqb in E2.
    unfold active. simpl. rewrite E2. reflexivity. }
  assert (Hcols : forall r,
             InventoryReservation.sku (conf r) = InventoryReservation.sku r /\
             InventoryReservation.quantity (conf r) = InventoryReservation.quantity r).
  { intro r. unfold conf. destruct (_ && _); split; reflexivity. }
  split; [|split].
  - rewrite confirmReservation_run. cbn [orders inventory inventory_reservations].
    f_equal. f_equal. rewrite map_map. apply map_ext. intro r. unfold conf.
    destruct (String.eqb (InventoryReservation.order_id r) o &&
              status_eqb (InventoryReservation.status r) RESERVED) eqn:E.
    + simpl. rewrite andb_false_r. reflexivity.
    + rewrite E. reflexivity.
  - rewrite !InventoryTheory.releaseReservation_body. fold o.
    cbn [inventory_reservations].
    rewrite (filter_map_commute _ _ _ Hactive), (release_loop_rows env' conf Hcols).
    rewrite (release_loop_reservations env' _ _ _ _ (inventory_reservations db)).
    destruct db as [os inv rs]. cbn [orders inventory inventory_reservations].
    destruct (release_loop env' (filter (active o) rs) (mkDB os inv rs))
      as [[u d]|err]; reflexivity.
  - rewrite !InventoryTheory.releaseReservation_body. fold o.
    cbn [inventory_reservations].
    rewrite (filter_map_commute _ _ _ Hactive), (release_loop_rows env' conf Hcols).
    rewrite (release_loop_reservations env' _ _ _ _ (inventory_reservations db)).
    destruct db as [os inv rs]. cbn [orders inventory inventory_reservations].
    destruct (release_loop env' (filter (active o) rs) (mkDB os inv rs))
      as [[u d]|err] eqn:E; [|discriminate].
    intros _. cbn [fst orders inventory inventory_reservations].
    apply InventoryTheory.release_loop_ok in E. destruct E as [-> _].
    cbn [orders inventory inventory_reservations].
    f_equal. rewrite map_map. apply map_ext. intro r.
    rewrite Hactive. unfold conf.
    destruct (active o r) eqn:Ea; [|].
    + destruct (_ && _); reflexivity.
    + destruct (String.eqb (InventoryReservation.order_id r) o &&
                status_eqb (InventoryReservation.status r) RESERVED) eqn:E; [|reflexivity].
      exfalso. apply andb_true_iff in E. destruct E as [E1 E2].
      unfold active in Ea. rewrite E1, E2 in Ea. discriminate.
Qed.

Lemma confirm_then_release_witness :
  fst (releaseReservation Sample.env4
         (fst (confirmReservation Sample.env3 Sample.reserved1 Sample.order1))
         Sample.release1)
  = fst (releaseReservation Sample.env4 Sample.reserved1 Sample.release1).
Proof.
  apply (proj2 (proj2 (confirm_then_release Sample.env3 Sample.env4
                         Sample.reserved1 Sample.release1))).
  reflexivity.
Defined.

(** ** Checking and reserving *)

Lemma checkAvailability_lookup (db : DB) (sku : string) (q : Z) :
  AvailabilityCheck.is_available (snd (checkAvailability db sku q)) =
  match lookup db sku with
  | Some item => q <=? InventoryItem.available_quantity item
  | None => false
  end.
Proof.
  unfold checkAvailability, lookup.
  destruct (filter _ (inventory db)); reflexivity.
Qed.

(** X6: a positive answer of checkAvailability is a promise reserveInventory
    keeps.  On rows that satisfy the schema (CHECK constraints, UNIQUE
    sku), for an existing order, a positive quantity, a new reservation
    id and an expiry (the given minutes, or 30 when none or 0 are given,
    after Date.now()) that a Date and a TIMESTAMP column can hold:
    checkAvailability answers is_available = true exactly when reserving
    that quantity of that SKU, alone, on the same tables succeeds. *)
Theorem checkAvailability_then_reserve (env : Env) (db : DB) (o : uuid)
    (sku : string) (q : Z) (minutes : option Z) :
  schema_ok db ->
  NoDup (map InventoryItem.sku (inventory db)) ->
  In o (orders db) ->
  0 < q ->
  ~ In (gen_random_uuid env 0)
       (map InventoryReservation.id (inventory_reservations db)) ->
  -210866803200000
    <= Date_now env + (match minutes with
                       | Some m => if m =? 0 then 30 else m
                       | None => 30
                       end) * 60000
    <= 8640000000000000 ->
  AvailabilityCheck.is_available (snd (checkAvailability db sku q)) = true <->
  exists rs db',
    reserveInventory env db
      (ReserveInventoryRequest.mk o [RequestItem.mk sku q] minutes)
    = (db', Tx.Ok rs).
Proof.
  intros [Hcheck _] Hnd Ho Hq Hfresh He.
  assert (He' : storable (expires_at_of env
                  (ReserveInventoryRequest.mk o [RequestItem.mk sku q] minutes))).
  { unfold storable, expires_at_of, js_or.
    cbn [ReserveInventoryRequest.expiration_minutes]. lia. }
  rewrite checkAvailability_lookup. unfold reserveInventory.
  cbn [ReserveInventoryRequest.order_id ReserveInventoryRequest.items].
  split.
  - intro H. destruct (lookup db sku) as [item|] eqn:El; [|discriminate].
    apply Z.leb_le in H.
    destruct (InventoryTheory.lookup_In _ _ _ El) as [Hin Hsku].
    destruct (InventoryTheory.reserve_loop_admissible env o
                (expires_at_of env (ReserveInventoryRequest.mk o [RequestItem.mk sku q] minutes))
                [RequestItem.mk sku q] 0 [] db) as (rs & db' & E).
    + intros _. exact Ho.
    + repeat constructor. exact Hq.
    + repeat constructor. simpl. rewrite El. discriminate.
    + exact Hcheck.
    + apply Forall_forall. intros it Hit. simpl.
      destruct (String.eqb sku (InventoryItem.sku it)) eqn:Es.
      * apply String.eqb_eq in Es.
        assert (it = item).
        { pose proof (InventoryTheory.filter_sku_unique _ _ Hnd Hit) as F1.
          pose proof (InventoryTheory.filter_sku_unique _ _ Hnd Hin) as F2.
          rewrite <- Es, <- Hsku in F1. rewrite F2 in F1.
          inversion F1. reflexivity. }
        subst it. lia.
      * rewrite Forall_forall in Hcheck. specialize (Hcheck it Hit).
        apply InventoryTheory.check_none in Hcheck. lia.
    + simpl. repeat constructor. simpl. tauto.
    + simpl. repeat constructor. exact Hfresh.
    + intros _. exact He'.
    + exists rs, db'. apply InventoryTheory.transaction_ok. exact E.
  - intros (rs & db' & E). apply InventoryTheory.transaction_commit in E.
    rewrite InventoryTheory.reserve_loop_cons in E.
    cbn [RequestItem.sku RequestItem.quantity] in E.
    destruct (lookup db sku) as [item|]; [|discriminate].
    destruct (InventoryItem.available_quantity item <? q) eqn:Elt; [discriminate|].
    apply Z.ltb_ge in Elt. apply Z.leb_le. exact Elt.
Qed.

Lemma checkAvailability_then_reserve_witness :
  AvailabilityCheck.is_available
    (snd (checkAvailability Sample.provisioned "item-004" 25)) = true /\
  exists rs db',
    reserveInventory Sample.env1 Sample.provisioned
      (ReserveInventoryRequest.mk Sample.order1 [RequestItem.mk "item-004" 25] None)
    = (db', Tx.Ok rs).
Proof.
  assert (Hs : schema_ok Sample.provisioned) by (split; [each_row | constructor]).
  assert (Hnd : NoDup (map InventoryItem.sku (inventory Sample.provisioned)))
    by (simpl; distinct).
  assert (Ho : In Sample.order1 (orders Sample.provisioned))
    by (left; reflexivity).
  assert (Hf : ~ In (gen_random_uuid Sample.env1 0)
                    (map InventoryReservation.id
                         (inventory_reservations Sample.provisioned)))
    by (simpl; tauto).
  assert (Hc : AvailabilityCheck.is_available
                 (snd (checkAvailability Sample.provisioned "item-004" 25)) = true)
    by reflexivity.
  assert (He : -210866803200000 <= Date_now Sample.env1 + 30 * 60000
               <= 8640000000000000)
    by (vm_compute; split; discriminate).
  split; [exact Hc|].
  exact (proj1 (checkAvailability_then_reserve Sample.env1 Sample.provisioned
                  Sample.order1 "item-004" 25 None Hs Hnd Ho eq_refl Hf He) Hc).
Defined.


(** ** Expiry *)

Lemma blank_ids (rs1 rs2 : list InventoryReservation.t) :
  map blank rs1 = map blank rs2 ->
  map InventoryReservation.id rs1 = map InventoryReservation.id rs2.
Proof.
  intro H.
  assert (E : forall l, map InventoryReservation.id l
                        = map InventoryReservation.id (map blank l)).
  { intro l. rewrite map_map. reflexivity. }
  rewrite (E rs1), (E rs2), H. reflexivity.
Qed.

Lemma existsb_reservation_id (rs : list InventoryReservation.t) (key : uuid) :
  existsb (fun r => String.eqb (InventoryReservation.id r) key) rs
  = existsb (fun x => String.eqb x key) (map InventoryReservation.id rs).
Proof.
  induction rs as [|r rs IH]; simpl; [reflexivity|]. rewrite IH. reflexivity.
Qed.

Lemma blank_commutes (cond : InventoryReservation.t -> bool)
    (f : InventoryReservation.t -> InventoryReservation.t)
    (rs : list InventoryReservation.t) :
  (forall r, cond (blank r) = cond r) ->
  (forall r, blank (f r) = f (blank r)) ->
  map blank (map (fun r => if cond r then f r else r) rs)
  = map (fun r => if cond r then f r else r) (map blank rs).
Proof.
  intros Hc Hf. rewrite !map_map. apply map_ext. intro r.
  rewrite Hc. destruct (cond r); [apply Hf | reflexivity].
Qed.

Lemma blank_filter (cond : InventoryReservation.t -> bool)
    (rs : list InventoryReservation.t) :
  (forall r, cond (blank r) = cond r) ->
  map blank (filter cond rs) = filter cond (map blank rs).
Proof.
  intro Hc. symmetry. apply filter_map_commute. exact Hc.
Qed.

(** The loop of [reserveInventory] on tables that differ in expiries only. *)
Lemma reserve_loop_forgetting (env : Env) (o : uuid) (e : Z)
    (os : list uuid) :
  forall (items : list RequestItem.t) (k : nat)
         (acc : list InventoryReservation.t) (inv : list InventoryItem.t)
         (rs1 rs2 : list InventoryReservation.t),
  map blank rs1 = map blank rs2 ->
  forgetting (reserve_loop env o e items k acc (mkDB os inv rs1))
  = forgetting (reserve_loop env o e items k acc (mkDB os inv rs2)).
Proof.
  induction items as [|item rest IH]; intros k acc inv rs1 rs2 H.
  - simpl. unfold Tx.ret, forget. simpl. rewrite H. reflexivity.
  - rewrite !InventoryTheory.reserve_loop_cons.
    rewrite (InventoryTheory.lookup_reservations os inv rs1 rs2).
    destruct (lookup (mkDB os inv rs2) (RequestItem.sku item)) as [cur|];
      [|reflexivity].
    destruct (InventoryItem.available_quantity cur <? RequestItem.quantity item);
      [reflexivity|].
    unfold update_inventory. cbn [inventory orders inventory_reservations].
    destruct (first_violation _); [reflexivity|].
    unfold insert_reservation. cbn [inventory orders inventory_reservations
                                     InventoryReservation.id].
    destruct (negb (Date_valid e)); [reflexivity|].
    destruct (negb (timestamp_in_range e)); [reflexivity|].
    destruct (negb (0 <? RequestItem.quantity item)); [reflexivity|].
    rewrite !existsb_reservation_id, (blank_ids _ _ H).
    repeat match goal with
           | |- context [if existsb ?p ?l then _ else _] =>
               destruct (existsb p l); cbn [negb]; [reflexivity|]
           | |- context [if negb (existsb ?p ?l) then _ else _] =>
               destruct (existsb p l); cbn [negb]; [|reflexivity]
           end.
    apply IH. rewrite !map_app, H. reflexivity.
Qed.

Lemma forget_split (db1 db2 : DB) :
  forget db1 = forget db2 ->
  orders db1 = orders db2 /\ inventory db1 = inventory db2 /\
  map blank (inventory_reservations db1) = map blank (inventory_reservations db2).
Proof.
  unfold forget. intro H. inversion H. repeat split.
Qed.

Lemma reserveInventory_forgetting (env : Env) (db1 db2 : DB)
    (request : ReserveInventoryRequest.t) :
  forget db1 = forget db2 ->
  forget (fst (reserveInventory env db1 request))
  = forget (fst (reserveInventory env db2 request)) /\
  snd (reserveInventory env db1 request) = snd (reserveInventory env db2 request).
Proof.
  intro H. pose proof (forget_split _ _ H) as (Ho & Hi & Hr).
  destruct db1 as [os1 inv1 rs1], db2 as [os2 inv2 rs2].
  cbn [orders inventory inventory_reservations] in Ho, Hi, Hr. subst os2 inv2.
  pose proof (reserve_loop_forgetting env (ReserveInventoryRequest.order_id request)
                (expires_at_of env request) os1
                (ReserveInventoryRequest.items request) 0 [] inv1 rs1 rs2 Hr) as L.
  unfold reserveInventory, Tx.transaction.
  destruct (reserve_loop _ _ _ _ _ _ (mkDB os1 inv1 rs1)) as [[a1 d1]|e1];
    destruct (reserve_loop _ _ _ _ _ _ (mkDB os1 inv1 rs2)) as [[a2 d2]|e2];
    cbn [forgetting] in L; try discriminate; cbn [fst snd].
  - injection L as -> Ho' Hi' Hr'. unfold forget. rewrite Ho', Hi', Hr'.
    split; reflexivity.
  - injection L as ->. split; [exact H | reflexivity].
Qed.

Lemma confirmReservation_forgetting (env : Env) (db1 db2 : DB) (o : uuid) :
  forget db1 = forget db2 ->
  forget (fst (confirmReservation env db1 o))
  = forget (fst (confirmReservation env db2 o)).
Proof.
  intro H. pose proof (forget_split _ _ H) as (Ho & Hi & Hr).
  rewrite !confirmReservation_run. unfold forget.
  cbn [fst orders inventory inventory_reservations].
  rewrite Ho, Hi. f_equal.
  rewrite !(blank_commutes
              (fun r => String.eqb (InventoryReservation.order_id r) o &&
                        status_eqb (InventoryReservation.status r) RESERVED)
              (set_status env CONFIRMED)); try reflexivity.
  rewrite Hr. reflexivity.
Qed.

Lemma releaseReservation_forgetting (env : Env) (db1 db2 : DB)
    (request : ReleaseInventoryRequest.t) :
  forget db1 = forget db2 ->
  forget (fst (releaseReservation env db1 request))
  = forget (fst (releaseReservation env db2 request)) /\
  snd (releaseReservation env db1 request) = snd (releaseReservation env db2 request).
Proof.
  intro H. pose proof (forget_split _ _ H) as (Ho & Hi & Hr).
  destruct db1 as [os1 inv1 rs1], db2 as [os2 inv2 rs2].
  cbn [orders inventory inventory_reservations] in Ho, Hi, Hr. subst os2 inv2.
  rewrite !InventoryTheory.releaseReservation_body.
  cbn [inventory_reservations].
  set (o := ReleaseInventoryRequest.order_id request).
  assert (Hrows : release_loop env (filter (active o) rs1) (mkDB os1 inv1 rs1)
                  = match release_loop env (filter (active o) rs2) (mkDB os1 inv1 rs2) with
                    | Tx.Ok (u, d) => Tx.Ok (u, mkDB (orders d) (inventory d) rs1)
                    | Tx.Err err => Tx.Err err
                    end).
  { rewrite (release_loop_reservations env _ os1 inv1 rs1 rs2).
    assert (E : forall d,
               release_loop env (filter (active o) rs1) d
               = release_loop env (filter (active o) rs2) d).
    { intro d.
      rewrite <- (release_loop_rows env blank (fun r => conj eq_refl eq_refl)
                    (filter (active o) rs1)).
      rewrite <- (release_loop_rows env blank (fun r => conj eq_refl eq_refl)
                    (filter (active o) rs2)).
      rewrite !(blank_filter (active o)) by (intro r; reflexivity).
      rewrite Hr. reflexivity. }
    rewrite E. reflexivity. }
  rewrite Hrows.
  destruct (release_loop env (filter (active o) rs2) (mkDB os1 inv1 rs2))
    as [[u d]|err] eqn:E.
  - apply InventoryTheory.release_loop_ok in E. destruct E as [-> _].
    cbn [fst snd orders inventory inventory_reservations]. unfold forget.
    cbn [orders inventory inventory_reservations].
    split; [|reflexivity]. f_equal.
    rewrite !(blank_commutes (active o) (set_status env RELEASED)); try reflexivity.
    rewrite Hr. reflexivity.
  - cbn [fst snd]. split; [exact H | reflexivity].
Qed.

Lemma run_call_forgetting (db1 db2 : DB) (c : call) :
  forget db1 = forget db2 -> forget (run_call db1 c) = forget (run_call db2 c).
Proof.
  intro H. destruct c as [env request|env o|env request]; simpl.
  - apply (reserveInventory_forgetting env db1 db2 request H).
  - apply (confirmReservation_forgetting env db1 db2 o H).
  - apply (releaseReservation_forgetting env db1 db2 request H).
Qed.

(** X30: expiry is recorded but never enforced.  Two states of the tables
    that differ only in the expires_at of their reservations are
    indistinguishable: after any sequence of reserveInventory,
    confirmReservation and releaseReservation calls they still differ only
    in expires_at, and every further reserveInventory, releaseReservation
    or checkAvailability call returns, or throws, the same on both.  So a
    reservation whose expires_at is long past holds its stock, and can be
    confirmed, exactly like one that has not expired; no function of the
    service reads the column. *)
Theorem expiry_not_enforced (cs : list call) (db1 db2 : DB) :
  let d1 := run_calls db1 cs in
  let d2 := run_calls db2 cs in
  forget db1 = forget db2 ->
  forget d1 = forget d2 /\
  (forall env request,
     snd (reserveInventory env d1 request) = snd (reserveInventory env d2 request)) /\
  (forall env request,
     snd (releaseReservation env d1 request) = snd (releaseReservation env d2 request)) /\
  (forall sku q,
     snd (checkAvailability d1 sku q) = snd (checkAvailability d2 sku q)).
Proof.
  intros d1 d2 H. subst d1 d2.
  assert (Hf : forget (run_calls db1 cs) = forget (run_calls db2 cs)).
  { revert db1 db2 H. induction cs as [|c cs IH]; intros db1 db2 H; [exact H|].
    unfold run_calls. simpl. apply IH. apply run_call_forgetting. exact H. }
  split; [exact Hf|].
  split; [intros env request; apply (reserveInventory_forgetting _ _ _ _ Hf)|].
  split; [intros env request; apply (releaseReservation_forgetting _ _ _ _ Hf)|].
  intros sku q. destruct (forget_split _ _ Hf) as (_ & Hi & _).
  unfold checkAvailability. rewrite Hi.
  destruct (filter _ (inventory (run_calls db2 cs))); reflexivity.
Qed.

Lemma expiry_not_enforced_witness :
  snd (reserveInventory Sample.env2 Sample.reserved1 Sample.reserve2)
  = snd (reserveInventory Sample.env2 (forget Sample.reserved1) Sample.reserve2).
Proof.
  apply (proj1 (proj2 (expiry_not_enforced [] Sample.reserved1
                         (forget Sample.reserved1) eq_refl))).
Defined.

End ReservationsTheory.

(** * Properties of the routes of the inventory service *)

Module JsTheory.

Lemma prefix_cons (a b : Ascii.ascii) (p s : string) :
  String.prefix (String a p) (String b s) = Ascii.eqb a b && String.prefix p s.
Proof.
  simpl. destruct (Ascii.ascii_dec a b) as [->|Hne].
  - rewrite Ascii.eqb_refl. reflexivity.
  - apply Ascii.eqb_neq in Hne. rewrite Hne. reflexivity.
Qed.

Lemma prefix_nil_l (s : string) : String.prefix EmptyString s = true.
Proof. destruct s; reflexivity. Qed.

Lemma prefix_append (p s : string) : String.prefix p (p ++ s) = true.
Proof.
  induction p as [|a p IH]; simpl; [destruct s; reflexivity|].
  destruct (Ascii.ascii_dec a a); [exact IH | congruence].
Qed.

(** A text that starts with [p] includes it. *)
Lemma includes_prefix (p s : string) : Js.includes (p ++ s) p = true.
Proof.
  destruct p as [|a p]; [destruct s; reflexivity|].
  change (String a p ++ s)%string with (String a (p ++ s)).
  unfold Js.includes; fold Js.includes.
  change (String a (p ++ s)) with (String a p ++ s)%string.
  rewrite prefix_append. reflexivity.
Qed.

Lemma clash_prefix (p a s : string) :
  Js.clash p a = true -> String.prefix p (a ++ s) = false.
Proof.
  revert a. induction p as [|x p IH]; intros [|y a] H; simpl in H; try discriminate.
  change (String y a ++ s)%string with (String y (a ++ s)).
  rewrite prefix_cons.
  destruct (Ascii.eqb x y); simpl in *; [apply IH; exact H | reflexivity].
Qed.

(** No occurrence of [p] starts inside the text [a] put in front. *)
Lemma includes_append_l (p a s : string) :
  forallb (Js.clash p) (Js.tails a) = true ->
  Js.includes (a ++ s) p = Js.includes s p.
Proof.
  induction a as [|y a IH]; intro H; [reflexivity|].
  simpl in H. apply andb_true_iff in H. destruct H as [H1 H2].
  change (String y a ++ s)%string with (String y (a ++ s)).
  unfold Js.includes; fold Js.includes.
  change (String y (a ++ s)) with (String y a ++ s)%string.
  rewrite (clash_prefix _ _ _ H1). simpl. apply IH. exact H2.
Qed.

(** No occurrence of [p] ends inside the text [b] put behind. *)
Lemma prefix_append_r (p b : string) :
  forallb (fun r => negb (String.prefix r b)) (Js.tails p) = true ->
  forall s, String.prefix p (s ++ b) = String.prefix p s.
Proof.
  induction p as [|x p IH]; intros H s; [rewrite !prefix_nil_l; reflexivity|].
  simpl in H. apply andb_true_iff in H. destruct H as [H1 H2].
  destruct s as [|y s].
  - change (EmptyString ++ b)%string with b.
    apply negb_true_iff in H1. exact H1.
  - change (String y s ++ b)%string with (String y (s ++ b)).
    rewrite !prefix_cons, (IH H2). reflexivity.
Qed.

Lemma includes_append_r (p b : string) :
  forallb (fun r => negb (String.prefix r b)) (Js.tails p) = true ->
  Js.includes b p = false ->
  forall s, Js.includes (s ++ b) p = Js.includes s p.
Proof.
  intros H Hb. induction s as [|y s IH].
  - change (EmptyString ++ b)%string with b. rewrite Hb.
    destruct p as [|x p]; [destruct b; discriminate Hb|reflexivity].
  - change (String y s ++ b)%string with (String y (s ++ b)).
    unfold Js.includes; fold Js.includes.
    change (String y (s ++ b)) with (String y s ++ b)%string.
    rewrite (prefix_append_r _ _ H), IH. reflexivity.
Qed.

(** The message for an unknown SKU includes 'Insufficient stock' only if
    the SKU does. *)
Lemma item_not_found_message (pg_message : string -> string) (sku : string) :
  Js.includes (Js.message pg_message (Tx.Item_not_found sku)) "Insufficient stock"
  = Js.includes sku "Insufficient stock".
Proof.
  unfold Js.message.
  rewrite includes_append_l by (vm_compute; reflexivity).
  apply includes_append_r; vm_compute; reflexivity.
Qed.

Lemma insufficient_stock_message (pg_message : string -> string) (sku : string)
    (a q : Z) :
  Js.includes (Js.message pg_message (Tx.Insufficient_stock sku a q))
    "Insufficient stock" = true.
Proof.
  unfold Js.message.
  change ("Insufficient stock for " ++ sku ++ ". Available: "
          ++ Js.Number_toString a ++ ", Requested: " ++ Js.Number_toString q)%string
    with ("Insufficient stock" ++ (" for " ++ sku ++ ". Available: "
          ++ Js.Number_toString a ++ ", Requested: " ++ Js.Number_toString q))%string.
  apply includes_prefix.
Qed.

(** Up to 2^53 every integer is a Number and is printed with its own
    digits. *)
Lemma nearest_Number_safe (y : Z) : 0 <= y < 2 ^ 53 -> Js.nearest_Number y = y.
Proof.
  intros [H0 H]. unfold Js.nearest_Number.
  assert (Z.log2 y < 53).
  { destruct (Z.eq_dec y 0) as [->|]; [simpl; lia|].
    apply Z.log2_lt_pow2; lia. }
  destruct (Z.leb_spec (Z.log2 y - 52) 0); [reflexivity | lia].
Qed.

Lemma nearest_Number_large (y : Z) : 2 ^ 53 <= y -> 2 ^ 53 <= Js.nearest_Number y.
Proof.
  intros H. unfold Js.nearest_Number.
  assert (Hl : 53 <= Z.log2 y) by (apply Z.log2_le_pow2; lia).
  destruct (Z.leb_spec (Z.log2 y - 52) 0); [lia|].
  set (e := Z.log2 y - 52) in *.
  assert (Hq : 2 ^ 52 <= Z.shiftr y e).
  { rewrite Z.shiftr_div_pow2 by lia.
    apply Z.div_le_lower_bound; [apply Z.pow_pos_nonneg; lia|].
    rewrite Z.mul_comm, <- Z.pow_add_r by lia.
    replace (52 + e) with (Z.log2 y) by (unfold e; lia).
    apply Z.log2_spec. lia. }
  rewrite Z.shiftl_mul_pow2 by lia.
  assert (2 <= 2 ^ e).
  { change 2 with (2 ^ 1) at 1. apply Z.pow_le_mono_r; lia. }
  destruct (_ || _); nia.
Qed.

Lemma shortest_safe (x : Z) :
  0 <= x < 2 ^ 53 ->
  forall (fuel : nat) (p : Z), 0 < p -> Js.shortest fuel x p x = x.
Proof.
  intros Hx. induction fuel as [|fuel IH]; intros p Hp; [reflexivity|].
  cbn [Js.shortest].
  assert (Hlo : 0 <= x / p * p <= x).
  { split; [apply Z.mul_nonneg_nonneg; [apply Z.div_pos|]; lia|].
    rewrite Z.mul_comm. apply Z.mul_div_le. lia. }
  assert (Hhi : x < x / p * p + p).
  { pose proof (Z.mod_pos_bound x p Hp). pose proof (Z.div_mod x p). lia. }
  assert (Ehi : (Js.nearest_Number (x / p * p + p) =? x) = false).
  { apply Z.eqb_neq.
    destruct (Z.lt_ge_cases (x / p * p + p) (2 ^ 53)).
    - rewrite nearest_Number_safe; lia.
    - pose proof (nearest_Number_large _ H). lia. }
  rewrite Ehi, andb_false_r.
  destruct ((0 <? x / p * p) && (Js.nearest_Number (x / p * p) =? x)) eqn:Elo;
    [|reflexivity].
  apply andb_prop in Elo as [_ Elo]. apply Z.eqb_eq in Elo.
  rewrite nearest_Number_safe in Elo by lia. rewrite Elo.
  apply IH. lia.
Qed.

Lemma Number_toString_safe (n : Z) :
  Z.abs n < 2 ^ 53 ->
  Js.Number_toString n
  = ((if (n <? 0)%Z then "-" else EmptyString) ++ Js.decimal (Z.abs n))%string.
Proof.
  intros H. unfold Js.Number_toString.
  rewrite nearest_Number_safe by lia.
  destruct (Z.leb_spec (2 ^ 1024) (Z.abs n)) as [Hbig|_].
  { exfalso. assert (2 ^ 53 < 2 ^ 1024) by (apply Z.pow_lt_mono_r; lia). lia. }
  rewrite shortest_safe by lia.
  destruct (Z.ltb_spec (Z.abs n) (10 ^ 21)) as [_|Hbig]; [reflexivity|].
  exfalso. assert (2 ^ 53 < 10 ^ 21) by reflexivity. lia.
Qed.

(** Beyond 2^53 the digits are those of the Number, and from 1e21 on the
    exponent form is used. *)
Lemma Number_toString_large :
  Js.Number_toString (2 ^ 53 + 1) = "9007199254740992" /\
  Js.Number_toString (2 ^ 60) = "1152921504606847000" /\
  Js.Number_toString (10 ^ 21 - 1) = "1e+21" /\
  Js.Number_toString (10 ^ 21) = "1e+21" /\
  Js.Number_toString 12345678901234567890123 = "1.2345678901234568e+22" /\
  Js.Number_toString (- 10 ^ 23) = "-1e+23".
Proof. vm_compute. repeat split. Qed.

Lemma not_string_false (s : string) : Js.not_string s = false <-> s <> EmptyString.
Proof. destruct s; simpl; split; congruence. Qed.

End JsTheory.

Module InventoryRoutesTheory.
Import Inventory Reservations InventoryRoutes.

Lemma invalid_item_false (items : list RequestItem.t) :
  invalid_item items = false <->
  Forall (fun item => RequestItem.sku item <> EmptyString /\
                      0 < RequestItem.quantity item) items.
Proof.
  induction items as [|item rest IH]; simpl.
  - split; [constructor | reflexivity].
  - destruct (Js.not_string (RequestItem.sku item)) eqn:Es; simpl.
    + split; [discriminate|]. intro H. inversion H as [|? ? [H1 _] _]; subst.
      apply JsTheory.not_string_false in H1. congruence.
    + apply JsTheory.not_string_false in Es.
      destruct (Z.leb_spec (RequestItem.quantity item) 0) as [Hq|Hq].
      * split; [discriminate|]. intro H. inversion H as [|? ? [_ H2] _]; subst. lia.
      * rewrite IH. split.
        -- intro H. constructor; [split; assumption | exact H].
        -- intro H. inversion H; assumption.
Qed.

(** The two checks of the handler pass exactly on the well-formed bodies. *)
Lemma well_formed_checks (request : ReserveInventoryRequest.t) :
  (Js.not_string (ReserveInventoryRequest.order_id request)
   || Js.not_array (ReserveInventoryRequest.items request)
   || Nat.eqb (List.length (ReserveInventoryRequest.items request)) 0) = false /\
  invalid_item (ReserveInventoryRequest.items request) = false
  <-> well_formed request.
Proof.
  unfold well_formed, Js.not_array. rewrite orb_false_r.
  rewrite invalid_item_false, orb_false_iff, JsTheory.not_string_false.
  destruct (ReserveInventoryRequest.items request) as [|item rest]; simpl.
  - split; [intros [[_ H] _]; discriminate | intros [_ [H _]]; congruence].
  - split; [intros [[H1 _] H2] | intros [H1 [_ H2]]]; repeat split;
      try assumption; discriminate.
Qed.

(** ** The loop of [reserveInventory] on known and on unknown SKUs *)

Lemma sku_row_unique (inv : list InventoryItem.t) (it cur : InventoryItem.t) :
  NoDup (map InventoryItem.sku inv) -> In it inv -> In cur inv ->
  InventoryItem.sku it = InventoryItem.sku cur -> it = cur.
Proof.
  intros Hnd Hit Hcur Hs.
  pose proof (InventoryTheory.filter_sku_unique _ _ Hnd Hit) as F1.
  pose proof (InventoryTheory.filter_sku_unique _ _ Hnd Hcur) as F2.
  rewrite Hs, F2 in F1. inversion F1. reflexivity.
Qed.

Lemma lookup_debited (env : Env) (item : RequestItem.t) (db : DB)
    (rs : list InventoryReservation.t) (sku : string) :
  lookup (mkDB (orders db)
            (map (fun it => if String.eqb (InventoryItem.sku it) (RequestItem.sku item)
                            then debit env (RequestItem.quantity item) it else it)
                 (inventory db)) rs) sku
  = option_map (step_item env item) (lookup db sku).
Proof.
  rewrite (InventoryTheory.lookup_reservations _ _ _ (inventory_reservations db)).
  change (map _ (inventory db)) with (map (step_item env item) (inventory db)).
  apply (InventoryTheory.lookup_map (step_item env item) db _
           (InventoryTheory.step_item_sku env item)).
Qed.

(** With the order, the SKUs and the keys in place, the only error the loop
    can end in is 'Insufficient stock'. *)
Lemma reserve_loop_known (env : Env) (o : uuid) (e : Z) :
  forall (items : list RequestItem.t) (k : nat)
         (acc : list InventoryReservation.t) (db : DB),
  storable e ->
  In o (orders db) ->
  Forall (fun item => 0 < RequestItem.quantity item) items ->
  Forall (fun item => lookup db (RequestItem.sku item) <> None) items ->
  Forall (fun it => InventoryItem.check it = None) (inventory db) ->
  NoDup (map InventoryItem.sku (inventory db)) ->
  NoDup (map (gen_random_uuid env) (seq k (List.length items))) ->
  Forall (fun key => ~ In key (map InventoryReservation.id (inventory_reservations db)))
         (map (gen_random_uuid env) (seq k (List.length items))) ->
  (exists rs db', reserve_loop env o e items k acc db = Tx.Ok (rs, db')) \/
  (exists item a,
     In item items /\ a < RequestItem.quantity item /\
     reserve_loop env o e items k acc db
     = Tx.Err (Tx.Insufficient_stock (RequestItem.sku item) a
                 (RequestItem.quantity item))).
Proof.
  induction items as [|item rest IH];
    intros k acc db He Ho Hq Hknown Hck Hsku Hnd Hnew.
  - left. exists acc, db. reflexivity.
  - rewrite InventoryTheory.reserve_loop_cons.
    inversion Hq as [|? ? Hq0 Hqs]; subst.
    inversion Hknown as [|? ? Hk0 Hks]; subst.
    simpl in Hnd, Hnew.
    inversion Hnd as [|? ? Hk Hnd']; subst.
    inversion Hnew as [|? ? Hkey Hnew']; subst.
    destruct (lookup db (RequestItem.sku item)) as [cur|] eqn:El; [|congruence].
    apply InventoryTheory.lookup_In in El as [Hcur Hs].
    destruct (Z.ltb_spec (InventoryItem.available_quantity cur)
                (RequestItem.quantity item)) as [Hlt|Hge].
    { right. exists item, (InventoryItem.available_quantity cur).
      split; [left; reflexivity|]. split; [exact Hlt | reflexivity]. }
    rewrite Forall_forall in Hck.
    assert (Hgo : forall it, In it (inventory db) ->
              String.eqb (InventoryItem.sku it) (RequestItem.sku item) = true ->
              InventoryItem.check (debit env (RequestItem.quantity item) it) = None).
    { intros it Hin Hit. apply String.eqb_eq in Hit.
      assert (it = cur) by (apply (sku_row_unique _ _ _ Hsku Hin Hcur); congruence).
      subst it. apply InventoryTheory.check_none.
      pose proof (Hck cur Hcur) as Hc. apply InventoryTheory.check_none in Hc.
      simpl. lia. }
    rewrite InventoryTheory.update_inventory_run
      by (apply Forall_forall; exact Hgo).
    rewrite InventoryTheory.insert_reservation_run; simpl.
    + destruct (IH (S k) (acc ++ [InventoryReservation.mk (gen_random_uuid env k) o
                                    (RequestItem.sku item) (RequestItem.quantity item)
                                    RESERVED e (CURRENT_TIMESTAMP env)
                                    (CURRENT_TIMESTAMP env)])
                  (mkDB (orders db)
                     (map (fun it => if String.eqb (InventoryItem.sku it)
                                          (RequestItem.sku item)
                                     then debit env (RequestItem.quantity item) it
                                     else it) (inventory db))
                     (inventory_reservations db
                      ++ [InventoryReservation.mk (gen_random_uuid env k) o
                            (RequestItem.sku item) (RequestItem.quantity item)
                            RESERVED e (CURRENT_TIMESTAMP env)
                            (CURRENT_TIMESTAMP env)])))
        as [H|(bad & a & Hin & Ha & H)]; simpl.
      * exact He.
      * exact Ho.
      * exact Hqs.
      * apply Forall_forall. intros x Hx.
        rewrite Forall_forall in Hks. specialize (Hks x Hx).
        rewrite lookup_debited.
        destruct (lookup db (RequestItem.sku x)); simpl; congruence.
      * apply Forall_forall. intros x Hx.
        apply in_map_iff in Hx as (it & <- & Hin).
        destruct (String.eqb _ _) eqn:Hit; [apply Hgo; assumption | apply Hck; exact Hin].
      * rewrite map_map.
        rewrite (map_ext _ InventoryItem.sku); [exact Hsku|].
        intro it. destruct (String.eqb _ _); reflexivity.
      * exact Hnd'.
      * rewrite Forall_forall in *. intros key Hin.
        rewrite map_app. simpl. intros Hc. apply in_app_or in Hc as [Hc|[Hc|[]]].
        -- exact (Hnew' key Hin Hc).
        -- apply Hk. rewrite Hc. exact Hin.
      * left. exact H.
      * right. exists bad, a. split; [right; exact Hin|]. split; [exact Ha | exact H].
    + exact Hq0.
    + exact Ho.
    + exact Hkey.
    + rewrite map_map. apply in_map_iff. exists cur. split; [|exact Hcur].
      rewrite <- Hs. destruct (String.eqb _ _); reflexivity.
    + exact He.
Qed.

(** A batch that went through asked of no row more than it had. *)
Lemma reserve_loop_within_stock (env : Env) (o : uuid) (e : Z)
    (items : list RequestItem.t) (k : nat) (acc rs : list InventoryReservation.t)
    (db db' : DB) :
  reserve_loop env o e items k acc db = Tx.Ok (rs, db') ->
  Forall (fun it => InventoryItem.check it = None) (inventory db) ->
  Forall (fun it => requested items (InventoryItem.sku it)
                    <= InventoryItem.available_quantity it) (inventory db).
Proof.
  intros H Hck.
  pose proof (InventoryTheory.reserve_loop_check _ _ _ _ _ _ _ _ _ H Hck) as Hck'.
  apply InventoryTheory.reserve_loop_ok in H. destruct H as (_ & Hinv & _).
  rewrite Hinv in Hck'. rewrite Forall_map in Hck'.
  rewrite Forall_forall in *. intros it Hit. specialize (Hck' it Hit).
  apply InventoryTheory.check_none in Hck'.
  destruct (InventoryTheory.shift_moved env items it)
    as (_ & _ & _ & _ & _ & _ & A7 & _). lia.
Qed.

(** When stock suffices and the order and the keys are in place, the loop
    ends at the first item whose SKU is unknown. *)
Lemma reserve_loop_unknown (env : Env) (o : uuid) (e : Z) :
  forall (items : list RequestItem.t) (k : nat)
         (acc : list InventoryReservation.t) (db : DB),
  storable e ->
  In o (orders db) ->
  Forall (fun item => 0 < RequestItem.quantity item) items ->
  Exists (fun item => lookup db (RequestItem.sku item) = None) items ->
  Forall (fun it => InventoryItem.check it = None) (inventory db) ->
  Forall (fun it => requested items (InventoryItem.sku it)
                    <= InventoryItem.available_quantity it) (inventory db) ->
  NoDup (map (gen_random_uuid env) (seq k (List.length items))) ->
  Forall (fun key => ~ In key (map InventoryReservation.id (inventory_reservations db)))
         (map (gen_random_uuid env) (seq k (List.length items))) ->
  exists item,
    In item items /\ lookup db (RequestItem.sku item) = None /\
    reserve_loop env o e items k acc db
    = Tx.Err (Tx.Item_not_found (RequestItem.sku item)).
Proof.
  induction items as [|item rest IH];
    intros k acc db He Ho Hq Hex Hck Hreq Hnd Hnew.
  - inversion Hex.
  - rewrite InventoryTheory.reserve_loop_cons.
    inversion Hq as [|? ? Hq0 Hqs]; subst.
    simpl in Hnd, Hnew.
    inversion Hnd as [|? ? Hk Hnd']; subst.
    inversion Hnew as [|? ? Hkey Hnew']; subst.
    pose proof (fun s => InventoryTheory.requested_nonneg rest s Hqs) as Hnn.
    destruct (lookup db (RequestItem.sku item)) as [cur|] eqn:El.
    2:{ exists item. split; [left; reflexivity|]. split; [exact El | reflexivity]. }
    assert (Hrest : Exists (fun item => lookup db (RequestItem.sku item) = None) rest).
    { inversion Hex as [? ? H|? ? H]; subst; [congruence | exact H]. }
    apply InventoryTheory.lookup_In in El as [Hcur Hs].
    rewrite Forall_forall in Hck, Hreq.
    assert (Hgo : forall it, In it (inventory db) ->
              String.eqb (InventoryItem.sku it) (RequestItem.sku item) = true ->
              RequestItem.quantity item + requested rest (InventoryItem.sku it)
              <= InventoryItem.available_quantity it).
    { intros it Hin Hit. specialize (Hreq it Hin). simpl in Hreq.
      rewrite String.eqb_sym, Hit in Hreq. exact Hreq. }
    destruct (Z.ltb_spec (InventoryItem.available_quantity cur)
                (RequestItem.quantity item)) as [Hlt|_].
    { exfalso. specialize (Hgo cur Hcur). rewrite Hs, String.eqb_refl in Hgo.
      specialize (Hgo eq_refl). specialize (Hnn (RequestItem.sku item)). lia. }
    rewrite InventoryTheory.update_inventory_run.
    2:{ apply Forall_forall. intros it Hin Hit.
        apply InventoryTheory.check_none. pose proof (Hck it Hin) as Hc.
        apply InventoryTheory.check_none in Hc. specialize (Hgo it Hin Hit).
        specialize (Hnn (InventoryItem.sku it)). simpl. lia. }
    rewrite InventoryTheory.insert_reservation_run; simpl.
    + destruct (IH (S k) (acc ++ [InventoryReservation.mk (gen_random_uuid env k) o
                                    (RequestItem.sku item) (RequestItem.quantity item)
                                    RESERVED e (CURRENT_TIMESTAMP env)
                                    (CURRENT_TIMESTAMP env)])
                  (mkDB (orders db)
                     (map (fun it => if String.eqb (InventoryItem.sku it)
                                          (RequestItem.sku item)
                                     then debit env (RequestItem.quantity item) it
                                     else it) (inventory db))
                     (inventory_reservations db
                      ++ [InventoryReservation.mk (gen_random_uuid env k) o
                            (RequestItem.sku item) (RequestItem.quantity item)
                            RESERVED e (CURRENT_TIMESTAMP env)
                            (CURRENT_TIMESTAMP env)])))
        as (bad & Hin & Hbad & H); simpl.
      * exact He.
      * exact Ho.
      * exact Hqs.
      * apply Exists_exists in Hrest as (x & Hx & Hnone).
        apply Exists_exists. exists x. split; [exact Hx|].
        rewrite lookup_debited, Hnone. reflexivity.
      * apply Forall_forall. intros x Hx.
        apply in_map_iff in Hx as (it & <- & Hin).
        destruct (String.eqb _ _) eqn:Hit; [|apply Hck; exact Hin].
        apply InventoryTheory.check_none. pose proof (Hck it Hin) as Hc.
        apply InventoryTheory.check_none in Hc. specialize (Hgo it Hin Hit).
        specialize (Hnn (InventoryItem.sku it)). simpl. lia.
      * apply Forall_forall. intros x Hx.
        apply in_map_iff in Hx as (it & <- & Hin).
        destruct (String.eqb _ _) eqn:Hit; simpl.
        -- specialize (Hgo it Hin Hit). lia.
        -- specialize (Hreq it Hin). simpl in Hreq.
           rewrite String.eqb_sym, Hit in Hreq. lia.
      * exact Hnd'.
      * rewrite Forall_forall in *. intros key Hin.
        rewrite map_app. simpl. intros Hc. apply in_app_or in Hc as [Hc|[Hc|[]]].
        -- exact (Hnew' key Hin Hc).
        -- apply Hk. rewrite Hc. exact Hin.
      * exists bad. split; [right; exact Hin|]. split; [|exact H].
        rewrite lookup_debited in Hbad.
        destruct (lookup db (RequestItem.sku bad)); [discriminate | reflexivity].
    + exact Hq0.
    + exact Ho.
    + exact Hkey.
    + rewrite map_map. apply in_map_iff. exists cur. split; [|exact Hcur].
      rewrite <- Hs. destruct (String.eqb _ _); reflexivity.
    + exact He.
Qed.

Section Server.

Variable pg_message : string -> string.

Lemma post_inventory_reserve_well_formed (env : Env) (db : DB)
    (request : ReserveInventoryRequest.t) :
  well_formed request ->
  post_inventory_reserve pg_message env db request =
  match reserveInventory env db request with
  | (db', Tx.Ok reservations) =>
      (db', Http.send 201
              (Http.ApiSuccess true (Some reservations)
                 (Some "Inventory reserved successfully")))
  | (db', Tx.Err error) =>
      if Js.includes (Js.message pg_message error) "Insufficient stock"
      then (db', Http.send 409 (Http.ApiError (Js.message pg_message error)))
      else (db', Http.send 500 (Http.ApiError "Internal server error"))
  end.
Proof.
  intro H. apply well_formed_checks in H. destruct H as [H1 H2].
  unfold post_inventory_reserve. rewrite H1, H2. reflexivity.
Qed.

Lemma post_inventory_reserve_malformed (env : Env) (db : DB)
    (request : ReserveInventoryRequest.t) :
  ~ well_formed request ->
  fst (post_inventory_reserve pg_message env db request) = db /\
  Http.statusCode (snd (post_inventory_reserve pg_message env db request)) = 400.
Proof.
  intro H. unfold post_inventory_reserve.
  destruct (Js.not_string (ReserveInventoryRequest.order_id request)
            || Js.not_array (ReserveInventoryRequest.items request)
            || Nat.eqb (List.length (ReserveInventoryRequest.items request)) 0) eqn:E1;
    [split; reflexivity|].
  destruct (invalid_item (ReserveInventoryRequest.items request)) eqn:E2;
    [split; reflexivity|].
  exfalso. apply H. apply well_formed_checks. split; assumption.
Qed.

(** X7: what POST /inventory/reserve answers.  The status is 201, 400, 409
    or 500.  It is 400 exactly for a body that is not well formed (empty
    order_id, no items, or an item with an empty SKU or a quantity that is
    not positive), and then reserveInventory is not called.  It is 201
    exactly when the body is well formed and reserveInventory succeeds, and
    the reply then carries the created reservations.  Every other status
    means that the tables are as they were; a 409 carries the message of
    the error, which contains 'Insufficient stock'. *)
Theorem post_inventory_reserve_replies (env : Env) (db : DB)
    (request : ReserveInventoryRequest.t) :
  let out := post_inventory_reserve pg_message env db request in
  let code := Http.statusCode (snd out) in
  (code = 201 \/ code = 400 \/ code = 409 \/ code = 500) /\
  (code = 400 <-> ~ well_formed request) /\
  (code = 201 <->
   well_formed request /\
   exists rs,
     reserveInventory env db request = (fst out, Tx.Ok rs) /\
     Http.payload (snd out)
     = Http.ApiSuccess true (Some rs) (Some "Inventory reserved successfully")) /\
  (code <> 201 -> fst out = db) /\
  (code = 409 ->
   exists text,
     Http.payload (snd out) = Http.ApiError text /\
     Js.includes text "Insufficient stock" = true).
Proof.
  intros out code. subst code out.
  destruct (invalid_item (ReserveInventoryRequest.items request)) eqn:E2.
  - assert (Hn : ~ well_formed request).
    { intro H. apply well_formed_checks in H. destruct H as [_ H]. congruence. }
    destruct (post_inventory_reserve_malformed env db request Hn) as [Hdb Hcode].
    rewrite Hcode, Hdb.
    split; [tauto|]. split; [tauto|]. split; [|split]; try discriminate.
    + split; [discriminate | tauto].
    + reflexivity.
  - destruct (Js.not_string (ReserveInventoryRequest.order_id request)
              || Js.not_array (ReserveInventoryRequest.items request)
              || Nat.eqb (List.length (ReserveInventoryRequest.items request)) 0) eqn:E1.
    + assert (Hn : ~ well_formed request).
      { intro H. apply well_formed_checks in H. destruct H as [H _]. congruence. }
      destruct (post_inventory_reserve_malformed env db request Hn) as [Hdb Hcode].
      rewrite Hcode, Hdb.
      split; [tauto|]. split; [tauto|]. split; [|split]; try discriminate.
      * split; [discriminate | tauto].
      * reflexivity.
    + assert (Hw : well_formed request) by (apply well_formed_checks; split; assumption).
      rewrite (post_inventory_reserve_well_formed env db request Hw).
      destruct (reserveInventory env db request) as [db' [rs|err]] eqn:E.
      * cbn [fst snd Http.send Http.statusCode Http.payload].
        split; [tauto|]. split; [split; [discriminate | tauto]|].
        split; [|split]; try discriminate; try congruence.
        split; [|reflexivity]. intros _. split; [exact Hw|].
        exists rs. split; reflexivity.
      * unfold reserveInventory in E.
        apply InventoryTheory.transaction_rollback in E. subst db'.
        destruct (Js.includes (Js.message pg_message err) "Insufficient stock") eqn:Ei;
          cbn [fst snd Http.send Http.statusCode Http.payload].
        -- split; [tauto|]. split; [split; [discriminate | tauto]|].
           split; [split; [discriminate | intros [_ (rs & H & _)]; discriminate H]|].
           split; [reflexivity|]. intros _. eexists. split; [reflexivity | exact Ei].
        -- split; [tauto|]. split; [split; [discriminate | tauto]|].
           split; [split; [discriminate | intros [_ (rs & H & _)]; discriminate H]|].
           split; [reflexivity | discriminate].
Qed.


(** X8: with the order, the SKUs, the ids and the expiry in place, stock
    decides between 201 and 409.  For a well-formed body, on rows that
    satisfy the schema (CHECK constraints, UNIQUE sku), an existing order,
    SKUs that are all known, reservation ids that are new and an expiry
    (the minutes given, or 30, after Date.now()) that a Date and the column
    can hold: the reply is 201 if no SKU is asked for more, over the whole
    batch, than its available_quantity; otherwise it is 409, the tables are
    unchanged, and the error text is the 'Insufficient stock' message for
    an item of the batch, with an available quantity below the quantity
    requested, both printed as JavaScript prints a number.  It is not
    500. *)
Theorem post_inventory_reserve_stock (env : Env) (db : DB)
    (request : ReserveInventoryRequest.t) :
  let items := ReserveInventoryRequest.items request in
  let keys := map (gen_random_uuid env) (seq 0 (List.length items)) in
  let out := post_inventory_reserve pg_message env db request in
  well_formed request ->
  schema_ok db ->
  NoDup (map InventoryItem.sku (inventory db)) ->
  In (ReserveInventoryRequest.order_id request) (orders db) ->
  Forall (fun item => lookup db (RequestItem.sku item) <> None) items ->
  NoDup keys ->
  Forall (fun key => ~ In key (map InventoryReservation.id (inventory_reservations db)))
         keys ->
  storable (expiry env request) ->
  (Forall (fun it => requested items (InventoryItem.sku it)
                     <= InventoryItem.available_quantity it) (inventory db) ->
   Http.statusCode (snd out) = 201) /\
  (~ Forall (fun it => requested items (InventoryItem.sku it)
                       <= InventoryItem.available_quantity it) (inventory db) ->
   fst out = db /\
   exists item a,
     In item items /\ a < RequestItem.quantity item /\
     snd out = Http.send 409
                 (Http.ApiError
                    (Js.message pg_message
                       (Tx.Insufficient_stock (RequestItem.sku item) a
                          (RequestItem.quantity item))))).
Proof.
  intros items keys out Hw [Hck _] Hsku Ho Hknown Hnd Hnew He. subst out.
  rewrite <- InventoryTheory.expiry_expires_at_of in He.
  rewrite (post_inventory_reserve_well_formed env db request Hw).
  assert (Hq : Forall (fun item => 0 < RequestItem.quantity item) items).
  { destruct Hw as (_ & _ & Hw). eapply Forall_impl; [|exact Hw].
    intros item [_ H]. exact H. }
  unfold reserveInventory.
  destruct (reserve_loop_known env (ReserveInventoryRequest.order_id request)
              (expires_at_of env request) items 0 [] db
              He Ho Hq Hknown Hck Hsku Hnd Hnew)
    as [(rs & db' & E)|(item & a & Hin & Ha & E)]; fold items.
  - rewrite (InventoryTheory.transaction_ok _ _ _ _ E).
    split; [reflexivity|]. intro Hn. exfalso. apply Hn.
    exact (reserve_loop_within_stock _ _ _ _ _ _ _ _ _ E Hck).
  - rewrite (InventoryTheory.transaction_err _ _ _ E).
    rewrite JsTheory.insufficient_stock_message.
    split.
    + intro Hreq. exfalso.
      destruct (InventoryTheory.reserve_loop_admissible env
                  (ReserveInventoryRequest.order_id request)
                  (expires_at_of env request) items 0 [] db
                  (fun _ => Ho) Hq Hknown Hck Hreq Hnd Hnew (fun _ => He))
        as (rs & db' & E').
      congruence.
    + intros _. split; [reflexivity|].
      exists item, a. split; [exact Hin|]. split; [exact Ha | reflexivity].
Qed.

(** X9: an unknown SKU is answered 500.  For a well-formed body, on rows
    that satisfy the CHECK constraints, an existing order, new reservation
    ids, stock that covers the batch and an expiry (the minutes given, or
    30, after Date.now()) that a Date and the column can hold: if an item
    names a SKU the inventory does not have, the tables are unchanged and the reply is 500
    'Internal server error' (the message 'Item with SKU ... not found' is
    not passed on), unless the SKU itself contains the text 'Insufficient
    stock', in which case it is 409 with that message. *)
Theorem post_inventory_reserve_unknown_sku (env : Env) (db : DB)
    (request : ReserveInventoryRequest.t) :
  let items := ReserveInventoryRequest.items request in
  let keys := map (gen_random_uuid env) (seq 0 (List.length items)) in
  well_formed request ->
  schema_ok db ->
  In (ReserveInventoryRequest.order_id request) (orders db) ->
  Forall (fun it => requested items (InventoryItem.sku it)
                    <= InventoryItem.available_quantity it) (inventory db) ->
  NoDup keys ->
  Forall (fun key => ~ In key (map InventoryReservation.id (inventory_reservations db)))
         keys ->
  storable (expiry env request) ->
  Exists (fun item => lookup db (RequestItem.sku item) = None) items ->
  exists item,
    In item items /\ lookup db (RequestItem.sku item) = None /\
    post_inventory_reserve pg_message env db request =
    (db, if Js.includes (RequestItem.sku item) "Insufficient stock"
         then Http.send 409
                (Http.ApiError
                   ("Item with SKU " ++ RequestItem.sku item ++ " not found")%string)
         else Http.send 500 (Http.ApiError "Internal server error")).
Proof.
  intros items keys Hw [Hck _] Ho Hreq Hnd Hnew He Hex.
  rewrite <- InventoryTheory.expiry_expires_at_of in He.
  rewrite (post_inventory_reserve_well_formed env db request Hw).
  assert (Hq : Forall (fun item => 0 < RequestItem.quantity item) items).
  { destruct Hw as (_ & _ & Hw). eapply Forall_impl; [|exact Hw].
    intros item [_ H]. exact H. }
  destruct (reserve_loop_unknown env (ReserveInventoryRequest.order_id request)
              (expires_at_of env request) items 0 [] db
              He Ho Hq Hex Hck Hreq Hnd Hnew) as (item & Hin & Hnone & E).
  exists item. split; [exact Hin|]. split; [exact Hnone|].
  unfold reserveInventory. fold items.
  rewrite (InventoryTheory.transaction_err _ _ _ E).
  rewrite JsTheory.item_not_found_message.
  destruct (Js.includes (RequestItem.sku item) "Insufficient stock"); reflexivity.
Qed.

(** X10: confirming and releasing never report a missing reservation.
    POST /inventory/confirm/:orderId always answers 200, and it leaves the
    tables as they are when the order has no RESERVED reservation.  On
    tables that are consistent (CHECK constraints hold, reserved_quantity
    covers the live reservations), POST /inventory/release answers 400 for
    an empty order_id and 200 otherwise, and it leaves the tables as they
    are when the order has no RESERVED or CONFIRMED reservation: neither
    route has a 404. *)
Theorem confirm_release_routes (env : Env) (db : DB) :
  (forall orderId,
     snd (post_inventory_confirm env db orderId)
     = Http.send 200
         (Http.ApiSuccess true None (Some "Inventory reservation confirmed")) /\
     (Forall (fun r => InventoryReservation.order_id r = orderId ->
                       InventoryReservation.status r <> RESERVED)
             (inventory_reservations db) ->
      fst (post_inventory_confirm env db orderId) = db)) /\
  (forall request,
     consistent db ->
     Http.statusCode (snd (post_inventory_release env db request))
     = (if Js.not_string (ReleaseInventoryRequest.order_id request)
        then 400 else 200) /\
     (Forall (fun r => active (ReleaseInventoryRequest.order_id request) r = false)
             (inventory_reservations db) ->
      fst (post_inventory_release env db request) = db)).
Proof.
  split.
  - intro orderId. unfold post_inventory_confirm.
    rewrite ReservationsTheory.confirmReservation_run. cbn [fst snd].
    split; [reflexivity|]. intro H.
    destruct db as [os inv rs]. cbn [orders inventory inventory_reservations] in *.
    f_equal. apply ReservationsTheory.map_unless.
    eapply Forall_impl; [|exact H]. intros r Hr. cbv beta in Hr.
    destruct (String.eqb (InventoryReservation.order_id r) orderId) eqn:Eo;
      [|reflexivity].
    apply String.eqb_eq in Eo. specialize (Hr Eo). simpl.
    destruct (InventoryReservation.status r); try reflexivity. congruence.
  - intros request [[Hck Hqty] Hbacked]. unfold post_inventory_release.
    destruct (Js.not_string (ReleaseInventoryRequest.order_id request));
      [split; reflexivity|].
    rewrite InventoryTheory.releaseReservation_body.
    rewrite InventoryTheory.release_loop_run.
    + cbn [fst snd orders inventory inventory_reservations Http.send Http.statusCode].
      split; [reflexivity|]. intro H.
      rewrite (ReservationsTheory.filter_none _ _ H).
      rewrite (ReservationsTheory.map_unless _ _ _ H).
      destruct db as [os inv rs]. cbn [orders inventory inventory_reservations].
      f_equal. rewrite <- (map_id inv) at 2. apply map_ext. intro it. reflexivity.
    + apply Forall_forall. intros r Hr. apply filter_In in Hr. destruct Hr as [Hr _].
      rewrite Forall_forall in Hqty. exact (Hqty r Hr).
    + exact Hck.
    + unfold backed in Hbacked. rewrite Forall_forall in *. intros it Hit.
      specialize (Hbacked it Hit). rewrite InventoryTheory.held_filter.
      pose proof (InventoryTheory.held_le
                    (active (ReleaseInventoryRequest.order_id request)) live
                    (inventory_reservations db) (InventoryItem.sku it)
                    (InventoryTheory.active_live _)) as Hle.
      assert (Hq : Forall (fun r => 0 < InventoryReservation.quantity r)
                     (inventory_reservations db)) by (apply Forall_forall; exact Hqty).
      specialize (Hle Hq). lia.
Qed.

(** X11: the two read routes.  GET /inventory/:sku and POST
    /inventory/check-availability leave the tables untouched.  The first
    answers 404 exactly when no row has the SKU.  The second answers 400
    exactly when the SKU is empty or the quantity is not positive; otherwise
    it answers 200, also for a SKU no row has (is_available is then false,
    there is no 404), and is_available is true exactly when the row GET
    /inventory/:sku would return has at least the quantity asked for. *)
Theorem inventory_read_routes (db : DB) (sku : string) (q : Z) :
  let get := get_inventory_sku db sku in
  let check :=
    post_inventory_check_availability db (CheckAvailabilityRequest.mk sku q) in
  fst get = db /\ fst check = db /\
  (Http.statusCode (snd get) = 404 <-> getInventoryItem db sku = None) /\
  (getInventoryItem db sku = None <-> ~ In sku (map InventoryItem.sku (inventory db))) /\
  (Http.statusCode (snd check) = 400 <-> sku = EmptyString \/ q <= 0) /\
  (sku <> EmptyString -> 0 < q ->
   exists a,
     snd check = Http.send 200 (Http.ApiSuccess true (Some a) None) /\
     (AvailabilityCheck.is_available a = true <->
      exists item, snd get = Http.send 200 (Http.ApiSuccess true (Some item) None) /\
                   q <= InventoryItem.available_quantity item)).
Proof.
  intros get check. subst get check.
  unfold get_inventory_sku, post_inventory_check_availability, getInventoryItem,
    checkAvailability.
  cbn [CheckAvailabilityRequest.sku CheckAvailabilityRequest.quantity].
  split; [destruct (filter _ (inventory db)); reflexivity|].
  split; [destruct (Js.not_string sku || (q <=? 0));
          [|destruct (filter _ (inventory db))]; reflexivity|].
  split; [destruct (filter _ (inventory db)); simpl; split; congruence|].
  split.
  { destruct (filter (fun it => String.eqb (InventoryItem.sku it) sku) (inventory db))
      as [|item rest] eqn:E.
    - split; [|reflexivity]. intros _ Hin.
      apply in_map_iff in Hin as (it & Hs & Hit).
      assert (In it (filter (fun it => String.eqb (InventoryItem.sku it) sku)
                       (inventory db))).
      { apply filter_In. split; [exact Hit|]. apply String.eqb_eq. exact Hs. }
      rewrite E in H. exact H.
    - split; [discriminate|]. intro H. exfalso. apply H.
      assert (Hin : In item (filter (fun it => String.eqb (InventoryItem.sku it) sku)
                               (inventory db))) by (rewrite E; left; reflexivity).
      apply filter_In in Hin. destruct Hin as [Hin Hs]. apply String.eqb_eq in Hs.
      apply in_map_iff. exists item. split; assumption. }
  split.
  { destruct (Js.not_string sku) eqn:Es; simpl.
    - split; [|reflexivity]. intros _. left. destruct sku; [reflexivity|discriminate].
    - apply JsTheory.not_string_false in Es.
      destruct (Z.leb_spec q 0) as [Hq|Hq].
      + split; [|reflexivity]. intros _. right. exact Hq.
      + destruct (filter _ (inventory db)); simpl;
          (split; [discriminate | intros [H|H]; [congruence | lia]]). }
  intros Hs Hq. apply JsTheory.not_string_false in Hs. rewrite Hs.
  destruct (Z.leb_spec q 0) as [Hq'|_]; [lia|]. simpl.
  destruct (filter _ (inventory db)) as [|item rest]; simpl.
  - eexists. split; [reflexivity|]. simpl.
    split; [discriminate | intros (item & H & _); discriminate H].
  - eexists. split; [reflexivity|]. simpl. rewrite Z.leb_le. split.
    + intro H. exists item. split; [reflexivity | exact H].
    + intros (item' & H & Hle). inversion H. subst item'. exact Hle.
Qed.

(** ** Any sequence of requests *)

Lemma serve_run_call (db : DB) (r : request) :
  fst (serve pg_message db r) = db \/
  exists c, fst (serve pg_message db r) = run_call db c.
Proof.
  destruct r as [env body|env orderId|env body]; unfold serve.
  - unfold post_inventory_reserve.
    destruct (_ || _ || _); [left; reflexivity|].
    destruct (invalid_item _); [left; reflexivity|].
    right. exists (Reserve env body). unfold run_call.
    destruct (reserveInventory env db body) as [db' [rs|err]]; [reflexivity|].
    destruct (Js.includes _ _); reflexivity.
  - right. exists (Confirm env orderId). unfold run_call, post_inventory_confirm.
    rewrite ReservationsTheory.confirmReservation_run. reflexivity.
  - unfold post_inventory_release.
    destruct (Js.not_string _); [left; reflexivity|].
    right. exists (Release env body). unfold run_call.
    destruct (releaseReservation env db body) as [db' [u|err]]; reflexivity.
Qed.

Lemma serve_all_invariants (rs : list request) (db : DB) :
  consistent db ->
  consistent (serve_all pg_message db rs) /\
  map total_stock (inventory (serve_all pg_message db rs))
  = map total_stock (inventory db) /\
  orders (serve_all pg_message db rs) = orders db.
Proof.
  revert db. induction rs as [|r rs IH]; intros db Hc.
  - split; [exact Hc|]. split; reflexivity.
  - unfold serve_all. simpl.
    fold (serve_all pg_message (fst (serve pg_message db r)) rs).
    assert (H1 : consistent (fst (serve pg_message db r)) /\
                 map total_stock (inventory (fst (serve pg_message db r)))
                 = map total_stock (inventory db) /\
                 orders (fst (serve pg_message db r)) = orders db).
    { destruct (serve_run_call db r) as [->|(c & ->)].
      - split; [exact Hc|]. split; reflexivity.
      - split; [apply InventoryTheory.consistent_run_call; exact Hc|].
        split; [apply InventoryTheory.run_call_total_stock|].
        exact (proj1 (ReservationsTheory.run_call_lifecycle db c)). }
    destruct H1 as (Hc1 & Ht1 & Ho1).
    destruct (IH _ Hc1) as (Hc2 & Ht2 & Ho2).
    split; [exact Hc2|]. split; congruence.
Qed.

(** X29: whatever requests arrive, the stock adds up.  Starting from
    consistent tables (CHECK constraints hold, reserved_quantity covers the
    RESERVED and CONFIRMED reservations), after any sequence of POST
    /inventory/reserve, POST /inventory/confirm/:orderId and POST
    /inventory/release requests, whatever their bodies and however they are
    answered: the tables are consistent, available_quantity +
    reserved_quantity of every SKU is what it was, table orders is
    unchanged, and a confirm or release request that follows is not
    answered 500. *)
Theorem inventory_api_invariants (rs : list request) (db : DB) :
  let db' := serve_all pg_message db rs in
  consistent db ->
  consistent db' /\
  map total_stock (inventory db') = map total_stock (inventory db) /\
  orders db' = orders db /\
  (forall env orderId, snd (serve pg_message db' (PostConfirm env orderId)) = 200) /\
  (forall env body,
     snd (serve pg_message db' (PostRelease env body))
     = if Js.not_string (ReleaseInventoryRequest.order_id body) then 400 else 200).
Proof.
  intros db' Hc. subst db'.
  destruct (serve_all_invariants rs db Hc) as (Hc' & Ht & Ho).
  split; [exact Hc'|]. split; [exact Ht|]. split; [exact Ho|].
  set (db' := serve_all pg_message db rs) in *.
  split.
  - intros env orderId. unfold serve, post_inventory_confirm.
    rewrite ReservationsTheory.confirmReservation_run. reflexivity.
  - intros env body. unfold serve, post_inventory_release.
    destruct (Js.not_string (ReleaseInventoryRequest.order_id body)); [reflexivity|].
    destruct Hc' as [[Hck Hqty] Hbacked].
    rewrite InventoryTheory.releaseReservation_body.
    rewrite InventoryTheory.release_loop_run; [reflexivity| |exact Hck|].
    + apply Forall_forall. intros r Hr. apply filter_In in Hr. destruct Hr as [Hr _].
      rewrite Forall_forall in Hqty. exact (Hqty r Hr).
    + unfold backed in Hbacked. rewrite Forall_forall in *. intros it Hit.
      specialize (Hbacked it Hit). rewrite InventoryTheory.held_filter.
      pose proof (InventoryTheory.held_le
                    (active (ReleaseInventoryRequest.order_id body)) live
                    (inventory_reservations db') (InventoryItem.sku it)
                    (InventoryTheory.active_live _)) as Hle.
      assert (Hq : Forall (fun r => 0 < InventoryReservation.quantity r)
                     (inventory_reservations db')) by (apply Forall_forall; exact Hqty).
      specialize (Hle Hq). lia.
Qed.

End Server.

(** The sample tables satisfy the schema. *)
Lemma provisioned_schema_ok : schema_ok Sample.provisioned.
Proof. split; [each_row | constructor]. Qed.

Lemma provisioned_sku_unique :
  NoDup (map InventoryItem.sku (inventory Sample.provisioned)).
Proof. simpl. distinct. Qed.

Lemma inventory_api_invariants_witness :
  map total_stock
    (inventory
       (serve_all Scenario.pg_message Sample.provisioned
          [ PostReserve Sample.env1 Sample.reserve1;
            PostReserve Sample.env2 Scenario.reserve_too_many;
            PostConfirm Sample.env3 Sample.order1;
            PostRelease Sample.env4 Sample.release1 ]))
  = map total_stock (inventory Sample.provisioned).
Proof.
  apply (inventory_api_invariants Scenario.pg_message
           [ PostReserve Sample.env1 Sample.reserve1;
             PostReserve Sample.env2 Scenario.reserve_too_many;
             PostConfirm Sample.env3 Sample.order1;
             PostRelease Sample.env4 Sample.release1 ]
           Sample.provisioned).
  apply InventoryTheory.consistent_provisioned. each_row.
Defined.

Lemma post_inventory_reserve_replies_witness :
  fst (post_inventory_reserve Scenario.pg_message Sample.env2 Sample.provisioned
         Scenario.reserve_too_many) = Sample.provisioned.
Proof.
  apply (proj1 (proj2 (proj2 (proj2
           (post_inventory_reserve_replies Scenario.pg_message Sample.env2
              Sample.provisioned Scenario.reserve_too_many))))).
  vm_compute. discriminate.
Defined.

(** The 409 text shows the numbers as the template literal prints them, and
    an expiry that cannot be stored is answered 500 although the stock is
    there. *)
Example reserve_route_scenario :
  snd (post_inventory_reserve Scenario.pg_message Sample.env1 Sample.provisioned
         (ReserveInventoryRequest.mk Sample.order1
            [RequestItem.mk "item-001" (10 ^ 21)] None))
  = Http.send 409
      (Http.ApiError
         "Insufficient stock for item-001. Available: 100, Requested: 1e+21") /\
  post_inventory_reserve Scenario.pg_message Sample.env1 Sample.provisioned
    (ReserveInventoryRequest.mk Sample.order1
       [RequestItem.mk "item-001" 2] (Some 200000000000))
  = (Sample.provisioned, Http.send 500 (Http.ApiError "Internal server error")).
Proof. split; vm_compute; reflexivity. Qed.

Lemma post_inventory_reserve_stock_witness :
  Http.statusCode
    (snd (post_inventory_reserve Scenario.pg_message Sample.env1 Sample.provisioned
            Sample.reserve1)) = 201 /\
  exists item a,
    In item (ReserveInventoryRequest.items Scenario.reserve_too_many) /\
    a < RequestItem.quantity item /\
    snd (post_inventory_reserve Scenario.pg_message Sample.env2 Sample.provisioned
           Scenario.reserve_too_many)
    = Http.send 409
        (Http.ApiError
           (Js.message Scenario.pg_message
              (Tx.Insufficient_stock (RequestItem.sku item) a
                 (RequestItem.quantity item)))).
Proof.
  split.
  - refine (proj1 (post_inventory_reserve_stock Scenario.pg_message Sample.env1
                     Sample.provisioned Sample.reserve1 _ provisioned_schema_ok
                     provisioned_sku_unique _ _ _ _ _) _).
    + repeat split; try discriminate.
      repeat constructor; simpl; try discriminate.
    + left. reflexivity.
    + repeat constructor; simpl; discriminate.
    + simpl. distinct.
    + simpl. repeat constructor; simpl; tauto.
    + vm_compute. split; discriminate.
    + each_row.
  - refine (proj2 (proj2 (post_inventory_reserve_stock Scenario.pg_message Sample.env2
                     Sample.provisioned Scenario.reserve_too_many _
                     provisioned_schema_ok provisioned_sku_unique _ _ _ _ _) _)).
    + repeat split; try discriminate.
      repeat constructor; simpl; try discriminate.
    + right. left. reflexivity.
    + repeat constructor; simpl; discriminate.
    + simpl. distinct.
    + simpl. repeat constructor; simpl; tauto.
    + vm_compute. split; discriminate.
    + intro H. rewrite Forall_forall in H.
      specialize (H Sample.item4 (or_intror (or_intror (or_intror (or_introl eq_refl))))).
      vm_compute in H. apply H. reflexivity.
Defined.

Lemma post_inventory_reserve_unknown_sku_witness :
  exists item,
    In item (ReserveInventoryRequest.items Scenario.reserve_unknown) /\
    lookup Sample.provisioned (RequestItem.sku item) = None /\
    post_inventory_reserve Scenario.pg_message Sample.env1 Sample.provisioned
      Scenario.reserve_unknown
    = (Sample.provisioned,
       if Js.includes (RequestItem.sku item) "Insufficient stock"
       then Http.send 409
              (Http.ApiError
                 ("Item with SKU " ++ RequestItem.sku item ++ " not found")%string)
       else Http.send 500 (Http.ApiError "Internal server error")).
Proof.
  apply (post_inventory_reserve_unknown_sku Scenario.pg_message Sample.env1
           Sample.provisioned Scenario.reserve_unknown).
  - repeat split; try discriminate.
    repeat constructor; simpl; try discriminate.
  - exact provisioned_schema_ok.
  - right. left. reflexivity.
  - each_row.
  - simpl. distinct.
  - simpl. repeat constructor; simpl; tauto.
  - vm_compute. split; discriminate.
  - right. left. reflexivity.
Defined.

Lemma confirm_release_routes_witness :
  consistent Sample.reserved1 /\
  Http.statusCode
    (snd (post_inventory_release Sample.env3 Sample.reserved1
            (ReleaseInventoryRequest.mk Sample.order2))) = 200 /\
  fst (post_inventory_release Sample.env3 Sample.reserved1
         (ReleaseInventoryRequest.mk Sample.order2)) = Sample.reserved1.
Proof.
  assert (Hc : consistent Sample.reserved1).
  { split; [split|]; [each_row | each_row | unfold backed; each_row]. }
  split; [exact Hc|].
  destruct (proj2 (confirm_release_routes Sample.env3 Sample.reserved1)
              (ReleaseInventoryRequest.mk Sample.order2) Hc) as [H1 H2].
  split; [exact H1|]. apply H2. each_row.
Defined.

Lemma inventory_read_routes_witness :
  exists a,
    snd (post_inventory_check_availability Sample.provisioned
           (CheckAvailabilityRequest.mk "item-003" 200))
    = Http.send 200 (Http.ApiSuccess true (Some a) None) /\
    (AvailabilityCheck.is_available a = true <->
     exists item,
       snd (get_inventory_sku Sample.provisioned "item-003")
       = Http.send 200 (Http.ApiSuccess true (Some item) None) /\
       200 <= InventoryItem.available_quantity item).
Proof.
  refine (proj2 (proj2 (proj2 (proj2 (proj2
            (inventory_read_routes Sample.provisioned "item-003" 200))))) _ _).
  - discriminate.
  - reflexivity.
Defined.

End InventoryRoutesTheory.

(** * Properties of taking a payment *)

Module CheckoutTheory.
Import Payment.





Lemma existsb_id_In (ps : list PaymentTransaction.t) (id : uuid) :
  existsb (fun p => String.eqb (PaymentTransaction.id p) id) ps = true <->
  In id (map PaymentTransaction.id ps).
Proof.
  rewrite existsb_exists, in_map_iff. split.
  - intros (p & Hp & E). apply String.eqb_eq in E. exists p. split; assumption.
  - intros (p & E & Hp). exists p. split; [exact Hp | apply String.eqb_eq; exact E].
Qed.


(** What a successful INSERT says of the tables. *)
Lemma insert_payment_ok (row r : PaymentTransaction.t) (db db' : DB) :
  insert_payment row db = Tx.Ok (r, db') ->
  r = row /\ db' = mkDB (orders db) (payments db ++ [row]) /\
  ~ In (PaymentTransaction.id row) (map PaymentTransaction.id (payments db)) /\
  In (PaymentTransaction.order_id row) (orders db).
Proof.
  unfold insert_payment.
  destruct (existsb (fun p => String.eqb (PaymentTransaction.id p)
                                (PaymentTransaction.id row)) (payments db)) eqn:E1;
    [discriminate|].
  destruct (existsb (fun o => String.eqb o (PaymentTransaction.order_id row))
              (orders db)) eqn:E2; simpl; [|discriminate].
  intro H. inversion H. subst. repeat split.
  - intro Hin. apply existsb_id_In in Hin. congruence.
  - apply InventoryTheory.existsb_eqb_In. exact E2.
Qed.

Lemma NoDup_snoc {A : Type} (l : list A) (x : A) :
  NoDup l -> ~ In x l -> NoDup (l ++ [x]).
Proof.
  intros Hl Hx. apply NoDup_app; [exact Hl | repeat constructor; simpl; tauto |].
  intros y Hy [<-|[]]. exact (Hx Hy).
Qed.

Lemma schema_ok_append (db : DB) (row : PaymentTransaction.t) :
  schema_ok db ->
  ~ In (PaymentTransaction.id row) (map PaymentTransaction.id (payments db)) ->
  In (PaymentTransaction.order_id row) (orders db) ->
  schema_ok (mkDB (orders db) (payments db ++ [row])).
Proof.
  intros [Hnd Hfk] Hid Ho. split; simpl.
  - rewrite map_app. simpl. apply NoDup_snoc; assumption.
  - apply Forall_app. split; [exact Hfk|]. constructor; [exact Ho | constructor].
Qed.




(** ** The ledger only grows *)

Lemma run_call_append (db : DB) (c : Checkout.call) :
  schema_ok db ->
  schema_ok (Checkout.run_call db c) /\
  orders (Checkout.run_call db c) = orders db /\
  exists added,
    payments (Checkout.run_call db c) = payments db ++ added /\
    Forall (fun p => PaymentTransaction.status p <> PENDING) added.
Proof.
  intro Hs. destruct c as [env request|env request]; simpl.
  - unfold Checkout.processPayment.
    destruct (filter _ _).
    { simpl. split; [exact Hs|]. split; [reflexivity|].
      exists []. rewrite app_nil_r. split; [reflexivity | constructor]. }
    destruct (insert_payment _ db) as [[r db']|e] eqn:E.
    + apply insert_payment_ok in E. destruct E as (_ & -> & Hid & Ho). simpl.
      split; [apply schema_ok_append; assumption|]. split; [reflexivity|].
      eexists. split; [reflexivity|]. constructor; [|constructor].
      simpl. destruct (Checkout.simulatePaymentProcessing env request); discriminate.
    + simpl. split; [exact Hs|]. split; [reflexivity|].
      exists []. rewrite app_nil_r. split; [reflexivity | constructor].
  - destruct (refundPayment env db request) as [db' [r|e]] eqn:E; simpl.
    + destruct (PaymentTheory.refundPayment_schema_ok _ _ _ _ _ Hs E)
        as (Hs' & -> & original & _ & _ & _ & ->).
      split; [exact Hs'|]. split; [reflexivity|].
      eexists. split; [reflexivity|]. constructor; [|constructor].
      simpl. destruct (refund_succeeds env); discriminate.
    + unfold refundPayment in E. apply InventoryTheory.transaction_rollback in E.
      subst db'. split; [exact Hs|]. split; [reflexivity|].
      exists []. rewrite app_nil_r. split; [reflexivity | constructor].
Qed.

(** X13: payments is an append-only ledger.  Starting from a table with
    distinct ids whose rows reference existing orders, after any sequence
    of processPayment and refundPayment calls: the table still has distinct
    ids and valid references, table orders is unchanged, every row that was
    there is still there, unchanged and in place, followed by the rows
    written since (none of them PENDING), and getPaymentById returns for
    the id of an old row that very row.  No call updates or deletes a row;
    in particular a refunded payment keeps the status COMPLETED. *)
Theorem ledger_append_only (cs : list Checkout.call) (db : DB) :
  schema_ok db ->
  schema_ok (Checkout.run_calls db cs) /\
  orders (Checkout.run_calls db cs) = orders db /\
  (exists added,
     payments (Checkout.run_calls db cs) = payments db ++ added /\
     Forall (fun p => PaymentTransaction.status p <> PENDING) added) /\
  (forall p, In p (payments db) ->
     getPaymentById (Checkout.run_calls db cs) (PaymentTransaction.id p) = Some p).
Proof.
  intro Hs.
  assert (H : schema_ok (Checkout.run_calls db cs) /\
              orders (Checkout.run_calls db cs) = orders db /\
              exists added,
                payments (Checkout.run_calls db cs) = payments db ++ added /\
                Forall (fun p => PaymentTransaction.status p <> PENDING) added).
  { revert db Hs. induction cs as [|c cs IH]; intros db Hs.
    - split; [exact Hs|]. split; [reflexivity|].
      exists []. rewrite app_nil_r. split; [reflexivity | constructor].
    - unfold Checkout.run_calls. simpl. fold (Checkout.run_calls (Checkout.run_call db c) cs).
      destruct (run_call_append db c Hs) as (Hs1 & Ho1 & added1 & E1 & A1).
      destruct (IH _ Hs1) as (Hs2 & Ho2 & added2 & E2 & A2).
      split; [exact Hs2|]. split; [congruence|].
      exists (added1 ++ added2). split.
      + rewrite E2, E1, app_assoc. reflexivity.
      + apply Forall_app. split; assumption. }
  destruct H as (Hs' & Ho & added & E & A).
  split; [exact Hs'|]. split; [exact Ho|]. split; [exists added; split; assumption|].
  intros p Hp. apply PaymentTheory.select_payment_unique.
  - exact (proj1 Hs').
  - rewrite E. apply in_or_app. left. exact Hp.
Qed.

Lemma ledger_append_only_witness :
  getPaymentById
    (Checkout.run_calls Sample.ledger
       [ Checkout.Refund Sample.refund_env1 Sample.refund1;
         Checkout.Process Scenario.pay_env Scenario.pay_999;
         Checkout.Refund Sample.refund_env2 Sample.refund1 ])
    "pay-1"
  = Some Sample.payment1.
Proof.
  apply (proj2 (proj2 (proj2
           (ledger_append_only
              [ Checkout.Refund Sample.refund_env1 Sample.refund1;
                Checkout.Process Scenario.pay_env Scenario.pay_999;
                Checkout.Refund Sample.refund_env2 Sample.refund1 ]
              Sample.ledger PaymentTheory.sample_ledger_ok))) Sample.payment1).
  left. reflexivity.
Defined.

(** ** What a new row does to the summary *)

Lemma quadruple_eq {A B C D : Type} (a a' : A) (b b' : B) (c c' : C) (d d' : D) :
  (a, b, c, d) = (a', b', c', d') -> a = a' /\ b = b' /\ c = c' /\ d = d'.
Proof. intro H. inversion H. repeat split. Qed.

Lemma total_app (a b : list Z) : total (a ++ b) = total a + total b.
Proof.
  unfold total. induction a as [|x a IH]; simpl; [reflexivity|]. rewrite IH. lia.
Qed.

(** The totals, in closed form. *)
Lemma summary_totals (db : DB) (o : uuid) :
  Checkout.totals (getPaymentSummaryByOrderId db o) =
  (total (filter (fun a => 0 <? a)
            (map PaymentTransaction.amount_cents (counted db o))),
   Z.abs (total (filter (fun a => a <? 0)
                   (map PaymentTransaction.amount_cents (counted db o)))),
   total (map PaymentTransaction.amount_cents (counted db o)),
   Z.of_nat (List.length (counted db o))).
Proof.
  rewrite <- (PaymentTheory.counted_selected db o).
  unfold Checkout.totals, getPaymentSummaryByOrderId. simpl.
  rewrite !PaymentTheory.coalesce_sum, PaymentTheory.coalesce_abs_sum,
    PaymentTheory.total_positive, PaymentTheory.total_negative.
  reflexivity.
Qed.

Lemma totals_append (db : DB) (r : PaymentTransaction.t) (o : uuid) :
  let s := getPaymentSummaryByOrderId db o in
  let s' := getPaymentSummaryByOrderId (mkDB (orders db) (payments db ++ [r])) o in
  let a := PaymentTransaction.amount_cents r in
  Checkout.totals s' =
  if qualifying o r
  then (PaymentSummary.total_paid s + Z.max a 0,
        PaymentSummary.total_refunded s + Z.max (- a) 0,
        PaymentSummary.net_amount s + a,
        PaymentSummary.payment_count s + 1)
  else Checkout.totals s.
Proof.
  intros s s' a. subst s s'.
  pose proof (summary_totals db o) as H.
  pose proof (summary_totals (mkDB (orders db) (payments db ++ [r])) o) as H'.
  rewrite H'. clear H'.
  assert (Hc : counted (mkDB (orders db) (payments db ++ [r])) o
               = counted db o ++ (if qualifying o r then [r] else [])).
  { rewrite <- !PaymentTheory.counted_selected. cbn [payments].
    rewrite filter_app. simpl. destruct (qualifying o r); reflexivity. }
  rewrite Hc. clear Hc.
  destruct (qualifying o r) eqn:Eq.
  - unfold Checkout.totals in H. apply quadruple_eq in H. destruct H as (H1 & H2 & H3 & H4).
    rewrite H1, H2, H3, H4. clear H1 H2 H3 H4.
    set (old := counted db o).
    rewrite map_app, !filter_app, !total_app, length_app. simpl map.
    fold a. simpl List.length.
    pose proof (PaymentTheory.total_split (map PaymentTransaction.amount_cents old))
      as [_ Hneg].
    assert (Hp : total (filter (fun a => 0 <? a) [a]) = Z.max a 0)
      by (simpl; destruct (Z.ltb_spec 0 a); unfold total; simpl; lia).
    assert (Hn : total (filter (fun a => a <? 0) [a]) = - Z.max (- a) 0)
      by (simpl; destruct (Z.ltb_spec a 0); unfold total; simpl; lia).
    assert (Ha : total [a] = a) by (unfold total; simpl; lia).
    rewrite Hp, Hn, Ha.
    apply f_equal2; [apply f_equal2; [apply f_equal2|]|]; lia.
  - rewrite app_nil_r. symmetry. exact H.
Qed.

Lemma latest_append_newer (rows : list PaymentTransaction.t) (r : PaymentTransaction.t) :
  Forall (fun q => PaymentTransaction.created_at q < PaymentTransaction.created_at r)
         rows ->
  latest (rows ++ [r]) = Some r.
Proof.
  induction 1 as [|q rows Hq _ IH]; [reflexivity|].
  simpl. rewrite IH. apply Z.ltb_lt in Hq. rewrite Hq. reflexivity.
Qed.

Lemma summary_other_order (db : DB) (r : PaymentTransaction.t) (o : uuid) :
  PaymentTransaction.order_id r <> o ->
  getPaymentSummaryByOrderId (mkDB (orders db) (payments db ++ [r])) o
  = getPaymentSummaryByOrderId db o.
Proof.
  intro H. apply String.eqb_neq in H.
  unfold getPaymentSummaryByOrderId. cbn [payments].
  rewrite !filter_app. simpl. unfold qualifying. rewrite H. simpl.
  rewrite !app_nil_r. reflexivity.
Qed.

Lemma latest_status_append (db : DB) (r : PaymentTransaction.t) :
  let o := PaymentTransaction.order_id r in
  Forall (fun q => PaymentTransaction.created_at q < PaymentTransaction.created_at r)
         (of_order db o) ->
  PaymentSummary.latest_status
    (getPaymentSummaryByOrderId (mkDB (orders db) (payments db ++ [r])) o)
  = Some (PaymentTransaction.status r).
Proof.
  intros o H. unfold getPaymentSummaryByOrderId. cbn [payments]. simpl.
  rewrite filter_app. simpl. fold o. rewrite String.eqb_refl.
  unfold of_order in H. rewrite (latest_append_newer _ _ H). reflexivity.
Qed.

(** X14: what a payment does to the summary of its order.  When
    processPayment returns a row for amount a: if the gateway accepted it
    (COMPLETED), payment_count grows by one, net_amount by a, total_paid by
    a if a is positive, and total_refunded by -a if a is negative (the data
    layer itself does not insist on a positive amount); if the gateway
    declined it (FAILED), the four totals are unchanged.  The summaries of
    all other orders are unchanged, all fields included.  latest_status
    becomes the status of the new row, FAILED included, when NOW() is later
    than created_at of all earlier rows of the order. *)
Theorem summary_after_payment (env : Checkout.Env) (db db' : DB)
    (request : Checkout.ProcessPaymentRequest.t) (p : PaymentTransaction.t) :
  let o := Checkout.ProcessPaymentRequest.order_id request in
  let a := Checkout.ProcessPaymentRequest.amount_cents request in
  let s := getPaymentSummaryByOrderId db o in
  let s' := getPaymentSummaryByOrderId db' o in
  Checkout.processPayment env db request = (db', Checkout.Returned p) ->
  (Checkout.payment_succeeds env = true ->
   PaymentTransaction.status p = COMPLETED /\
   PaymentSummary.total_paid s' = PaymentSummary.total_paid s + Z.max a 0 /\
   PaymentSummary.total_refunded s' = PaymentSummary.total_refunded s + Z.max (- a) 0 /\
   PaymentSummary.net_amount s' = PaymentSummary.net_amount s + a /\
   PaymentSummary.payment_count s' = PaymentSummary.payment_count s + 1) /\
  (Checkout.payment_succeeds env = false ->
   PaymentTransaction.status p = FAILED /\ Checkout.totals s' = Checkout.totals s) /\
  (forall o', o' <> o ->
     getPaymentSummaryByOrderId db' o' = getPaymentSummaryByOrderId db o') /\
  (Forall (fun q => PaymentTransaction.created_at q < Checkout.NOW env) (of_order db o) ->
   PaymentSummary.latest_status s' = Some (PaymentTransaction.status p)).
Proof.
  intros o a s s' H. subst s s'.
  unfold Checkout.processPayment in H.
  destruct (filter _ _); [discriminate|].
  destruct (insert_payment _ db) as [[r db1]|e] eqn:E; [|discriminate].
  inversion H. subst r db1. clear H.
  apply insert_payment_ok in E. destruct E as (-> & -> & _ & _).
  pose proof (totals_append db
                (PaymentTransaction.mk (Checkout.uuidv4 env) o a
                   (Checkout.ProcessPaymentRequest.currency request)
                   (if Checkout.simulatePaymentProcessing env request
                    then COMPLETED else FAILED)
                   (Some (Checkout.ProcessPaymentRequest.payment_method request))
                   (Some (Checkout.txn_token env))
                   (Checkout.NOW env) (Checkout.NOW env)) o) as T.
  cbv zeta in T. unfold qualifying in T.
  cbn [PaymentTransaction.order_id PaymentTransaction.status
       PaymentTransaction.amount_cents] in T.
  rewrite String.eqb_refl in T. unfold Checkout.simulatePaymentProcessing in *.
  fold o a.
  split; [|split; [|split]].
  - intro Hg. rewrite Hg in *. cbn [status_eqb orb andb] in T.
    unfold Checkout.totals in T. apply quadruple_eq in T. destruct T as (T1 & T2 & T3 & T4).
    repeat split; first [reflexivity | assumption].
  - intro Hg. rewrite Hg in *. cbn [status_eqb orb andb] in T. split; [reflexivity | exact T].
  - intros o' Ho'. apply summary_other_order. simpl. congruence.
  - intro Hl.
    apply (latest_status_append db
             (PaymentTransaction.mk (Checkout.uuidv4 env) o a
                (Checkout.ProcessPaymentRequest.currency request)
                (if Checkout.payment_succeeds env then COMPLETED else FAILED)
                (Some (Checkout.ProcessPaymentRequest.payment_method request))
                (Some (Checkout.txn_token env))
                (Checkout.NOW env) (Checkout.NOW env))).
    exact Hl.
Qed.

Lemma summary_after_payment_witness :
  PaymentSummary.total_paid
    (getPaymentSummaryByOrderId
       (fst (Checkout.processPayment Scenario.pay_env Sample.ledger Scenario.pay_999))
       Sample.order2)
  = PaymentSummary.total_paid (getPaymentSummaryByOrderId Sample.ledger Sample.order2)
    + Z.max 999 0.
Proof.
  assert (H : Checkout.processPayment Scenario.pay_env Sample.ledger Scenario.pay_999
              = (fst (Checkout.processPayment Scenario.pay_env Sample.ledger
                        Scenario.pay_999),
                 Checkout.Returned
                   (Checkout.payment_row Scenario.pay_env Scenario.pay_999)))
    by reflexivity.
  exact (proj1 (proj2 (proj1 (summary_after_payment Scenario.pay_env Sample.ledger _
                                 Scenario.pay_999 _ H) eq_refl))).
Defined.

(** X15: what a refund does to the summary.  When refundPayment returns a
    row, the row refunds some payment of the table, for the amount a that
    is the request's amount_cents, or the payment's amount when that is
    absent or 0.  If the gateway accepted the refund (REFUNDED), the
    summary of the payment's order has payment_count one higher, net_amount
    lower by a, total_refunded higher by a if a is positive, and total_paid
    higher by -a if a is negative (the data layer does not insist on a
    positive amount, and it compares a neither with the payment's amount
    nor with what has been refunded before); if the gateway declined it
    (FAILED), the four totals are unchanged.  The summaries of all other
    orders are unchanged. *)
Theorem summary_after_refund (env : Env) (db db' : DB)
    (request : RefundPaymentRequest.t) (r : PaymentTransaction.t) :
  refundPayment env db request = (db', Tx.Ok r) ->
  exists original,
    getPaymentById db (RefundPaymentRequest.payment_id request) = Some original /\
    let o := PaymentTransaction.order_id original in
    let a := js_or (RefundPaymentRequest.amount_cents request)
                   (PaymentTransaction.amount_cents original) in
    let s := getPaymentSummaryByOrderId db o in
    let s' := getPaymentSummaryByOrderId db' o in
    (refund_succeeds env = true ->
     PaymentTransaction.status r = REFUNDED /\
     PaymentSummary.total_refunded s' = PaymentSummary.total_refunded s + Z.max a 0 /\
     PaymentSummary.total_paid s' = PaymentSummary.total_paid s + Z.max (- a) 0 /\
     PaymentSummary.net_amount s' = PaymentSummary.net_amount s - a /\
     PaymentSummary.payment_count s' = PaymentSummary.payment_count s + 1) /\
    (refund_succeeds env = false ->
     PaymentTransaction.status r = FAILED /\ Checkout.totals s' = Checkout.totals s) /\
    (forall o', o' <> o ->
       getPaymentSummaryByOrderId db' o' = getPaymentSummaryByOrderId db o').
Proof.
  intro H. rewrite PaymentTheory.refundPayment_cases in H.
  destruct (getPaymentById db (RefundPaymentRequest.payment_id request))
    as [original|]; [|discriminate].
  destruct (status_eqb (PaymentTransaction.status original) COMPLETED); [|discriminate].
  unfold Tx.transaction in H.
  destruct (insert_payment _ db) as [[row db1]|e] eqn:E; [|discriminate].
  inversion H. subst row db1. clear H.
  apply insert_payment_ok in E. destruct E as (-> & -> & _ & _).
  exists original. split; [reflexivity|]. intros o a s s'. subst s s'.
  pose proof (totals_append db (refund_row env original a) o) as T.
  cbv zeta in T. unfold qualifying, refund_row in T.
  cbn [PaymentTransaction.order_id PaymentTransaction.status
       PaymentTransaction.amount_cents] in T.
  fold o in T. rewrite String.eqb_refl in T. fold (refund_row env original a) in T.
  split; [|split].
  - intro Hg. unfold refund_row in *. cbn [PaymentTransaction.status].
    rewrite Hg in *. cbn [status_eqb orb andb] in T.
    unfold Checkout.totals in T. apply quadruple_eq in T. destruct T as (T1 & T2 & T3 & T4).
    rewrite Z.opp_involutive in T2.
    repeat split; try first [reflexivity | assumption | lia].
  - intro Hg. unfold refund_row in *. cbn [PaymentTransaction.status].
    rewrite Hg in *. cbn [status_eqb orb andb] in T. split; [reflexivity | exact T].
  - intros o' Ho'. apply summary_other_order. simpl. fold o. congruence.
Qed.

Lemma summary_after_refund_witness :
  exists original,
    getPaymentById Sample.small_ledger "pay-1" = Some original /\
    PaymentSummary.total_refunded
      (getPaymentSummaryByOrderId Sample.partly_refunded
         (PaymentTransaction.order_id original))
    = PaymentSummary.total_refunded
        (getPaymentSummaryByOrderId Sample.small_ledger
           (PaymentTransaction.order_id original))
      + Z.max (js_or (Some 1000) (PaymentTransaction.amount_cents original)) 0.
Proof.
  assert (H : refundPayment Sample.refund_env1 Sample.small_ledger Sample.refund_1000
              = (Sample.partly_refunded,
                 Tx.Ok (refund_row Sample.refund_env1 Sample.payment1 1000)))
    by reflexivity.
  destruct (summary_after_refund Sample.refund_env1 Sample.small_ledger
              Sample.partly_refunded Sample.refund_1000 _ H)
    as (original & Hg & Hok & _).
  exists original. split; [exact Hg|].
  exact (proj1 (proj2 (Hok eq_refl))).
Defined.

End CheckoutTheory.

(** * Properties of the routes of the payment service *)

Module PaymentRoutesTheory.
Import Payment PaymentRoutes.

Lemma Array_includes_In (a : list string) (s : string) :
  Array_includes a s = true <-> In s a.
Proof.
  unfold Array_includes. rewrite existsb_exists. split.
  - intros (x & Hx & E). apply String.eqb_eq in E. subst x. exact Hx.
  - intro H. exists s. split; [exact H | apply String.eqb_refl].
Qed.

(** Under the sign conditions of tidy rows, the totals of a summary are sums
    by status. *)
Lemma tidy_amounts (ps : list PaymentTransaction.t) (o : uuid) :
  Forall tidy ps ->
  let amounts := map PaymentTransaction.amount_cents (filter (qualifying o) ps) in
  let of_status s :=
    filter (fun p => String.eqb (PaymentTransaction.order_id p) o &&
                     status_eqb (PaymentTransaction.status p) s) ps in
  filter (fun a => 0 <? a) amounts
  = map PaymentTransaction.amount_cents (of_status COMPLETED) /\
  filter (fun a => a <? 0) amounts
  = map PaymentTransaction.amount_cents (of_status REFUNDED) /\
  List.length (filter (qualifying o) ps)
  = (List.length (of_status COMPLETED) + List.length (of_status REFUNDED))%nat.
Proof.
  intros H. cbv zeta. induction H as [|p ps Hp _ IH]; [repeat split|].
  destruct IH as (IH1 & IH2 & IH3).
  destruct Hp as (_ & _ & Hsign).
  assert (Hq : qualifying o p
               = String.eqb (PaymentTransaction.order_id p) o &&
                 (status_eqb (PaymentTransaction.status p) COMPLETED ||
                  status_eqb (PaymentTransaction.status p) REFUNDED))
    by reflexivity.
  cbn [filter]. rewrite Hq.
  destruct (String.eqb (PaymentTransaction.order_id p) o); cbn [andb];
    [|repeat split; assumption].
  destruct (PaymentTransaction.status p); cbn [status_eqb orb].
  - repeat split; assumption.
  - apply Z.ltb_lt in Hsign as Hpos.
    assert (Hn : (PaymentTransaction.amount_cents p <? 0) = false)
      by (apply Z.ltb_ge; lia).
    cbn [map filter List.length]. rewrite Hpos, Hn, IH1, IH2, IH3. repeat split.
  - repeat split; assumption.
  - apply Z.ltb_lt in Hsign as Hneg.
    assert (Hn : (0 <? PaymentTransaction.amount_cents p) = false)
      by (apply Z.ltb_ge; lia).
    cbn [map filter List.length]. rewrite Hneg, Hn, IH1, IH2, IH3. repeat split. lia.
Qed.

Section Server.

Variable pg_message : string -> string.
Variable toUpperCase : string -> string.
Variable toLowerCase : string -> string.







(** ** The ledger the routes keep *)

Lemma serve_tidy (db : DB) (r : request) :
  Forall tidy (payments db) ->
  Forall tidy (payments (serve pg_message toUpperCase toLowerCase db r)).
Proof.
  intro H. destruct r as [env body|env body]; simpl.
  - unfold post_payments_process.
    destruct (_ || _ || (Checkout.ProcessPaymentRequest.amount_cents body <=? 0)) eqn:E1;
      [exact H|].
    destruct (Js.not_string (Checkout.ProcessPaymentRequest.currency body) || _);
      [exact H|].
    destruct (Array_includes validCurrencies _) eqn:E3; cbn [negb]; [|exact H].
    destruct (Array_includes validPaymentMethods _) eqn:E4; cbn [negb]; [|exact H].
    apply orb_false_iff in E1. destruct E1 as [_ E1]. apply Z.leb_gt in E1.
    apply Array_includes_In in E3, E4.
    unfold Checkout.processPayment.
    cbn [Checkout.ProcessPaymentRequest.order_id Checkout.ProcessPaymentRequest.currency
         Checkout.ProcessPaymentRequest.amount_cents
         Checkout.ProcessPaymentRequest.payment_method].
    destruct (filter _ _); [exact H|].
    destruct (insert_payment _ db) as [[row db']|e] eqn:E.
    + apply CheckoutTheory.insert_payment_ok in E. destruct E as (_ & -> & _). simpl.
      apply Forall_app. split; [exact H|]. constructor; [|constructor].
      unfold tidy. simpl. split; [exact E3|]. split; [eexists; split; [reflexivity|exact E4]|].
      destruct (Checkout.simulatePaymentProcessing env _); [exact E1 | exact I].
    + destruct (String.eqb _ _); exact H.
  - unfold post_payments_refund.
    destruct (Js.not_string (RefundPaymentRequest.payment_id body)); [exact H|].
    destruct (match RefundPaymentRequest.amount_cents body with
              | Some amount_cents => negb (Js.not_number amount_cents) && (amount_cents <=? 0)
              | None => false
              end) eqn:Ea; [exact H|].
    rewrite PaymentTheory.refundPayment_cases.
    destruct (getPaymentById db (RefundPaymentRequest.payment_id body))
      as [original|] eqn:Eg; [|exact H].
    destruct (status_eqb (PaymentTransaction.status original) COMPLETED) eqn:Es;
      [|exact H].
    apply PaymentTheory.status_eqb_eq in Es.
    apply PaymentTheory.getPaymentById_In in Eg. destruct Eg as [Hin _].
    rewrite Forall_forall in H. pose proof (H original Hin) as (Hc & Hm & Hsign).
    rewrite Es in Hsign.
    unfold Tx.transaction.
    destruct (insert_payment _ db) as [[row db']|e] eqn:E.
    + apply CheckoutTheory.insert_payment_ok in E. destruct E as (_ & -> & _). simpl.
      apply Forall_app. split; [apply Forall_forall; exact H|].
      constructor; [|constructor].
      unfold tidy, refund_row. simpl. split; [exact Hc|]. split; [exact Hm|].
      destruct (refund_succeeds env); [|exact I].
      destruct (RefundPaymentRequest.amount_cents body) as [a|]; simpl.
      * unfold Js.not_number in Ea.
        destruct (Z.eqb_spec a 0); simpl in *; [lia|].
        apply Z.leb_gt in Ea. lia.
      * lia.
    + simpl. destruct (String.eqb _ _); [|destruct (String.eqb _ _)];
        apply Forall_forall; exact H.
Qed.

(** X18: through the two POST routes the ledger stays tidy, and the summary
    adds up by status.  If every row has a supported currency and payment
    method, every COMPLETED row a positive and every REFUNDED row a negative
    amount (as the sample rows have), then so it is after any sequence of
    POST /payments/process and POST /payments/refund requests, whatever
    their bodies; and then, for every order, total_paid is the sum of the
    amounts of its COMPLETED rows, total_refunded the sum of the refunded
    amounts of its REFUNDED rows, and payment_count the number of both. *)
Theorem api_ledger_tidy (rs : list request) (db : DB) :
  let db' := serve_all pg_message toUpperCase toLowerCase db rs in
  Forall tidy (payments db) ->
  Forall tidy (payments db') /\
  forall o,
    let s := getPaymentSummaryByOrderId db' o in
    PaymentSummary.total_paid s
    = total (map PaymentTransaction.amount_cents (with_status db' o COMPLETED)) /\
    PaymentSummary.total_refunded s
    = total (map (fun p => - PaymentTransaction.amount_cents p)
               (with_status db' o REFUNDED)) /\
    PaymentSummary.payment_count s
    = Z.of_nat (List.length (with_status db' o COMPLETED))
      + Z.of_nat (List.length (with_status db' o REFUNDED)).
Proof.
  intros db' H. subst db'.
  assert (Ht : Forall tidy (payments (serve_all pg_message toUpperCase toLowerCase db rs))).
  { revert db H. induction rs as [|r rs IH]; intros db H; [exact H|].
    unfold serve_all. simpl. apply IH. apply serve_tidy. exact H. }
  split; [exact Ht|]. intros o s. subst s.
  set (db' := serve_all pg_message toUpperCase toLowerCase db rs) in *.
  pose proof (CheckoutTheory.summary_totals db' o) as T.
  unfold Checkout.totals in T. apply CheckoutTheory.quadruple_eq in T.
  destruct T as (T1 & T2 & _ & T4).
  destruct (tidy_amounts (payments db') o Ht) as (A1 & A2 & A3).
  rewrite <- PaymentTheory.counted_selected in T1, T2, T4.
  rewrite A1 in T1. rewrite A2 in T2. rewrite A3 in T4.
  unfold with_status. split; [exact T1|]. split; [|rewrite T4; lia].
  rewrite T2.
  pose proof (PaymentTheory.total_split
                (map PaymentTransaction.amount_cents (filter (qualifying o) (payments db'))))
    as [_ Hneg].
  rewrite A2 in Hneg.
  assert (Hopp : forall l : list PaymentTransaction.t,
             total (map (fun p => - PaymentTransaction.amount_cents p) l)
             = - total (map PaymentTransaction.amount_cents l)).
  { induction l as [|p l IHl]; [reflexivity|].
    unfold total in *. simpl. rewrite IHl. lia. }
  rewrite Hopp. lia.
Qed.

End Server.

Lemma sample_ledger_tidy : Forall tidy (payments Sample.ledger).
Proof.
  repeat (apply Forall_cons;
          [split; [left; reflexivity|];
           split; [eexists; split; [reflexivity | simpl; tauto] | simpl; lia] |]).
  apply Forall_nil.
Qed.



Lemma api_ledger_tidy_witness :
  let db' :=
    serve_all Scenario.pg_message Scenario.toUpperCase Scenario.toLowerCase
      Sample.ledger
      [ PostRefund Sample.refund_env1 Sample.refund_1000;
        PostProcess Scenario.pay_env Scenario.pay_mixed_case;
        PostRefund Sample.refund_env2 (RefundPaymentRequest.mk "pay-2" (Some (-5))) ] in
  Forall tidy (payments db') /\
  PaymentSummary.total_paid (getPaymentSummaryByOrderId db' Sample.order1)
  = total (map PaymentTransaction.amount_cents (with_status db' Sample.order1 COMPLETED)).
Proof.
  intro db'.
  destruct (api_ledger_tidy Scenario.pg_message Scenario.toUpperCase
              Scenario.toLowerCase
              [ PostRefund Sample.refund_env1 Sample.refund_1000;
                PostProcess Scenario.pay_env Scenario.pay_mixed_case;
                PostRefund Sample.refund_env2
                  (RefundPaymentRequest.mk "pay-2" (Some (-5))) ]
              Sample.ledger sample_ledger_tidy) as [H1 H2].
  split; [exact H1 | exact (proj1 (H2 Sample.order1))].
Defined.

End PaymentRoutesTheory.

(** * Reading the ledger *)

From Stdlib Require Permutation.

Module ListingTheory.
Import Payment.

Lemma insert_desc_permutation (p : PaymentTransaction.t)
    (l : list PaymentTransaction.t) :
  Permutation.Permutation (Listing.insert_desc p l) (p :: l).
Proof.
  induction l as [|q l IH]; simpl.
  - apply Permutation.Permutation_refl.
  - destruct (PaymentTransaction.created_at p <? PaymentTransaction.created_at q).
    + eapply Permutation.perm_trans; [apply Permutation.perm_skip; exact IH|].
      apply Permutation.perm_swap.
    + apply Permutation.Permutation_refl.
Qed.

Lemma order_by_permutation (l : list PaymentTransaction.t) :
  Permutation.Permutation (Listing.order_by_created_at_desc l) l.
Proof.
  induction l as [|p l IH]; simpl.
  - apply Permutation.perm_nil.
  - eapply Permutation.perm_trans; [apply insert_desc_permutation|].
    apply Permutation.perm_skip. exact IH.
Qed.

Lemma insert_desc_falling (p : PaymentTransaction.t)
    (l : list PaymentTransaction.t) :
  Listing.falling l -> Listing.falling (Listing.insert_desc p l).
Proof.
  induction l as [|q l IH]; simpl.
  - intros _. split; [constructor | exact I].
  - intros [Hq Hl].
    destruct (Z.ltb_spec (PaymentTransaction.created_at p)
                (PaymentTransaction.created_at q)) as [Hlt|Hge]; simpl.
    + split; [|apply IH; exact Hl].
      apply (Permutation.Permutation_Forall
               (Permutation.Permutation_sym (insert_desc_permutation p l))).
      constructor; [lia | exact Hq].
    + split; [|split; assumption].
      constructor; [exact Hge|].
      eapply Forall_impl; [|exact Hq]. intros r Hr. simpl in Hr. lia.
Qed.

Lemma order_by_falling (l : list PaymentTransaction.t) :
  Listing.falling (Listing.order_by_created_at_desc l).
Proof.
  induction l as [|p l IH]; simpl; [exact I|].
  apply insert_desc_falling. exact IH.
Qed.

Lemma order_by_head (l : list PaymentTransaction.t) :
  hd_error (Listing.order_by_created_at_desc l) = latest l.
Proof.
  induction l as [|p l IH]; simpl; [reflexivity|].
  rewrite <- IH.
  destruct (Listing.order_by_created_at_desc l) as [|q rest]; simpl; [reflexivity|].
  destruct (PaymentTransaction.created_at p <? PaymentTransaction.created_at q);
    reflexivity.
Qed.

Lemma counted_of_order (db : DB) (orderId : uuid) :
  of_order db orderId = [] -> counted db orderId = [].
Proof.
  rewrite <- PaymentTheory.counted_selected.
  unfold of_order. induction (payments db) as [|p ps IH]; simpl;
    [reflexivity|].
  unfold qualifying at 1.
  destruct (String.eqb (PaymentTransaction.order_id p) orderId); simpl;
    [discriminate | exact IH].
Qed.

(** X20: the listings.  getPaymentsByOrderId returns exactly the rows of the
    order, each as often as the table has it, by falling created_at, and
    getAllPayments returns all rows in that order; nothing is filtered by
    status.  The first row getPaymentsByOrderId lists is the row whose
    status getPaymentSummaryByOrderId reports as latest_status (rows of
    equal created_at being taken in heap order by both), so the summary's
    latest_status is the status of the head of the order's listing, FAILED
    and PENDING rows included.  For an order without payments, and so for
    an order that does not exist, GET /payments/order/:orderId answers 200
    with an empty list and GET /payments/order/:orderId/summary answers 200
    with all totals 0 and no latest_status: neither has a 404. *)
Theorem getPaymentsByOrderId_spec (db : DB) (orderId : uuid) :
  let listed := Listing.getPaymentsByOrderId db orderId in
  Permutation.Permutation listed (of_order db orderId) /\
  Listing.falling listed /\
  Permutation.Permutation (Listing.getAllPayments db) (payments db) /\
  Listing.falling (Listing.getAllPayments db) /\
  PaymentSummary.latest_status (getPaymentSummaryByOrderId db orderId)
  = option_map PaymentTransaction.status (hd_error listed) /\
  (of_order db orderId = [] ->
   PaymentRoutes.get_payments_order db orderId
   = (db, Http.send 200 (Http.ApiSuccess true (Some []) None)) /\
   PaymentRoutes.get_payments_order_summary db orderId
   = (db, Http.send 200
            (Http.ApiSuccess true (Some (PaymentSummary.mk 0 0 0 0 None)) None))).
Proof.
  intro listed. subst listed.
  unfold Listing.getPaymentsByOrderId, Listing.getAllPayments.
  split; [apply order_by_permutation|].
  split; [apply order_by_falling|].
  split; [apply order_by_permutation|].
  split; [apply order_by_falling|].
  split.
  - rewrite order_by_head. reflexivity.
  - intro H. pose proof (counted_of_order db orderId H) as Hc.
    unfold PaymentRoutes.get_payments_order, PaymentRoutes.get_payments_order_summary,
      Listing.getPaymentsByOrderId, getPaymentSummaryByOrderId.
    unfold of_order in H. rewrite <- PaymentTheory.counted_selected in Hc.
    rewrite H, Hc.
    split; reflexivity.
Qed.

Lemma getPaymentsByOrderId_spec_witness :
  PaymentRoutes.get_payments_order Sample.ledger Sample.order2
  = (Sample.ledger, Http.send 200 (Http.ApiSuccess true (Some []) None)) /\
  PaymentRoutes.get_payments_order_summary Sample.ledger Sample.order2
  = (Sample.ledger,
     Http.send 200
       (Http.ApiSuccess true (Some (PaymentSummary.mk 0 0 0 0 None)) None)).
Proof.
  apply (proj2 (proj2 (proj2 (proj2 (proj2
           (getPaymentsByOrderId_spec Sample.ledger Sample.order2)))))).
  reflexivity.
Defined.

(** ** The view *)

Lemma settled_group (ps : list PaymentTransaction.t) (o : uuid) :
  filter (fun p => String.eqb (PaymentTransaction.order_id p) o)
         (filter PaymentSummaries.settled ps)
  = filter (qualifying o) ps.
Proof.
  induction ps as [|p ps IH]; simpl; [reflexivity|].
  unfold qualifying at 1. unfold PaymentSummaries.settled at 1.
  destruct (status_eqb (PaymentTransaction.status p) COMPLETED
            || status_eqb (PaymentTransaction.status p) REFUNDED); simpl.
  - destruct (String.eqb (PaymentTransaction.order_id p) o); simpl;
      rewrite IH; reflexivity.
  - rewrite andb_false_r. exact IH.
Qed.

Lemma sql_sum_some (values : list Z) :
  values <> [] -> sql_sum values = Some (coalesce (sql_sum values) 0).
Proof. destruct values; [congruence | reflexivity]. Qed.

(** X28: the view payment_summaries and getPaymentSummaryByOrderId agree.
    The view has one row per order that has a COMPLETED or REFUNDED row, and
    none for other orders (for which the function returns zeros).  In the
    row of an order, transaction_count, total_paid_cents,
    total_refunded_cents and net_amount_cents are the function's
    payment_count, total_paid, total_refunded and net_amount for that
    order, none of them NULL; and latest_status is, as in the function, the
    status of the order's latest row of any status, so it can be FAILED or
    PENDING in the view too. *)
Theorem payment_summaries_agree (db : DB) :
  NoDup (map PaymentSummaries.order_id (PaymentSummaries.payment_summaries db)) /\
  (forall o,
     In o (map PaymentSummaries.order_id (PaymentSummaries.payment_summaries db))
     <-> counted db o <> []) /\
  Forall (fun row =>
            let s := getPaymentSummaryByOrderId db (PaymentSummaries.order_id row) in
            PaymentSummaries.transaction_count row = PaymentSummary.payment_count s /\
            PaymentSummaries.total_paid_cents row = Some (PaymentSummary.total_paid s) /\
            PaymentSummaries.total_refunded_cents row
            = Some (PaymentSummary.total_refunded s) /\
            PaymentSummaries.net_amount_cents row = Some (PaymentSummary.net_amount s) /\
            PaymentSummaries.latest_status row = PaymentSummary.latest_status s)
         (PaymentSummaries.payment_summaries db).
Proof.
  unfold PaymentSummaries.payment_summaries.
  assert (Hids : map PaymentSummaries.order_id
                   (map (PaymentSummaries.group_row db) (PaymentSummaries.groups db))
                 = PaymentSummaries.groups db).
  { rewrite map_map. simpl. apply map_id. }
  assert (Hgroup : forall o, In o (PaymentSummaries.groups db) <-> counted db o <> []).
  { intro o. rewrite <- PaymentTheory.counted_selected.
    unfold PaymentSummaries.groups. rewrite nodup_In, in_map_iff.
    rewrite <- settled_group. split.
    - intros (p & Ho & Hp) He.
      assert (Hin : In p (filter (fun p => String.eqb (PaymentTransaction.order_id p) o)
                            (filter PaymentSummaries.settled (payments db)))).
      { apply filter_In. split; [exact Hp | apply String.eqb_eq; exact Ho]. }
      rewrite He in Hin. exact Hin.
    - intro Hne.
      destruct (filter (fun p => String.eqb (PaymentTransaction.order_id p) o)
                  (filter PaymentSummaries.settled (payments db))) as [|p rest] eqn:E;
        [congruence|].
      assert (Hin : In p (filter (fun p => String.eqb (PaymentTransaction.order_id p) o)
                            (filter PaymentSummaries.settled (payments db))))
        by (rewrite E; left; reflexivity).
      apply filter_In in Hin. destruct Hin as [Hin Ho]. apply String.eqb_eq in Ho.
      exists p. split; assumption. }
  split; [rewrite Hids; apply NoDup_nodup|].
  split; [intro o; rewrite Hids; apply Hgroup|].
  apply Forall_map. apply Forall_forall. intros o Ho.
  apply Hgroup in Ho. rewrite <- PaymentTheory.counted_selected in Ho.
  unfold PaymentSummaries.group_row, getPaymentSummaryByOrderId.
  cbn [PaymentSummaries.order_id PaymentSummaries.transaction_count
       PaymentSummaries.total_paid_cents PaymentSummaries.total_refunded_cents
       PaymentSummaries.net_amount_cents PaymentSummaries.latest_status
       PaymentSummary.payment_count PaymentSummary.total_paid
       PaymentSummary.total_refunded PaymentSummary.net_amount
       PaymentSummary.latest_status].
  rewrite settled_group.
  destruct (filter (qualifying o) (payments db)) as [|p rest]; [congruence|].
  repeat split; reflexivity.
Qed.

End ListingTheory.

Module RetrievalTheory.
Import Payment PaymentRoutes.

Section Server.

Variable pg_message : string -> string.
Variable toUpperCase : string -> string.
Variable toLowerCase : string -> string.

(** A request is answered without a write, or by one of the two writing
    calls of the data layer, whose returned row, if any, is the row in the
    reply. *)
Lemma answer_cases (db : DB) (r : request) :
  (serve pg_message toUpperCase toLowerCase db r = db /\
   forall ok p m,
     Http.payload (snd (answer pg_message toUpperCase toLowerCase db r))
     <> Http.ApiSuccess ok (Some p) m) \/
  (exists c,
     serve pg_message toUpperCase toLowerCase db r = Checkout.run_call db c /\
     forall ok p m,
       Http.payload (snd (answer pg_message toUpperCase toLowerCase db r))
       = Http.ApiSuccess ok (Some p) m ->
       exists before, payments (Checkout.run_call db c) = before ++ [p]).
Proof.
  destruct r as [env body|env body]; simpl.
  - unfold post_payments_process.
    destruct (_ || _ || (Checkout.ProcessPaymentRequest.amount_cents body <=? 0));
      [left; split; [reflexivity | discriminate]|].
    destruct (Js.not_string (Checkout.ProcessPaymentRequest.currency body) || _);
      [left; split; [reflexivity | discriminate]|].
    destruct (Array_includes validCurrencies _); cbn [negb];
      [|left; split; [reflexivity | discriminate]].
    destruct (Array_includes validPaymentMethods _); cbn [negb];
      [|left; split; [reflexivity | discriminate]].
    right.
    exists (Checkout.Process env (normalized toUpperCase toLowerCase body)).
    unfold normalized. simpl.
    destruct (Checkout.processPayment env db _) as [db' [p|e]] eqn:E; simpl.
    + split; [reflexivity|]. intros ok p' m H. inversion H. subst p'.
      unfold Checkout.processPayment in E.
      destruct (filter _ _); [discriminate|].
      destruct (insert_payment _ db) as [[row db1]|err] eqn:Ei; [|discriminate].
      apply CheckoutTheory.insert_payment_ok in Ei. destruct Ei as (Hrow & Hdb1 & _).
      inversion E. subst. simpl. eexists. reflexivity.
    + destruct (String.eqb _ _); simpl; (split; [reflexivity | discriminate]).
  - unfold post_payments_refund.
    destruct (Js.not_string (RefundPaymentRequest.payment_id body));
      [left; split; [reflexivity | discriminate]|].
    destruct (match RefundPaymentRequest.amount_cents body with
              | Some amount_cents => negb (Js.not_number amount_cents) && (amount_cents <=? 0)
              | None => false
              end);
      [left; split; [reflexivity | discriminate]|].
    right. exists (Checkout.Refund env body). simpl.
    destruct (refundPayment env db body) as [db' [p|e]] eqn:E; simpl.
    + split; [reflexivity|]. intros ok p' m H. inversion H. subst p'.
      rewrite PaymentTheory.refundPayment_cases in E.
      destruct (getPaymentById db _); [|discriminate].
      destruct (status_eqb _ COMPLETED); [|discriminate].
      unfold Tx.transaction in E.
      destruct (insert_payment _ db) as [[row db1]|err] eqn:Ei; [|discriminate].
      apply CheckoutTheory.insert_payment_ok in Ei. destruct Ei as (Hrow & Hdb1 & _).
      inversion E. subst. simpl. eexists. reflexivity.
    + destruct (String.eqb _ _); [|destruct (String.eqb _ _)]; simpl;
        (split; [reflexivity | discriminate]).
Qed.

Lemma serve_all_append (rs : list request) (db : DB) :
  schema_ok db ->
  schema_ok (serve_all pg_message toUpperCase toLowerCase db rs) /\
  exists added,
    payments (serve_all pg_message toUpperCase toLowerCase db rs)
    = payments db ++ added.
Proof.
  revert db. induction rs as [|r rs IH]; intros db Hs.
  - split; [exact Hs|]. exists []. rewrite app_nil_r. reflexivity.
  - unfold serve_all. simpl.
    fold (serve_all pg_message toUpperCase toLowerCase
            (serve pg_message toUpperCase toLowerCase db r) rs).
    assert (H1 : schema_ok (serve pg_message toUpperCase toLowerCase db r) /\
                 exists added,
                   payments (serve pg_message toUpperCase toLowerCase db r)
                   = payments db ++ added).
    { destruct (answer_cases db r) as [[-> _]|(c & -> & _)].
      - split; [exact Hs|]. exists []. rewrite app_nil_r. reflexivity.
      - destruct (CheckoutTheory.run_call_append db c Hs) as (Hs' & _ & added & E & _).
        split; [exact Hs'|]. exists added. exact E. }
    destruct H1 as (Hs1 & added1 & E1).
    destruct (IH _ Hs1) as (Hs2 & added2 & E2).
    split; [exact Hs2|]. exists (added1 ++ added2).
    rewrite E2, E1, app_assoc. reflexivity.
Qed.

(** X19: what a POST returned can be fetched, for good.  On a table with
    distinct ids whose rows reference existing orders: if the reply to a
    POST /payments/process or POST /payments/refund request carries a
    payment (status 201, or 400 for a declined one), then after that request
    and any further sequence of such requests GET /payments/:paymentId
    answers 200 with exactly that payment for its id. *)
Theorem payment_stays_retrievable (db : DB) (r : request) (rs : list request)
    (ok : bool) (p : PaymentTransaction.t) (m : option string) :
  schema_ok db ->
  Http.payload (snd (answer pg_message toUpperCase toLowerCase db r))
  = Http.ApiSuccess ok (Some p) m ->
  snd (get_payments_paymentId
         (serve_all pg_message toUpperCase toLowerCase db (r :: rs))
         (PaymentTransaction.id p))
  = Http.send 200 (Http.ApiSuccess true (Some p) None).
Proof.
  intros Hs Hp.
  unfold serve_all. simpl.
  fold (serve_all pg_message toUpperCase toLowerCase
          (serve pg_message toUpperCase toLowerCase db r) rs).
  destruct (answer_cases db r) as [[_ Hno]|(c & Ec & Hrow)].
  { exfalso. exact (Hno ok p m Hp). }
  destruct (Hrow ok p m Hp) as (before & Eb).
  destruct (CheckoutTheory.run_call_append db c Hs) as (Hs1 & _).
  rewrite <- Ec in Hs1, Eb.
  destruct (serve_all_append rs _ Hs1) as (Hs2 & added & E2).
  unfold get_payments_paymentId.
  rewrite (PaymentTheory.select_payment_unique _ p (proj1 Hs2)); [reflexivity|].
  rewrite E2, Eb. apply in_or_app. left. apply in_or_app. right. left. reflexivity.
Qed.

End Server.

Lemma payment_stays_retrievable_witness :
  snd (get_payments_paymentId
         (serve_all Scenario.pg_message Scenario.toUpperCase Scenario.toLowerCase
            Sample.ledger
            [ PostProcess Scenario.pay_env Scenario.pay_mixed_case;
              PostRefund Sample.refund_env1 Sample.refund1 ])
         "pay-5")
  = Http.send 200
      (Http.ApiSuccess true
         (Some (Checkout.payment_row Scenario.pay_env Scenario.pay_999)) None).
Proof.
  apply (payment_stays_retrievable Scenario.pg_message Scenario.toUpperCase
           Scenario.toLowerCase Sample.ledger
           (PostProcess Scenario.pay_env Scenario.pay_mixed_case)
           [PostRefund Sample.refund_env1 Sample.refund1]
           true (Checkout.payment_row Scenario.pay_env Scenario.pay_999)
           (Some "Payment processed successfully")
           PaymentTheory.sample_ledger_ok).
  reflexivity.
Defined.

End RetrievalTheory.

(** * Properties of the in-memory order store *)

Module OrderStoreTheory.
Import OrderStore.

Lemma Map_get_set_same (m : Map) (key : string) (value : Order.t) :
  Map_get (Map_set m key value) key = Some value.
Proof.
  induction m as [|[k v] m IH]; simpl.
  - rewrite String.eqb_refl. reflexivity.
  - destruct (String.eqb k key) eqn:E; simpl; rewrite E; [reflexivity | exact IH].
Qed.

Lemma Map_get_set_other (m : Map) (key key' : string) (value : Order.t) :
  key' <> key -> Map_get (Map_set m key value) key' = Map_get m key'.
Proof.
  intro H. induction m as [|[k v] m IH]; simpl.
  - destruct (String.eqb_spec key key'); [congruence | reflexivity].
  - destruct (String.eqb_spec k key) as [->|Hk]; simpl.
    + destruct (String.eqb_spec key key'); [congruence | reflexivity].
    + destruct (String.eqb k key'); [reflexivity | exact IH].
Qed.





(** X22: the life of an order through the routes.  POST /orders with an
    empty userId is answered 400 and stores nothing.  Otherwise it is
    answered 201 with the new order: the generated id, the userId, the items
    as given (none if the body has none; neither their number nor their
    quantities are checked) and status PENDING; GET /orders/:id then returns
    that order; POST /orders/:id/confirm returns it with status CONFIRMED
    and everything else unchanged, does so again when repeated, and GET
    returns the confirmed order.  For an id the store does not have, GET
    and confirm answer 404 and leave the store as it is. *)
Theorem order_routes_lifecycle (uuid : string) (orders : Map)
    (body : CreateOrderRequest.t) :
  let items := match CreateOrderRequest.items body with
               | Some items => items
               | None => []
               end in
  let order := Order.mk uuid (CreateOrderRequest.userId body) items PENDING in
  let confirmed := Order.mk uuid (CreateOrderRequest.userId body) items CONFIRMED in
  let orders1 := fst (post_orders uuid orders body) in
  let orders2 := fst (post_orders_id_confirm orders1 uuid) in
  (CreateOrderRequest.userId body = EmptyString ->
   post_orders uuid orders body
   = (orders, Http.send 400 (Http.ApiError "userId is required"))) /\
  (CreateOrderRequest.userId body <> EmptyString ->
   snd (post_orders uuid orders body) = Http.send 201 (Http.Value order) /\
   get_orders_id orders1 uuid = (orders1, Http.send 200 (Http.Value order)) /\
   snd (post_orders_id_confirm orders1 uuid) = Http.send 200 (Http.Value confirmed) /\
   post_orders_id_confirm orders2 uuid = (orders2, Http.send 200 (Http.Value confirmed)) /\
   get_orders_id orders2 uuid = (orders2, Http.send 200 (Http.Value confirmed))) /\
  (forall id, getOrder orders id = None ->
     get_orders_id orders id
     = (orders, Http.send 404 (Http.ApiError "Order not found")) /\
     post_orders_id_confirm orders id
     = (orders, Http.send 404 (Http.ApiError "Order not found"))).
Proof.
  intros items order confirmed orders1 orders2.
  split; [|split].
  - intro H. unfold post_orders. rewrite H. reflexivity.
  - intro H. apply JsTheory.not_string_false in H.
    assert (E1 : post_orders uuid orders body
                 = (saveOrder orders order, Http.send 201 (Http.Value order))).
    { unfold post_orders. rewrite H. reflexivity. }
    assert (G1 : getOrder orders1 uuid = Some order).
    { unfold orders1. rewrite E1. cbn [fst].
      apply (Map_get_set_same orders uuid order). }
    assert (E2 : post_orders_id_confirm orders1 uuid
                 = (Map_set orders1 uuid confirmed,
                    Http.send 200 (Http.Value confirmed))).
    { unfold post_orders_id_confirm, updateOrder. unfold getOrder in G1.
      rewrite G1. reflexivity. }
    assert (G2 : getOrder orders2 uuid = Some confirmed).
    { unfold orders2. rewrite E2. cbn [fst]. apply Map_get_set_same. }
    split; [rewrite E1; reflexivity|].
    split; [unfold get_orders_id; rewrite G1; reflexivity|].
    split; [rewrite E2; reflexivity|].
    split.
    + unfold post_orders_id_confirm, updateOrder. unfold getOrder in G2.
      rewrite G2. cbn [spread PartialOrder.id PartialOrder.userId PartialOrder.items
                       PartialOrder.status].
      fold confirmed.
      replace (Order.mk (Order.id confirmed) (Order.userId confirmed)
                 (Order.items confirmed) CONFIRMED) with confirmed by reflexivity.
      f_equal. unfold orders2 at 2. rewrite E2. cbn [fst].
      unfold orders2. rewrite E2. cbn [fst].
      clear. induction orders1 as [|[k v] m IH]; simpl.
      * rewrite String.eqb_refl. reflexivity.
      * destruct (String.eqb k uuid) eqn:E; simpl; rewrite E; [reflexivity|].
        rewrite IH. reflexivity.
    + unfold get_orders_id. rewrite G2. reflexivity.
  - intros id H. unfold get_orders_id, post_orders_id_confirm, updateOrder.
    unfold getOrder in H. unfold getOrder. rewrite H. split; reflexivity.
Qed.

Lemma order_routes_lifecycle_witness :
  snd (post_orders "o-1" [] (CreateOrderRequest.mk "user-123" None))
  = Http.send 201 (Http.Value (Order.mk "o-1" "user-123" [] PENDING)) /\
  get_orders_id [] "o-1" = ([], Http.send 404 (Http.ApiError "Order not found")).
Proof.
  split.
  - apply (proj1 (proj2 (order_routes_lifecycle "o-1" []
                           (CreateOrderRequest.mk "user-123" None)))).
    discriminate.
  - apply (proj2 (proj2 (order_routes_lifecycle "o-1" []
                           (CreateOrderRequest.mk "user-123" None))) "o-1").
    reflexivity.
Defined.

(** ** What the routes never do *)

Lemma serve_other (orders : Map) (r : request) (id : string) :
  ~ In id (created [r]) ->
  match getOrder orders id with
  | None => getOrder (serve orders r) id = None
  | Some o =>
      exists s,
        getOrder (serve orders r) id
        = Some (Order.mk (Order.id o) (Order.userId o) (Order.items o) s) /\
        (Order.status o = CONFIRMED -> s = CONFIRMED)
  end.
Proof.
  intro Hid.
  assert (Hsame : forall o : Order.t,
             exists s, Some o = Some (Order.mk (Order.id o) (Order.userId o)
                                        (Order.items o) s) /\
                       (Order.status o = CONFIRMED -> s = CONFIRMED)).
  { intros [i u its s]. exists s. split; [reflexivity | intro H; exact H]. }
  destruct r as [uuid body|id']; simpl in *.
  - unfold post_orders.
    destruct (Js.not_string (CreateOrderRequest.userId body)); simpl.
    + destruct (getOrder orders id) as [o|]; [apply Hsame | reflexivity].
    + unfold saveOrder, getOrder. simpl.
      rewrite Map_get_set_other by (simpl in Hid; intuition congruence).
      destruct (Map_get orders id) as [o|]; [apply Hsame | reflexivity].
  - unfold post_orders_id_confirm, updateOrder.
    destruct (Map_get orders id') as [existing|] eqn:E; simpl.
    + destruct (String.eqb_spec id' id) as [->|Hne].
      * unfold getOrder. rewrite E, Map_get_set_same.
        exists CONFIRMED. split; [reflexivity | reflexivity].
      * unfold getOrder. rewrite Map_get_set_other by congruence.
        destruct (Map_get orders id) as [o|]; [apply Hsame | reflexivity].
    + destruct (getOrder orders id) as [o|]; [apply Hsame | reflexivity].
Qed.

Lemma created_cons (r : request) (rs : list request) :
  created (r :: rs) = created [r] ++ created rs.
Proof.
  destruct r as [uuid body|id]; simpl; [|reflexivity].
  destruct (Js.not_string (CreateOrderRequest.userId body)); reflexivity.
Qed.

(** X23: orders are only created by POST /orders and never lost or
    reverted.  After any sequence of POST /orders and POST
    /orders/:id/confirm requests, for an id under which the sequence creates
    no order: if the store had no order under the id it still has none; if
    it had one, it still has it, with the same id, userId and items, and if
    its status was CONFIRMED it still is (no route deletes an order, changes
    its items, or moves it back to PENDING). *)
Theorem orders_persist (rs : list request) (orders : Map) (id : string) :
  ~ In id (created rs) ->
  match getOrder orders id with
  | None => getOrder (serve_all orders rs) id = None
  | Some o =>
      exists s,
        getOrder (serve_all orders rs) id
        = Some (Order.mk (Order.id o) (Order.userId o) (Order.items o) s) /\
        (Order.status o = CONFIRMED -> s = CONFIRMED)
  end.
Proof.
  revert orders. induction rs as [|r rs IH]; intros orders Hid.
  - simpl. destruct (getOrder orders id) as [[i u its s]|]; [|reflexivity].
    exists s. split; [reflexivity | intro H; exact H].
  - rewrite created_cons in Hid.
    assert (H1 : ~ In id (created [r])) by (intro; apply Hid; apply in_or_app; tauto).
    assert (H2 : ~ In id (created rs)) by (intro; apply Hid; apply in_or_app; tauto).
    unfold serve_all. simpl. fold (serve_all (serve orders r) rs).
    pose proof (serve_other orders r id H1) as S1.
    pose proof (IH (serve orders r) H2) as S2.
    destruct (getOrder orders id) as [o|].
    + destruct S1 as (s1 & E1 & C1). rewrite E1 in S2.
      destruct S2 as (s2 & E2 & C2). simpl in E2, C2.
      exists s2. split; [exact E2|]. intro Hc. apply C2. apply C1. exact Hc.
    + rewrite S1 in S2. exact S2.
Qed.

Lemma orders_persist_witness :
  exists s,
    getOrder
      (serve_all [("o-1", Order.mk "o-1" "user-123" [Item.mk "item-001" 2] CONFIRMED)]
         [ PostOrders "o-2" (CreateOrderRequest.mk "user-456" None);
           PostConfirm "o-1"; PostConfirm "o-2" ])
      "o-1"
    = Some (Order.mk "o-1" "user-123" [Item.mk "item-001" 2] s) /\
    (CONFIRMED = CONFIRMED -> s = CONFIRMED).
Proof.
  apply (orders_persist
           [ PostOrders "o-2" (CreateOrderRequest.mk "user-456" None);
             PostConfirm "o-1"; PostConfirm "o-2" ]
           [("o-1", Order.mk "o-1" "user-123" [Item.mk "item-001" 2] CONFIRMED)]
           "o-1").
  simpl. intuition discriminate.
Defined.

End OrderStoreTheory.

(** * Properties of the order service on PostgreSQL *)

Module OrderServiceTheory.
Import OrderService.

Lemma existsb_order_id (os : list Order.t) (id : uuid) :
  existsb (fun o => String.eqb (Order.id o) id) os = true <-> In id (map Order.id os).
Proof.
  rewrite existsb_exists, in_map_iff. split.
  - intros (o & Ho & E). apply String.eqb_eq in E. exists o. split; assumption.
  - intros (o & E & Ho). exists o. split; [exact Ho | apply String.eqb_eq; exact E].
Qed.

Lemma existsb_item_id (rows : list OrderItem.t) (id : uuid) :
  existsb (fun i => String.eqb (OrderItem.id i) id) rows = true <->
  In id (map OrderItem.id rows).
Proof.
  rewrite existsb_exists, in_map_iff. split.
  - intros (i & Hi & E). apply String.eqb_eq in E. exists i. split; assumption.
  - intros (i & E & Hi). exists i. split; [exact Hi | apply String.eqb_eq; exact E].
Qed.

Lemma not_true_false (b : bool) : b <> true -> b = false.
Proof. destruct b; congruence. Qed.

(** ** The statements *)

Lemma insert_order_cases (env : Env) (id : uuid) (user : string) (s : OrderStatus)
    (db : DB) :
  (In id (map Order.id (orders db)) /\
   insert_order env id user s db = Tx.Err (Tx.Db_error "orders_pkey")) \/
  (~ In id (map Order.id (orders db)) /\
   insert_order env id user s db =
   Tx.Ok (Order.mk id user s (CURRENT_TIMESTAMP env) (CURRENT_TIMESTAMP env),
          mkDB (orders db ++ [Order.mk id user s (CURRENT_TIMESTAMP env)
                                (CURRENT_TIMESTAMP env)])
            (order_items db))).
Proof.
  unfold insert_order.
  destruct (existsb (fun o => String.eqb (Order.id o) id) (orders db)) eqn:E.
  - left. split; [apply existsb_order_id; exact E | reflexivity].
  - right. split; [|reflexivity]. intro H. apply existsb_order_id in H. congruence.
Qed.

Lemma insert_order_item_run (env : Env) (k : nat) (oid : uuid) (sku : string)
    (q : Z) (db : DB) :
  0 < q ->
  ~ In (gen_random_uuid env k) (map OrderItem.id (order_items db)) ->
  In oid (map Order.id (orders db)) ->
  insert_order_item env k oid sku q db =
  Tx.Ok (OrderItem.mk (gen_random_uuid env k) oid sku q (CURRENT_TIMESTAMP env),
         mkDB (orders db)
           (order_items db
            ++ [OrderItem.mk (gen_random_uuid env k) oid sku q (CURRENT_TIMESTAMP env)])).
Proof.
  intros Hq Hk Ho. unfold insert_order_item.
  apply Z.ltb_lt in Hq. rewrite Hq. simpl.
  rewrite (not_true_false _ (fun H => Hk (proj1 (existsb_item_id _ _) H))).
  rewrite (proj2 (existsb_order_id _ _) Ho). reflexivity.
Qed.

Lemma insert_order_item_ok (env : Env) (k : nat) (oid : uuid) (sku : string)
    (q : Z) (db db' : DB) (row : OrderItem.t) :
  insert_order_item env k oid sku q db = Tx.Ok (row, db') ->
  0 < q /\
  ~ In (gen_random_uuid env k) (map OrderItem.id (order_items db)) /\
  row = OrderItem.mk (gen_random_uuid env k) oid sku q (CURRENT_TIMESTAMP env) /\
  db' = mkDB (orders db) (order_items db ++ [row]).
Proof.
  unfold insert_order_item.
  destruct (Z.ltb_spec 0 q) as [Hq|Hq]; simpl; [|discriminate].
  destruct (existsb (fun i => String.eqb (OrderItem.id i) (gen_random_uuid env k))
              (order_items db)) eqn:E1; [discriminate|].
  destruct (existsb (fun o => String.eqb (Order.id o) oid) (orders db));
    simpl; [|discriminate].
  intro H. inversion H. subst. repeat split; try assumption.
  intro Hin. apply existsb_item_id in Hin. congruence.
Qed.

Lemma items_loop_run (env : Env) (oid : uuid) :
  forall (items : list Item.t) (k : nat) (acc : list OrderItem.t) (db : DB),
  In oid (map Order.id (orders db)) ->
  Forall (fun item => 0 < Item.qty item) items ->
  NoDup (map (gen_random_uuid env) (seq k (List.length items))) ->
  Forall (fun key => ~ In key (map OrderItem.id (order_items db)))
         (map (gen_random_uuid env) (seq k (List.length items))) ->
  items_loop env oid items k acc db =
  Tx.Ok (acc ++ item_rows env oid items k,
         mkDB (orders db) (order_items db ++ item_rows env oid items k)).
Proof.
  induction items as [|item rest IH]; intros k acc db Ho Hq Hnd Hnew; simpl.
  - rewrite !app_nil_r. destruct db. reflexivity.
  - inversion Hq as [|? ? Hq0 Hqs]; subst. simpl in Hnd, Hnew.
    inversion Hnd as [|? ? Hk Hnd']; subst.
    inversion Hnew as [|? ? Hkey Hnew']; subst.
    unfold Tx.bind. rewrite (insert_order_item_run env k oid _ _ db Hq0 Hkey Ho).
    rewrite IH; simpl.
    + rewrite <- !app_assoc. reflexivity.
    + exact Ho.
    + exact Hqs.
    + exact Hnd'.
    + rewrite Forall_forall in *. intros key Hin.
      rewrite map_app. simpl. intros Hc. apply in_app_or in Hc as [Hc|[Hc|[]]].
      * exact (Hnew' key Hin Hc).
      * apply Hk. rewrite Hc. exact Hin.
Qed.

Lemma items_loop_ok (env : Env) (oid : uuid) :
  forall (items : list Item.t) (k : nat) (acc rs : list OrderItem.t) (db db' : DB),
  items_loop env oid items k acc db = Tx.Ok (rs, db') ->
  Forall (fun item => 0 < Item.qty item) items /\
  NoDup (map (gen_random_uuid env) (seq k (List.length items))) /\
  Forall (fun key => ~ In key (map OrderItem.id (order_items db)))
         (map (gen_random_uuid env) (seq k (List.length items))).
Proof.
  induction items as [|item rest IH]; intros k acc rs db db' H; simpl in *.
  - repeat split; constructor.
  - unfold Tx.bind in H.
    destruct (insert_order_item env k oid (Item.sku item) (Item.qty item) db)
      as [[row db1]|e] eqn:E; [|discriminate].
    apply insert_order_item_ok in E. destruct E as (Hq & Hkey & Hrow & ->).
    apply IH in H. destruct H as (Hqs & Hnd & Hnew). simpl in Hnew.
    rewrite map_app in Hnew. rewrite Forall_forall in Hnew.
    split; [constructor; assumption|]. split.
    + constructor; [|exact Hnd]. intro Hin. apply (Hnew _ Hin).
      apply in_or_app. right. rewrite Hrow. left. reflexivity.
    + constructor; [exact Hkey|]. apply Forall_forall. intros key Hin Hc.
      apply (Hnew _ Hin). apply in_or_app. left. exact Hc.
Qed.

(** ** [saveOrder] *)

Lemma saveOrder_run (env : Env) (db : DB) (order : NewOrder.t) :
  storable env db order ->
  saveOrder env db order =
  (mkDB (orders db ++ [order_row env order])
     (order_items db ++ item_rows env (NewOrder.id order) (NewOrder.items order) 0),
   Tx.Ok (OrderWithItems.mk (order_row env order)
            (item_rows env (NewOrder.id order) (NewOrder.items order) 0))).
Proof.
  intros (Hid & Hq & Hnd & Hnew). unfold saveOrder.
  apply InventoryTheory.transaction_ok. unfold Tx.bind.
  destruct (insert_order_cases env (NewOrder.id order) (NewOrder.userId order)
              (NewOrder.status order) db) as [[Hin _]|[_ ->]]; [contradiction|].
  rewrite items_loop_run; simpl.
  - reflexivity.
  - rewrite map_app. apply in_or_app. right. left. reflexivity.
  - exact Hq.
  - exact Hnd.
  - exact Hnew.
Qed.

Lemma saveOrder_storable (env : Env) (db db' : DB) (order : NewOrder.t)
    (r : OrderWithItems.t) :
  saveOrder env db order = (db', Tx.Ok r) -> storable env db order.
Proof.
  unfold saveOrder. intro H. apply InventoryTheory.transaction_commit in H.
  unfold Tx.bind in H.
  destruct (insert_order_cases env (NewOrder.id order) (NewOrder.userId order)
              (NewOrder.status order) db) as [[_ E]|[Hid E]];
    rewrite E in H; [discriminate|].
  destruct (items_loop env (NewOrder.id order) (NewOrder.items order) 0 [] _)
    as [[rs db1]|e] eqn:El; [|discriminate].
  apply items_loop_ok in El. destruct El as (Hq & Hnd & Hnew).
  split; [exact Hid|]. split; [exact Hq|]. split; [exact Hnd | exact Hnew].
Qed.



(** ** Reading back *)

Lemma select_order_none (os : list Order.t) (id : uuid) :
  ~ In id (map Order.id os) ->
  filter (fun o => String.eqb (Order.id o) id) os = [].
Proof.
  intro H. induction os as [|o os IH]; simpl; [reflexivity|].
  destruct (String.eqb_spec (Order.id o) id) as [E|_].
  - exfalso. apply H. left. exact E.
  - apply IH. intro Hin. apply H. right. exact Hin.
Qed.


Lemma items_of_none (rows : list OrderItem.t) (id : uuid) :
  Forall (fun i => OrderItem.order_id i <> id) rows ->
  filter (fun i => String.eqb (OrderItem.order_id i) id) rows = [].
Proof.
  induction 1 as [|i rows Hi _ IH]; simpl; [reflexivity|].
  apply String.eqb_neq in Hi. rewrite Hi. exact IH.
Qed.

Lemma item_rows_order (env : Env) (oid : uuid) (items : list Item.t) (k : nat) :
  Forall (fun i => OrderItem.order_id i = oid /\
                   OrderItem.created_at i = CURRENT_TIMESTAMP env)
         (item_rows env oid items k).
Proof.
  revert k. induction items as [|item rest IH]; intro k; simpl; constructor.
  - split; reflexivity.
  - apply IH.
Qed.

Lemma item_rows_ids (env : Env) (oid : uuid) (items : list Item.t) (k : nat) :
  map OrderItem.id (item_rows env oid items k)
  = map (gen_random_uuid env) (seq k (List.length items)).
Proof.
  revert k. induction items as [|item rest IH]; intro k; simpl; [reflexivity|].
  rewrite IH. reflexivity.
Qed.


Lemma item_rows_quantities (env : Env) (oid : uuid) (items : list Item.t) (k : nat) :
  Forall (fun item => 0 < Item.qty item) items ->
  Forall (fun i => 0 < OrderItem.quantity i) (item_rows env oid items k).
Proof.
  intro H. revert k. induction H as [|item rest Hq _ IH]; intro k; simpl; constructor.
  - exact Hq.
  - apply IH.
Qed.

(** Rows of one instant stay in heap order. *)
Lemma order_by_same_instant (rows : list OrderItem.t) (c : Z) :
  Forall (fun i => OrderItem.created_at i = c) rows ->
  order_by_created_at rows = rows.
Proof.
  induction 1 as [|i rows Hi Hrows IH]; [reflexivity|].
  unfold order_by_created_at in *. cbn [fold_right]. rewrite IH.
  destruct Hrows as [|j rest Hj _]; cbn [insert_asc]; [reflexivity|].
  rewrite Hi, Hj, Z.ltb_irrefl. reflexivity.
Qed.

Lemma filter_keep {A : Type} (p : A -> bool) (l : list A) :
  Forall (fun x => p x = true) l -> filter p l = l.
Proof.
  induction 1 as [|x l Hx _ IH]; simpl; [reflexivity|]. rewrite Hx, IH. reflexivity.
Qed.

Lemma filter_drop {A : Type} (p : A -> bool) (l : list A) :
  Forall (fun x => p x = false) l -> filter p l = [].
Proof.
  induction 1 as [|x l Hx _ IH]; simpl; [reflexivity|]. rewrite Hx. exact IH.
Qed.

Lemma saveOrder_read_back (env : Env) (db db' : DB) (order : NewOrder.t)
    (r : OrderWithItems.t) :
  schema_ok db ->
  saveOrder env db order = (db', Tx.Ok r) ->
  getOrder db' (NewOrder.id order) = Some r /\
  (forall id, id <> NewOrder.id order -> getOrder db' id = getOrder db id) /\
  schema_ok db'.
Proof.
  intros (Hos & His & Hqty & Hfk) H.
  pose proof (saveOrder_storable _ _ _ _ _ H) as Hst.
  rewrite (saveOrder_run _ _ _ Hst) in H. inversion H. subst db' r. clear H.
  destruct Hst as (Hid & Hq & Hnd & Hnew).
  set (oid := NewOrder.id order) in *.
  set (rows := item_rows env oid (NewOrder.items order) 0).
  assert (Hold : Forall (fun i => OrderItem.order_id i <> oid) (order_items db)).
  { eapply Forall_impl; [|exact Hfk]. intros i Hi E. simpl in Hi.
    rewrite E in Hi. exact (Hid Hi). }
  assert (Hrows : Forall (fun i => OrderItem.order_id i = oid /\
                                   OrderItem.created_at i = CURRENT_TIMESTAMP env) rows)
    by apply item_rows_order.
  split; [|split].
  - unfold getOrder, select_items. cbn [orders order_items].
    rewrite filter_app, (select_order_none _ _ Hid). simpl.
    unfold order_row at 1. cbn [Order.id]. fold oid. rewrite String.eqb_refl. simpl.
    rewrite filter_app, (items_of_none _ _ Hold). simpl.
    rewrite filter_keep.
    + rewrite (order_by_same_instant rows (CURRENT_TIMESTAMP env)); [reflexivity|].
      eapply Forall_impl; [|exact Hrows]. intros i [_ Hi]. exact Hi.
    + eapply Forall_impl; [|exact Hrows]. intros i [Hi _]. simpl.
      apply String.eqb_eq. exact Hi.
  - intros id Hne. unfold getOrder, select_items. cbn [orders order_items].
    rewrite !filter_app. simpl. unfold order_row at 1. cbn [Order.id]. fold oid.
    assert (E1 : String.eqb oid id = false) by (apply String.eqb_neq; congruence).
    rewrite E1, app_nil_r.
    rewrite (filter_drop _ rows), app_nil_r; [reflexivity|].
    eapply Forall_impl; [|exact Hrows]. intros i [Hi _]. simpl. rewrite Hi. exact E1.
  - unfold schema_ok. cbn [orders order_items].
    split; [|split; [|split]].
    + rewrite map_app. simpl. apply CheckoutTheory.NoDup_snoc; assumption.
    + rewrite map_app. unfold rows. rewrite item_rows_ids.
      apply NoDup_app; [exact His | exact Hnd |].
      intros key Hk1 Hk2. rewrite Forall_forall in Hnew. exact (Hnew key Hk2 Hk1).
    + apply Forall_app. split; [exact Hqty | apply item_rows_quantities; exact Hq].
    + apply Forall_app. split.
      * eapply Forall_impl; [|exact Hfk]. intros i Hi. simpl in *.
        rewrite map_app. apply in_or_app. left. exact Hi.
      * eapply Forall_impl; [|exact Hrows]. intros i [Hi _]. simpl.
        rewrite map_app. apply in_or_app. right. left. simpl. symmetry. exact Hi.
Qed.

(** X25: what saveOrder stored, getOrder returns.  On tables that satisfy
    the schema (distinct ids, positive quantities, items that reference
    existing orders): after a successful saveOrder, getOrder of the new id
    returns exactly what saveOrder returned, the order row with its items in
    the order of the request (they share one created_at, so ORDER BY
    created_at leaves them in insertion order); getOrder of every other id
    returns what it returned before; and the tables still satisfy the
    schema. *)
Theorem saveOrder_then_getOrder (env : Env) (db db' : DB) (order : NewOrder.t)
    (r : OrderWithItems.t) :
  schema_ok db ->
  saveOrder env db order = (db', Tx.Ok r) ->
  getOrder db' (NewOrder.id order) = Some r /\
  (forall id, id <> NewOrder.id order -> getOrder db' id = getOrder db id) /\
  schema_ok db'.
Proof.
  intros Hs H.
  destruct (saveOrder_read_back env db db' order r Hs H) as (Hget & Hother & Hs').
  split; [exact Hget|]. split; [exact Hother | exact Hs'].
Qed.


(** ** [updateOrder] *)




(** ** The sample tables *)

Lemma shop_schema_ok : schema_ok Scenario.shop.
Proof.
  split; [simpl; distinct|]. split; [simpl; distinct|].
  split; [each_row|].
  repeat (apply Forall_cons; [simpl; tauto|]). apply Forall_nil.
Qed.



Lemma saveOrder_then_getOrder_witness :
  getOrder (fst (saveOrder Scenario.shop_env Scenario.shop Scenario.new_order))
    Scenario.order3
  = Some (OrderWithItems.mk (order_row Scenario.shop_env Scenario.new_order)
            (item_rows Scenario.shop_env Scenario.order3 Scenario.basket 0)).
Proof.
  apply (saveOrder_then_getOrder Scenario.shop_env Scenario.shop _ Scenario.new_order
           _ shop_schema_ok).
  reflexivity.
Defined.



(** ** The routes *)



End OrderServiceTheory.

